(** * EvoCmdWingKeyboard: matrix scan, debounce and modifier ledger

    A shallow embedding of [src/src/Keysend.cpp] and of the serial command
    reader of [src/src/utils.cpp], a verification of the properties the
    specification states about the firmware, and of further properties of
    the code.

    The firmware keeps its whole state in file-scope variables; here they are
    the fields of one record, [State], threaded through every function.  The
    USB keyboard object [Keyboard] is a sink: the calls it receives are
    appended to the field [sent], oldest first.  The level of the LED pin is
    the field [led].  Unsigned C integers are integers of [Z] with the
    wrap-around written out.

    What a scan cycle reads from the outside world is an argument of
    [keyboardScan]: the value of [millis()] and, for every cell, whether its
    column reads LOW while its row is selected.  The configuration of the
    pins is a state of its own, [Gpio], on which the pin-mode calls of the
    initialisation and of the scan are modelled; the serial side is the
    record [Serial].  The settle and pacing delays and the debug output on
    the serial port have no bearing on these states and are left out. *)

From Stdlib Require Import ZArith Lia Ascii.
From stdpp Require Import base tactics numbers option list gmap.
From Stdlib Require String.
Import String.StringSyntax.

Local Open Scope Z_scope.

(** ** Fixed-width arithmetic *)

(** [uint16_t] and [uint32_t] arithmetic wraps modulo 2^16 and 2^32. *)
Definition wrap16 (x : Z) : Z := x mod 65536.
Definition wrap32 (x : Z) : Z := x mod 4294967296.

(** ** Configuration constants (Keysend.cpp, lines 7-16) *)

Definition NUM_ROWS : nat := 10.
Definition NUM_COLS : nat := 14.
Definition DEBOUNCE_MS : Z := 5.

(** ** Keycodes

    The keycodes come from the Teensy core header [keylayouts.h], which the
    firmware includes through [Arduino.h]; that header belongs to the
    toolchain, not to this repository.  These are its values: a named key is
    its HID usage or'ed with [0xF000], a modifier key is its modifier bit
    or'ed with [0xE000], and a printable character is its ASCII code. *)

Definition MODIFIERKEY_LEFT_CTRL  : Z := Z.lor 0x01 0xE000.
Definition MODIFIERKEY_LEFT_SHIFT : Z := Z.lor 0x02 0xE000.
Definition MODIFIERKEY_LEFT_ALT   : Z := Z.lor 0x04 0xE000.

Definition KEY_ENTER      : Z := Z.lor 40 0xF000.
Definition KEY_ESC        : Z := Z.lor 41 0xF000.
Definition KEY_BACKSPACE  : Z := Z.lor 42 0xF000.
Definition KEY_F1         : Z := Z.lor 58 0xF000.
Definition KEY_F2         : Z := Z.lor 59 0xF000.
Definition KEY_F3         : Z := Z.lor 60 0xF000.
Definition KEY_F4         : Z := Z.lor 61 0xF000.
Definition KEY_F5         : Z := Z.lor 62 0xF000.
Definition KEY_F6         : Z := Z.lor 63 0xF000.
Definition KEY_F7         : Z := Z.lor 64 0xF000.
Definition KEY_F8         : Z := Z.lor 65 0xF000.
Definition KEY_F12        : Z := Z.lor 69 0xF000.
Definition KEY_INSERT     : Z := Z.lor 73 0xF000.
Definition KEY_HOME       : Z := Z.lor 74 0xF000.
Definition KEY_PAGE_UP    : Z := Z.lor 75 0xF000.
Definition KEY_DELETE     : Z := Z.lor 76 0xF000.
Definition KEY_END        : Z := Z.lor 77 0xF000.
Definition KEY_PAGE_DOWN  : Z := Z.lor 78 0xF000.
Definition KEYPAD_ASTERIX : Z := Z.lor 85 0xF000.
Definition KEYPAD_PLUS    : Z := Z.lor 87 0xF000.

(** A keycode names a modifier key when its high byte is [0xE0]. *)
Definition isModifierKey (k : Z) : bool := Z.land k 0xFF00 =? 0xE000.

(** ** Key actions (Keysend.cpp, lines 41-65) *)

(** [enum ModMask : uint8_t], a bit mask. *)
Definition ModMask : Type := Z.
Definition MOD_NONE   : ModMask := 0.
Definition MOD_LCTRL  : ModMask := Z.shiftl 1 0.
Definition MOD_LALT   : ModMask := Z.shiftl 1 1.
Definition MOD_LSHIFT : ModMask := Z.shiftl 1 2.

(** The C test [m & bit]. *)
Definition hasMod (m bit : ModMask) : bool := negb (Z.land m bit =? 0).

Record KeyAction : Type := mkKeyAction {
  valid : bool;          (* false: empty position *)
  modifierOnly : bool;   (* true: no base key, only modifiers *)
  baseKey : Z;           (* uint16_t: ASCII or KEY_* usage *)
  mods : ModMask         (* modifiers to hold while this key is pressed *)
}.

(** [(uint16_t)ascii] for a character constant. *)
Definition char16 (ch : ascii) : Z := Z.of_N (N_of_ascii ch).

Definition KA_empty : KeyAction := mkKeyAction false false 0 MOD_NONE.
Definition KA_base (ch : ascii) : KeyAction := mkKeyAction true false (char16 ch) MOD_NONE.
Definition KA_key (keycode : Z) : KeyAction := mkKeyAction true false keycode MOD_NONE.
Definition KA_chord (ch : ascii) (m : ModMask) : KeyAction := mkKeyAction true false (char16 ch) m.
Definition KA_chord_key (keycode : Z) (m : ModMask) : KeyAction := mkKeyAction true false keycode m.
Definition KA_mod (m : ModMask) : KeyAction := mkKeyAction true true 0 m.

Global Instance KeyAction_inhabited : Inhabited KeyAction := populate KA_empty.

(** ** The keymap (Keysend.cpp, lines 78-128) *)

Local Open Scope char_scope.

Definition keymap : list (list KeyAction) :=
  let C := MOD_LCTRL in
  let A := MOD_LALT in
  [ (* Row 0 *)
    [ KA_chord "p" A; KA_chord "n" A; KA_chord "h" A; KA_chord "o" C; KA_chord "u" C;
      KA_empty; KA_empty; KA_empty; KA_empty; KA_empty; KA_empty; KA_empty; KA_empty; KA_empty ];
    (* Row 1 *)
    [ KA_chord "f" A; KA_chord "u" A; KA_chord "g" A; KA_chord "m" C; KA_chord "c" C;
      KA_key KEY_F1; KA_key KEY_F2; KA_key KEY_F3; KA_key KEY_F4; KA_empty;
      KA_key KEY_F5; KA_key KEY_F6; KA_key KEY_F7; KA_key KEY_F8 ];
    (* Row 2 *)
    [ KA_chord "f" A; KA_chord "d" A; KA_chord "b" A; KA_chord "d" C; KA_chord "l" C;
      KA_key KEY_INSERT; KA_key KEY_HOME; KA_key KEY_PAGE_UP; KA_key KEY_F12; KA_empty;
      KA_key KEY_DELETE; KA_key KEY_END; KA_key KEY_PAGE_DOWN; KA_key KEYPAD_PLUS ];
    (* Row 3 *)
    [ KA_empty; KA_empty; KA_chord "w" A; KA_chord "s" C; KA_chord "h" C;
      KA_empty; KA_empty; KA_empty; KA_empty; KA_empty; KA_empty; KA_empty; KA_empty; KA_empty ];
    (* Row 4 *)
    [ KA_empty; KA_empty; KA_chord "v" A; KA_chord "e" C; KA_chord "z" C;
      KA_chord "r" A; KA_chord "k" A; KA_chord "z" A; KA_empty; KA_chord "j" A;
      KA_empty; KA_chord "l" A; KA_chord "." A; KA_chord "," A ];
    (* Row 5 *)
    [ KA_empty; KA_empty; KA_chord "[" A; KA_chord "f" C; KA_chord "n" C; KA_chord "g" C;
      KA_empty; KA_base "7"; KA_base "8"; KA_base "9"; KA_chord "=" A; KA_empty; KA_chord "o" A; KA_empty ];
    (* Row 6 *)
    [ KA_empty; KA_empty; KA_chord "]" A; KA_chord "p" C; KA_chord "q" C; KA_chord "w" C;
      KA_empty; KA_base "4"; KA_base "5"; KA_base "6"; KA_chord "t" A; KA_empty; KA_empty; KA_empty ];
    (* Row 7 *)
    [ KA_empty; KA_key KEYPAD_ASTERIX; KA_empty; KA_empty; KA_empty; KA_empty; KA_empty;
      KA_base "1"; KA_base "2"; KA_base "3"; KA_base "-"; KA_empty; KA_empty; KA_empty ];
    (* Row 8 *)
    [ KA_empty; KA_base "]"; KA_chord "'" A; KA_chord "x" C; KA_chord "a" C; KA_chord "j" C;
      KA_empty; KA_base "0"; KA_base "."; KA_chord "8" A; KA_chord "2" A; KA_empty; KA_key KEY_ESC; KA_empty ];
    (* Row 9 *)
    [ KA_empty; KA_base "["; KA_chord ";" A; KA_chord "b" C; KA_empty; KA_chord "s" A;
      KA_empty; KA_mod MOD_LSHIFT; KA_chord "/" C; KA_empty; KA_key KEY_ENTER; KA_empty;
      KA_chord_key KEY_BACKSPACE A; KA_chord "y" A ]
  ].

Local Close Scope char_scope.

(** [keymap[r][c]] *)
Definition keymapAt (r c : nat) : KeyAction := (keymap !!! r) !!! c.

(** ** Two-dimensional arrays *)

(** A C array [T a[NUM_ROWS][NUM_COLS]] is a list of rows.  The firmware
    only ever indexes inside the bounds; [wfGrid] says the list has the
    declared shape. *)
Abbreviation Grid T := (list (list T)).

Definition get {T} `{!Inhabited T} (g : Grid T) (r c : nat) : T := (g !!! r) !!! c.

Definition set {T} `{!Inhabited T} (g : Grid T) (r c : nat) (v : T) : Grid T :=
  <[r := <[c := v]> (g !!! r)]> g.

Definition wfGrid {T} (g : Grid T) : Prop :=
  length g = NUM_ROWS ∧ Forall (λ row, length row = NUM_COLS) g.

(** ** Program state (Keysend.cpp, lines 134-145) *)

(** A call received by the USB keyboard object. *)
Inductive KbCall : Type :=
  | KPress (k : Z)       (* Keyboard.press(k) *)
  | KRelease (k : Z)     (* Keyboard.release(k) *)
  | KReleaseAll.         (* Keyboard.releaseAll() *)

(** A transition event: one invocation of [handleKeyPress] or
    [handleKeyRelease] for a matrix position. *)
Inductive Event : Type :=
  | Pressed (r c : nat)
  | Released (r c : nat).

Global Instance KbCall_eq_dec : EqDecision KbCall.
Proof. solve_decision. Defined.
Global Instance Event_eq_dec : EqDecision Event.
Proof. solve_decision. Defined.

Record State : Type := mkState {
  rawState : Grid bool;      (* instant reads *)
  lastRaw : Grid bool;       (* previous raw for debounce timing *)
  debounced : Grid bool;     (* stable state *)
  lastChange : Grid Z;       (* uint32_t: time of last raw change *)
  refCtrl : Z;               (* uint16_t modifier reference counts *)
  refAlt : Z;
  refShift : Z;
  pressedCount : Z;          (* uint16_t: count of currently pressed keys *)
  led : bool;                (* level written to LED_PIN *)
  sent : list KbCall;        (* calls received by Keyboard, oldest first *)
  events : list Event        (* handler invocations so far, oldest first;
                                written by the handlers, read by no code *)
}.

Definition set_rawState (v : Grid bool) (s : State) : State :=
  mkState v (lastRaw s) (debounced s) (lastChange s) (refCtrl s) (refAlt s)
          (refShift s) (pressedCount s) (led s) (sent s) (events s).
Definition set_lastRaw (v : Grid bool) (s : State) : State :=
  mkState (rawState s) v (debounced s) (lastChange s) (refCtrl s) (refAlt s)
          (refShift s) (pressedCount s) (led s) (sent s) (events s).
Definition set_debounced (v : Grid bool) (s : State) : State :=
  mkState (rawState s) (lastRaw s) v (lastChange s) (refCtrl s) (refAlt s)
          (refShift s) (pressedCount s) (led s) (sent s) (events s).
Definition set_lastChange (v : Grid Z) (s : State) : State :=
  mkState (rawState s) (lastRaw s) (debounced s) v (refCtrl s) (refAlt s)
          (refShift s) (pressedCount s) (led s) (sent s) (events s).
Definition set_refCtrl (v : Z) (s : State) : State :=
  mkState (rawState s) (lastRaw s) (debounced s) (lastChange s) v (refAlt s)
          (refShift s) (pressedCount s) (led s) (sent s) (events s).
Definition set_refAlt (v : Z) (s : State) : State :=
  mkState (rawState s) (lastRaw s) (debounced s) (lastChange s) (refCtrl s) v
          (refShift s) (pressedCount s) (led s) (sent s) (events s).
Definition set_refShift (v : Z) (s : State) : State :=
  mkState (rawState s) (lastRaw s) (debounced s) (lastChange s) (refCtrl s) (refAlt s)
          v (pressedCount s) (led s) (sent s) (events s).
Definition set_pressedCount (v : Z) (s : State) : State :=
  mkState (rawState s) (lastRaw s) (debounced s) (lastChange s) (refCtrl s) (refAlt s)
          (refShift s) v (led s) (sent s) (events s).
(** [digitalWrite(LED_PIN, v)] *)
Definition set_led (v : bool) (s : State) : State :=
  mkState (rawState s) (lastRaw s) (debounced s) (lastChange s) (refCtrl s) (refAlt s)
          (refShift s) (pressedCount s) v (sent s) (events s).
Definition set_sent (v : list KbCall) (s : State) : State :=
  mkState (rawState s) (lastRaw s) (debounced s) (lastChange s) (refCtrl s) (refAlt s)
          (refShift s) (pressedCount s) (led s) v (events s).
Definition set_events (v : list Event) (s : State) : State :=
  mkState (rawState s) (lastRaw s) (debounced s) (lastChange s) (refCtrl s) (refAlt s)
          (refShift s) (pressedCount s) (led s) (sent s) v.

(** The keyboard transport. *)
Definition kbPress (k : Z) (s : State) : State := set_sent (sent s ++ [KPress k]) s.
Definition kbRelease (k : Z) (s : State) : State := set_sent (sent s ++ [KRelease k]) s.
Definition kbReleaseAll (s : State) : State := set_sent (sent s ++ [KReleaseAll]) s.

Definition logEvent (e : Event) (s : State) : State := set_events (events s ++ [e]) s.

(** ** Modifier press/release helpers (Keysend.cpp, lines 172-182) *)

(** [if (m & MOD_X) { if (refX++ == 0) Keyboard.press(MODIFIERKEY_LEFT_X); }] *)
Definition pressModifiers (m : ModMask) (s : State) : State :=
  let s :=
    if hasMod m MOD_LCTRL then
      let old := refCtrl s in
      let s := set_refCtrl (wrap16 (old + 1)) s in
      if old =? 0 then kbPress MODIFIERKEY_LEFT_CTRL s else s
    else s in
  let s :=
    if hasMod m MOD_LALT then
      let old := refAlt s in
      let s := set_refAlt (wrap16 (old + 1)) s in
      if old =? 0 then kbPress MODIFIERKEY_LEFT_ALT s else s
    else s in
  if hasMod m MOD_LSHIFT then
    let old := refShift s in
    let s := set_refShift (wrap16 (old + 1)) s in
    if old =? 0 then kbPress MODIFIERKEY_LEFT_SHIFT s else s
  else s.

(** [if (m & MOD_X) { if (refX > 0 && --refX == 0) Keyboard.release(MODIFIERKEY_LEFT_X); }] *)
Definition releaseModifiers (m : ModMask) (s : State) : State :=
  let s :=
    if hasMod m MOD_LCTRL then
      if 0 <? refCtrl s then
        let s := set_refCtrl (wrap16 (refCtrl s - 1)) s in
        if refCtrl s =? 0 then kbRelease MODIFIERKEY_LEFT_CTRL s else s
      else s
    else s in
  let s :=
    if hasMod m MOD_LALT then
      if 0 <? refAlt s then
        let s := set_refAlt (wrap16 (refAlt s - 1)) s in
        if refAlt s =? 0 then kbRelease MODIFIERKEY_LEFT_ALT s else s
      else s
    else s in
  if hasMod m MOD_LSHIFT then
    if 0 <? refShift s then
      let s := set_refShift (wrap16 (refShift s - 1)) s in
      if refShift s =? 0 then kbRelease MODIFIERKEY_LEFT_SHIFT s else s
    else s
  else s.

(** ** Handlers (Keysend.cpp, lines 188-223) *)

Definition handleKeyPress (r c : nat) (s : State) : State :=
  let s := logEvent (Pressed r c) s in
  let ka := keymapAt r c in
  if negb (valid ka) then s
  else if modifierOnly ka then
    (* Physical modifier key *)
    let s := pressModifiers (mods ka) s in
    let s := set_pressedCount (wrap16 (pressedCount s + 1)) s in
    if pressedCount s =? 1 then set_led true s else s
  else
    (* Press modifiers first, then base key *)
    let s := if negb (mods ka =? MOD_NONE) then pressModifiers (mods ka) s else s in
    let s := kbPress (baseKey ka) s in
    let s := set_pressedCount (wrap16 (pressedCount s + 1)) s in
    if pressedCount s =? 1 then set_led true s else s.

Definition handleKeyRelease (r c : nat) (s : State) : State :=
  let s := logEvent (Released r c) s in
  let ka := keymapAt r c in
  if negb (valid ka) then s
  else if modifierOnly ka then
    let s := releaseModifiers (mods ka) s in
    if 0 <? pressedCount s then
      let s := set_pressedCount (wrap16 (pressedCount s - 1)) s in
      if pressedCount s =? 0 then set_led false s else s
    else s
  else
    (* Release base key first, then modifiers if no other keys need them *)
    let s := kbRelease (baseKey ka) s in
    let s := if negb (mods ka =? MOD_NONE) then releaseModifiers (mods ka) s else s in
    if 0 <? pressedCount s then
      let s := set_pressedCount (wrap16 (pressedCount s - 1)) s in
      if pressedCount s =? 0 then set_led false s else s
    else s.

(** ** Loops over the matrix *)

(** [for (r = 0; r < NUM_ROWS; ++r) for (c = 0; c < NUM_COLS; ++c) body(r, c)] *)
Definition forCells (body : nat → nat → State → State) (s : State) : State :=
  foldl (λ s r, foldl (λ s c, body r c s) s (seq 0 NUM_COLS)) s (seq 0 NUM_ROWS).

(** ** Initialisation (Keysend.cpp, lines 225-251) *)

(** The state at power-up: C zero-initialises objects of static storage. *)
Definition boot : State :=
  mkState (replicate NUM_ROWS (replicate NUM_COLS false))
          (replicate NUM_ROWS (replicate NUM_COLS false))
          (replicate NUM_ROWS (replicate NUM_COLS false))
          (replicate NUM_ROWS (replicate NUM_COLS 0))
          0 0 0 0 false [] [].

Definition keyboardInit (s : State) : State :=
  let s := set_led false s in
  forCells (λ r c s,
    let s := set_rawState (set (rawState s) r c false) s in
    let s := set_lastRaw (set (lastRaw s) r c false) s in
    let s := set_debounced (set (debounced s) r c false) s in
    set_lastChange (set (lastChange s) r c 0) s) s.

(** ** One scan cycle (Keysend.cpp, lines 253-290) *)

(** Step 2 of the cycle for one cell (lines 272-284). *)
Definition debounceCell (now : Z) (r c : nat) (s : State) : State :=
  let currRaw := get (rawState s) r c in
  let s :=
    if negb (eqb currRaw (get (lastRaw s) r c)) then
      (* Raw changed: reset timer *)
      let s := set_lastRaw (set (lastRaw s) r c currRaw) s in
      set_lastChange (set (lastChange s) r c now) s
    else s in
  (* If debounced differs from current raw and it's been stable long enough, commit *)
  if negb (eqb (get (debounced s) r c) currRaw)
     && (DEBOUNCE_MS <=? wrap32 (now - get (lastChange s) r c)) then
    let s := set_debounced (set (debounced s) r c currRaw) s in
    if currRaw then handleKeyPress r c s else handleKeyRelease r c s
  else s.

(** Step 1 of the cycle (lines 257-265): [pins r c] is the outcome of
    [digitalRead(colPins[c]) == LOW] while row [r] is selected. *)
Definition sampleRows (pins : nat → nat → bool) (s : State) : State :=
  forCells (λ r c s, set_rawState (set (rawState s) r c (pins r c)) s) s.

(** [now] is the value [millis()] returned at the start of the cycle. *)
Definition keyboardScan (now : Z) (pins : nat → nat → bool) (s : State) : State :=
  let s := sampleRows pins s in
  forCells (debounceCell now) s.

(** ** Full release (Keysend.cpp, lines 292-309) *)

(** Lines 294-301: release any held keys by walking the debounced matrix. *)
Definition releaseHeldKeys (s : State) : State :=
  forCells (λ r c s,
    if get (debounced s) r c then
      let s := handleKeyRelease r c s in
      set_debounced (set (debounced s) r c false) s
    else s) s.

(** Lines 303-305: ensure all modifiers are released. *)
Definition forceModifiersReleased (s : State) : State :=
  let s := if negb (refCtrl s =? 0)
           then set_refCtrl 0 (kbRelease MODIFIERKEY_LEFT_CTRL s) else s in
  let s := if negb (refAlt s =? 0)
           then set_refAlt 0 (kbRelease MODIFIERKEY_LEFT_ALT s) else s in
  if negb (refShift s =? 0)
  then set_refShift 0 (kbRelease MODIFIERKEY_LEFT_SHIFT s) else s.

Definition keyboardReleaseAll (s : State) : State :=
  let s := releaseHeldKeys s in
  let s := forceModifiersReleased s in
  let s := kbReleaseAll s in
  let s := set_pressedCount 0 s in
  set_led false s.

(** ** Runs of the program *)

Definition initial : State := keyboardInit boot.

(** The states the program can be in: the main loop runs scan cycles, each
    at some time [now] and with some samples [pins], and the host command
    channel may ask for a full release between two cycles. *)
Inductive reachable : State → Prop :=
  | reach_init : reachable initial
  | reach_scan s now pins : reachable s → reachable (keyboardScan now pins s)
  | reach_releaseAll s : reachable s → reachable (keyboardReleaseAll s).

(** ** Matrix pins (Keysend.cpp, lines 26-35, 151-166, 229-238 and 257-267) *)

Definition colPins : list nat := [0; 1; 2; 3; 4; 5; 6; 7; 8; 9; 10; 11; 12; 14]%nat.

Definition rowPins : list nat := [15; 16; 17; 18; 19; 20; 21; 22; 23; 24]%nat.

(** Onboard LED pin for Teensy 4.0. *)
Definition LED_PIN : nat := 13%nat.

Inductive PinMode : Type := INPUT | OUTPUT | INPUT_PULLUP.

Definition LOW : bool := false.
Definition HIGH : bool := true.

(** One [digitalRead] of the scan: the matrix position it samples, the pin
    it reads, and the configuration of the pins at that moment. *)
Record PinRead : Type := mkPinRead {
  rdRow : nat;
  rdCol : nat;
  rdPin : nat;
  rdModes : gmap nat PinMode;
  rdLevels : gmap nat bool
}.

(** The pins as the program has configured them: for each pin the mode of
    the last [pinMode] call and the level of the last [digitalWrite] call on
    it.  [reads] is a ghost log of the [digitalRead] calls; the values they
    return are the argument [pins] of [keyboardScan]. *)
Record Gpio : Type := mkGpio {
  modes : gmap nat PinMode;
  levels : gmap nat bool;
  reads : list PinRead
}.

Definition pinMode (pin : nat) (m : PinMode) (g : Gpio) : Gpio :=
  mkGpio (<[pin := m]> (modes g)) (levels g) (reads g).

Definition digitalWrite (pin : nat) (v : bool) (g : Gpio) : Gpio :=
  mkGpio (modes g) (<[pin := v]> (levels g)) (reads g).

Definition digitalRead (r c : nat) (pin : nat) (g : Gpio) : Gpio :=
  mkGpio (modes g) (levels g) (reads g ++ [mkPinRead r c pin (modes g) (levels g)]).

Definition unselectAllRows (g : Gpio) : Gpio :=
  foldl (λ g r, pinMode (rowPins !!! r) INPUT g) (* Hi-Z when not selected *)
        g (seq 0 NUM_ROWS).

Definition selectRowLow (row : nat) (g : Gpio) : Gpio :=
  (* Unselect others (Hi-Z) *)
  let g := foldl (λ g r, if (r =? row)%nat then g
                         else pinMode (rowPins !!! r) INPUT g)
                 g (seq 0 NUM_ROWS) in
  (* Selected row actively driven LOW *)
  let g := pinMode (rowPins !!! row) OUTPUT g in
  digitalWrite (rowPins !!! row) LOW g.

(** The pin configuration of [keyboardInit] (lines 229-238); the arrays
    are cleared by [keyboardInit] above. *)
Definition keyboardInit_pins (g : Gpio) : Gpio :=
  (* Initialize columns as inputs with pullups (readers) *)
  let g := foldl (λ g c, pinMode (colPins !!! c) INPUT_PULLUP g) g (seq 0 NUM_COLS) in
  (* Unselect all rows (Hi-Z) *)
  let g := unselectAllRows g in
  (* Initialize onboard LED *)
  let g := pinMode LED_PIN OUTPUT g in
  digitalWrite LED_PIN LOW g.

(** Step 1 of [keyboardScan] on the pins (lines 257-267): select each row
    in turn and read the columns, then restore the rows to Hi-Z.  The
    samples themselves are stored by [sampleRows]; the settle delay after
    the selection of a row changes no pin and is left out. *)
Definition keyboardScan_pins (g : Gpio) : Gpio :=
  let g := foldl (λ g r,
             let g := selectRowLow r g in
             foldl (λ g c, digitalRead r c (colPins !!! c) g) g (seq 0 NUM_COLS))
           g (seq 0 NUM_ROWS) in
  unselectAllRows g.

(** ** The whole of [keyboardInit] (Keysend.cpp, lines 225-251) *)

(** The keyboard side, the pins, and the number of calls of
    [Keyboard.begin()]. *)
Record Device : Type := mkDevice {
  keys : State;
  gpio : Gpio;
  begun : nat
}.

(** [keyboardInit] with all it does: it starts the USB keyboard, sets up
    the pins and clears the arrays.  The write of LOW to the LED pin shows
    in [levels] and, as the state of the LED, in [led]; the debug line
    printed at the end is left out. *)
Definition keyboardInit_device (d : Device) : Device :=
  (* Initialize USB keyboard *)
  let d := mkDevice (keys d) (gpio d) (S (begun d)) in
  (* Initialize columns, rows and onboard LED *)
  let d := mkDevice (keys d) (keyboardInit_pins (gpio d)) (begun d) in
  (* Initialize state *)
  mkDevice (keyboardInit (keys d)) (gpio d) (begun d).

(** * Serial commands (utils.cpp, lines 53-114) *)

(** An Arduino [String] is modelled as the list of its characters; the
    class is NUL-terminated, so the model is that of text without NUL
    characters. *)
Definition str (s : String.string) : list ascii := String.list_ascii_of_string s.

Delimit Scope string_scope with string.
Arguments str s%_string.

Definition PROJECT_NAME : list ascii := str "EvoCmdWingKeyboard".
Definition PROJECT_VERSION : list ascii := str "0.3".

(** [isspace] of the C locale: space, and the characters 9 to 13. *)
Definition isspace (c : ascii) : bool :=
  let n := nat_of_ascii c in
  (n =? 32)%nat || ((9 <=? n)%nat && (n <=? 13)%nat).

Fixpoint dropSpaces (l : list ascii) : list ascii :=
  match l with
  | c :: rest => if isspace c then dropSpaces rest else l
  | [] => []
  end.

(** [String::trim]: leading and trailing whitespace is removed. *)
Definition trim (l : list ascii) : list ascii :=
  rev (dropSpaces (rev (dropSpaces l))).

(** The restart a command asks for. *)
Inductive Reboot : Type :=
  | ToBootloader     (* _reboot_Teensyduino_() *)
  | NormalRestart.   (* SCB_AIRCR = 0x05FA0004 *)

(** The serial side of the program: the text printed so far, the static
    [commandBuffer] of [checkSerialForReboot], and the restart requested. *)
Record Serial : Type := mkSerial {
  tx : list ascii;
  commandBuffer : list ascii;
  reboot : option Reboot
}.

Definition set_commandBuffer (b : list ascii) (s : Serial) : Serial :=
  mkSerial (tx s) b (reboot s).

Definition set_reboot (r : Reboot) (s : Serial) : Serial :=
  mkSerial (tx s) (commandBuffer s) (Some r).

(** [Serial.print] and [Serial.println]; the latter ends the line with
    carriage return and line feed. *)
Definition print (text : list ascii) (s : Serial) : Serial :=
  mkSerial (tx s ++ text) (commandBuffer s) (reboot s).

Definition println (text : list ascii) (s : Serial) : Serial :=
  print ["013"; "010"]%char (print text s).

#[local] Instance ascii_eq_dec : EqDecision ascii := Ascii.ascii_dec.

(** [cmd == "..."] on a [String]. *)
Definition strEq (a b : list ascii) : bool := bool_decide (a = b).

Definition processSerialCommand (cmd : list ascii) (s : Serial) : Serial :=
  if strEq cmd (str "IDENTIFY") then
    let s := print (str "[IDENT] ") s in
    let s := print PROJECT_NAME s in
    let s := print (str " v") s in
    println PROJECT_VERSION s
  else if strEq cmd (str "REBOOT_BOOTLOADER") then
    let s := print (str "[REBOOT] ") s in
    let s := print PROJECT_NAME s in
    let s := print (str " v") s in
    let s := print PROJECT_VERSION s in
    let s := println (str " entering bootloader...") s in
    set_reboot ToBootloader s
  else if strEq cmd (str "REBOOT_NORMAL") then
    let s := print (str "[REBOOT] ") s in
    let s := print PROJECT_NAME s in
    let s := print (str " v") s in
    let s := print PROJECT_VERSION s in
    let s := println (str " normal reboot requested...") s in
    set_reboot NormalRestart s
  else
    let s := print (str "[REBOOT] Unknown command: ") s in
    println cmd s.

(** [c == '\n' || c == '\r'] *)
Definition isLineEnd (c : ascii) : bool :=
  Ascii.eqb c "010" || Ascii.eqb c "013".

(** One call of [checkSerialForReboot]: [rx] are the characters that
    [Serial.read] delivers while [Serial.available] holds; the call returns
    the characters it has left unread. *)
Fixpoint checkSerialForReboot (rx : list ascii) (s : Serial) : list ascii * Serial :=
  match rx with
  | [] => ([], s)
  | c :: rx =>
      if isLineEnd c then
        (* End of command received, process it *)
        let cmd := trim (commandBuffer s) in
        let s := set_commandBuffer [] s in
        let s := if (0 <? length cmd)%nat then processSerialCommand cmd s else s in
        (rx, s)
      else
        (* Add character to buffer *)
        checkSerialForReboot rx (set_commandBuffer (commandBuffer s ++ [c]) s)
  end.

(** * Vocabulary of the statements

    Observations of the state, counting, runs of the program and the
    auxiliary functions the lemmas below are stated with. *)

(** The cells of the matrix, row by row: the order in which the nested
    loops visit them. *)
Definition cells : list (nat * nat) := list_prod (seq 0 NUM_ROWS) (seq 0 NUM_COLS).

(** The number of cells of the matrix that satisfy [P]. *)
Definition countCells (P : nat → nat → bool) : nat :=
  length (List.filter (λ rc, P rc.1 rc.2) cells).

Definition b2n (b : bool) : nat := if b then 1%nat else 0%nat.

(** The four arrays have the declared dimensions. *)
Definition wfState (s : State) : Prop :=
  wfGrid (rawState s) ∧ wfGrid (lastRaw s) ∧ wfGrid (debounced s) ∧ wfGrid (lastChange s).

(** The three modifier counters hold [uint16_t] values. *)
Definition ledgerInRange (s : State) : Prop :=
  0 ≤ refCtrl s < 65536 ∧ 0 ≤ refAlt s < 65536 ∧ 0 ≤ refShift s < 65536.

(** The calls [pressModifiers m] sends from state [s]: one assert for each
    requested modifier whose counter is zero. *)
Definition pressCalls (m : ModMask) (s : State) : list KbCall :=
  (if hasMod m MOD_LCTRL && (refCtrl s =? 0) then [KPress MODIFIERKEY_LEFT_CTRL] else [])
  ++ (if hasMod m MOD_LALT && (refAlt s =? 0) then [KPress MODIFIERKEY_LEFT_ALT] else [])
  ++ (if hasMod m MOD_LSHIFT && (refShift s =? 0) then [KPress MODIFIERKEY_LEFT_SHIFT] else []).

(** The calls [releaseModifiers m] sends from state [s]: one deassert for
    each requested modifier whose counter goes from one to zero. *)
Definition releaseCalls (m : ModMask) (s : State) : list KbCall :=
  (if hasMod m MOD_LCTRL && (0 <? refCtrl s) && (wrap16 (refCtrl s - 1) =? 0)
   then [KRelease MODIFIERKEY_LEFT_CTRL] else [])
  ++ (if hasMod m MOD_LALT && (0 <? refAlt s) && (wrap16 (refAlt s - 1) =? 0)
      then [KRelease MODIFIERKEY_LEFT_ALT] else [])
  ++ (if hasMod m MOD_LSHIFT && (0 <? refShift s) && (wrap16 (refShift s - 1) =? 0)
      then [KRelease MODIFIERKEY_LEFT_SHIFT] else []).

(** [x++] and the guarded [--x] on a [uint16_t], done when [on] holds. *)
Definition incr16 (on : bool) (x : Z) : Z := if on then wrap16 (x + 1) else x.
Definition decr16 (on : bool) (x : Z) : Z := if on && (0 <? x) then wrap16 (x - 1) else x.

(** One line of [pressModifiers] / [releaseModifiers], for the counter read
    by [rd] and written by [wr]. *)
Definition pressLine (rd : State → Z) (wr : Z → State → State) (bit : ModMask)
    (code : Z) (m : ModMask) (s : State) : State :=
  if hasMod m bit then
    let old := rd s in
    let s := wr (wrap16 (old + 1)) s in
    if old =? 0 then kbPress code s else s
  else s.

Definition releaseLine (rd : State → Z) (wr : Z → State → State) (bit : ModMask)
    (code : Z) (m : ModMask) (s : State) : State :=
  if hasMod m bit then
    if 0 <? rd s then
      let s := wr (wrap16 (rd s - 1)) s in
      if rd s =? 0 then kbRelease code s else s
    else s
  else s.

(** The raw sample differs from the previous one. *)
Definition cellEdge (s : State) (r c : nat) : bool :=
  negb (eqb (get (rawState s) r c) (get (lastRaw s) r c)).

(** The time of the last raw change, as the commit check of this cycle sees it. *)
Definition cellTimer (now : Z) (s : State) (r c : nat) : Z :=
  if cellEdge s r c then now else get (lastChange s) r c.

(** The commit check of this cycle succeeds. *)
Definition cellCommits (now : Z) (s : State) (r c : nat) : bool :=
  negb (eqb (get (debounced s) r c) (get (rawState s) r c))
  && (DEBOUNCE_MS <=? wrap32 (now - cellTimer now s r c)).

(** The event a commit to the value [v] raises. *)
Definition eventFor (r c : nat) (v : bool) : Event :=
  if v then Pressed r c else Released r c.

(** The handler a commit to the value [v] runs (lines 282-283). *)
Definition dispatch (r c : nat) (v : bool) (s : State) : State :=
  if v then handleKeyPress r c s else handleKeyRelease r c s.

(** The events of one cell among the events of a log. *)
Definition eventCell (e : Event) : nat * nat :=
  match e with Pressed r c | Released r c => (r, c) end.

Definition eventsAt (r c : nat) (l : list Event) : list Event :=
  List.filter (λ e, bool_decide (eventCell e = (r, c))) l.

(** What the scan can see of one cell. *)
Record CellView : Type := mkCellView {
  cvRaw : bool;
  cvLastRaw : bool;
  cvDebounced : bool;
  cvLastChange : Z;
  cvEvents : list Event
}.

Definition cellView (r c : nat) (s : State) : CellView :=
  mkCellView (get (rawState s) r c) (get (lastRaw s) r c) (get (debounced s) r c)
             (get (lastChange s) r c) (eventsAt r c (events s)).

(** The iteration for a cell, on what the scan can see of that cell. *)
Definition cellNext (now : Z) (r c : nat) (v : CellView) : CellView :=
  let edge := negb (eqb (cvRaw v) (cvLastRaw v)) in
  let timer := if edge then now else cvLastChange v in
  let commits := negb (eqb (cvDebounced v) (cvRaw v))
                 && (DEBOUNCE_MS <=? wrap32 (now - timer)) in
  mkCellView (cvRaw v) (cvRaw v)
             (if commits then cvRaw v else cvDebounced v)
             timer
             (cvEvents v ++ if commits then [eventFor r c (cvRaw v)] else []).

(** What the cell shows once the samples of the cycle are stored. *)
Definition sampled (v : bool) (w : CellView) : CellView :=
  mkCellView v (cvLastRaw w) (cvDebounced w) (cvLastChange w) (cvEvents w).

(** The number of cells that are debounced-pressed and whose key action
    satisfies [K]. *)
Definition held_def (K : KeyAction → bool) (g : Grid bool) : Z :=
  Z.of_nat (countCells (λ r c, K (keymapAt r c) && get g r c)).
(* Sealed, so that no proof step unfolds the count by accident. *)
Definition held_aux : seal held_def.
Proof. by eexists. Qed.
Definition held : (KeyAction → bool) → Grid bool → Z := unseal held_aux.
Definition held_unseal : held = held_def := seal_eq held_aux.

(** The key action is a key that holds the modifier [bit]. *)
Definition needs (bit : ModMask) (ka : KeyAction) : bool :=
  valid ka && hasMod (mods ka) bit.

(** The invariant of the program: the arrays have their dimensions, Pressed
    Count counts the mapped cells that are debounced-pressed, the LED is on
    exactly when it is positive, and each modifier counter counts the
    debounced-pressed cells whose key holds that modifier. *)
Definition Inv (s : State) : Prop :=
  wfState s
  ∧ pressedCount s = held valid (debounced s)
  ∧ led s = (0 <? pressedCount s)
  ∧ refCtrl s = held (needs MOD_LCTRL) (debounced s)
  ∧ refAlt s = held (needs MOD_LALT) (debounced s)
  ∧ refShift s = held (needs MOD_LSHIFT) (debounced s).

(** The body of the loop of [releaseHeldKeys]. *)
Definition releaseCell (r c : nat) (s : State) : State :=
  if get (debounced s) r c then
    let s := handleKeyRelease r c s in
    set_debounced (set (debounced s) r c false) s
  else s.

(** The calls lines 303-305 send from state [s]: one deassert for each
    counter that is not zero. *)
Definition forcedCalls (s : State) : list KbCall :=
  (if negb (refCtrl s =? 0) then [KRelease MODIFIERKEY_LEFT_CTRL] else [])
  ++ (if negb (refAlt s =? 0) then [KRelease MODIFIERKEY_LEFT_ALT] else [])
  ++ (if negb (refShift s =? 0) then [KRelease MODIFIERKEY_LEFT_SHIFT] else []).

(** One of the lines 303-305, for the counter read by [rd] and written by
    [wr]. *)
Definition forceLine (rd : State → Z) (wr : Z → State → State) (code : Z)
    (s : State) : State :=
  if negb (rd s =? 0) then wr 0 (kbRelease code s) else s.

(** A scan cycle is given by the time it starts at and the samples it reads. *)
Definition runScans (scans : list (Z * (nat → nat → bool))) (s : State) : State :=
  foldl (λ s sc, keyboardScan sc.1 sc.2 s) s scans.

(** Only the switch at [(r0, c0)] is closed. *)
Definition pinsAt (r0 c0 : nat) : nat → nat → bool :=
  λ r c, (r =? r0)%nat && (c =? c0)%nat.

(** No switch is closed. *)
Definition pinsNone : nat → nat → bool := λ _ _, false.

(** The part of the state the host and the user can observe, and the ledger. *)
Definition outputs (s : State) : list KbCall * (Z * Z * Z) * Z * bool :=
  (sent s, (refCtrl s, refAlt s, refShift s), pressedCount s, led s).

(** Nothing has been sent and no mapped cell has been seen closed. *)
Definition quiet (s : State) : Prop :=
  wfState s ∧ sent s = []
  ∧ ∀ r c, (r < NUM_ROWS)%nat → (c < NUM_COLS)%nat → valid (keymapAt r c) = true →
           get (lastRaw s) r c = false ∧ get (debounced s) r c = false.

(** The samples show closed switches at empty positions only. *)
Definition onlyEmpty (pins : nat → nat → bool) : Prop :=
  ∀ r c, pins r c = true → valid (keymapAt r c) = false.

(** The call presses or releases a modifier key. *)
Definition modifierCall (k : KbCall) : bool :=
  match k with
  | KPress code | KRelease code => isModifierKey code
  | KReleaseAll => false
  end.

(** One cell through a run of scan cycles. *)
Definition cellRun (r c : nat) (scans : list (Z * (nat → nat → bool)))
    (w : CellView) : CellView :=
  foldl (λ w sc, cellNext sc.1 r c (sampled (sc.2 r c) w)) w scans.

(** The raw value of the cell keeps changing before the debounce interval
    has elapsed since its last change: [v0] is the last value seen so far
    and [t0] the time it was first seen at. *)
Fixpoint neverStable (r c : nat) (v0 : bool) (t0 : Z)
    (scans : list (Z * (nat → nat → bool))) : Prop :=
  match scans with
  | [] => True
  | (now, pins) :: rest =>
      if eqb (pins r c) v0
      then wrap32 (now - t0) < DEBOUNCE_MS ∧ neverStable r c v0 t0 rest
      else neverStable r c (pins r c) now rest
  end.

(** A call of one of the two operations of the modifier ledger. *)
Inductive LedgerOp : Type :=
  | Hold (m : ModMask)      (* pressModifiers(m) *)
  | Unhold (m : ModMask).   (* releaseModifiers(m) *)

Definition ledgerStep (s : State) (op : LedgerOp) : State :=
  match op with
  | Hold m => pressModifiers m s
  | Unhold m => releaseModifiers m s
  end.

Definition ledgerRun (ops : list LedgerOp) (s : State) : State :=
  foldl ledgerStep s ops.

(** How often the call [k] occurs in [l]. *)
Definition countCall (k : KbCall) (l : list KbCall) : nat :=
  length (List.filter (λ x, bool_decide (x = k)) l).

(** How often the counter read by [rd] goes from [a] to [b] in one step of
    the run of [ops] from [s]. *)
Fixpoint transitions (rd : State → Z) (a b : Z) (ops : list LedgerOp)
    (s : State) : nat :=
  match ops with
  | [] => 0
  | op :: rest =>
      Nat.add (b2n ((rd s =? a) && (rd (ledgerStep s op) =? b)))
              (transitions rd a b rest (ledgerStep s op))
  end.

(** The call asserts (presses) / deasserts (releases) a modifier key. *)
Definition isAssert (k : KbCall) : bool :=
  match k with KPress code => isModifierKey code | _ => false end.

Definition isDeassert (k : KbCall) : bool :=
  match k with KRelease code => isModifierKey code | _ => false end.

(** The call that undoes a press. *)
Definition undo (k : KbCall) : KbCall :=
  match k with KPress code => KRelease code | _ => k end.

(** The key action is a chord: a base key with modifiers. *)
Definition isChord (ka : KeyAction) : bool :=
  valid ka && negb (modifierOnly ka) && negb (mods ka =? MOD_NONE).

(** The dispatch of one transition event. *)
Definition handle (s : State) (e : Event) : State :=
  match e with
  | Pressed r c => handleKeyPress r c s
  | Released r c => handleKeyRelease r c s
  end.

(** ** Vocabulary of the further properties *)

(** Whether the key [code] is down after the calls [l]: the last call of
    [l] that concerns it (a press or a release of [code], or a release-all)
    is a press. *)
Definition hostStep (code : Z) (down : bool) (k : KbCall) : bool :=
  match k with
  | KPress c => if c =? code then true else down
  | KRelease c => if c =? code then false else down
  | KReleaseAll => false
  end.

Definition isDown (code : Z) (l : list KbCall) : bool :=
  foldl (hostStep code) false l.

(** The calls leave each modifier key down exactly when its counter is
    positive. *)
Definition hostAgrees (s : State) : Prop :=
  isDown MODIFIERKEY_LEFT_CTRL (sent s) = (0 <? refCtrl s)
  ∧ isDown MODIFIERKEY_LEFT_ALT (sent s) = (0 <? refAlt s)
  ∧ isDown MODIFIERKEY_LEFT_SHIFT (sent s) = (0 <? refShift s).

(** Press and release events in strict alternation, starting with a press:
    [Some b] when the events alternate so far, [b] telling whether the last
    one was a press. *)
Definition pairStep (st : option bool) (e : Event) : option bool :=
  match st, e with
  | Some false, Pressed _ _ => Some true
  | Some true, Released _ _ => Some false
  | _, _ => None
  end.

Definition pairing (l : list Event) : option bool :=
  foldl pairStep (Some false) l.

(** Some debounced-pressed key of the matrix is mapped to an action that
    uses the modifier [bit]. *)
Definition heldNeeding (bit : ModMask) (s : State) : Prop :=
  ∃ r c, (r < NUM_ROWS)%nat ∧ (c < NUM_COLS)%nat
         ∧ get (debounced s) r c = true ∧ needs bit (keymapAt r c) = true.

(** The commit check for the cell [(r, c)] in a scan cycle at time [now]
    with the samples [pins], read off the state the cycle starts in: the
    sample differs from the debounced value and has not changed for the
    debounce interval (a sample that differs from the last one restarts the
    interval at [now]). *)
Definition cellFires (now : Z) (pins : nat → nat → bool) (s : State) (r c : nat) : bool :=
  let edge := negb (eqb (pins r c) (get (lastRaw s) r c)) in
  let timer := if edge then now else get (lastChange s) r c in
  negb (eqb (get (debounced s) r c) (pins r c))
  && (DEBOUNCE_MS <=? wrap32 (now - timer)).

(** The events of the cells of [l] that fire, in the order of [l]. *)
Definition firedEvents (now : Z) (pins : nat → nat → bool) (s : State)
    (l : list (nat * nat)) : list Event :=
  flat_map (λ rc, if cellFires now pins s rc.1 rc.2
                  then [eventFor rc.1 rc.2 (pins rc.1 rc.2)] else []) l.

(** Some debounced-pressed cell of the grid [g] is mapped to an action with
    the base key [k]. *)
Definition heldWithBase (k : Z) (g : Grid bool) : Prop :=
  ∃ r c, (r < NUM_ROWS)%nat ∧ (c < NUM_COLS)%nat ∧ get g r c = true
         ∧ valid (keymapAt r c) = true ∧ modifierOnly (keymapAt r c) = false
         ∧ baseKey (keymapAt r c) = k.

(** The key [k] is none of the three modifier keys of the ledger. *)
Definition notLedgerKey (k : Z) : Prop :=
  k ≠ MODIFIERKEY_LEFT_CTRL ∧ k ≠ MODIFIERKEY_LEFT_ALT ∧ k ≠ MODIFIERKEY_LEFT_SHIFT.

(** No key other than the modifiers of the ledger is down without a
    debounced-pressed cell that is mapped to it. *)
Definition noStuckKey (s : State) : Prop :=
  ∀ k, notLedgerKey k → isDown k (sent s) = true → heldWithBase k (debounced s).

(** The modifiers of the mask [m] are down after the calls [l]. *)
Definition modsDown (m : ModMask) (l : list KbCall) : Prop :=
  (hasMod m MOD_LCTRL = true → isDown MODIFIERKEY_LEFT_CTRL l = true)
  ∧ (hasMod m MOD_LALT = true → isDown MODIFIERKEY_LEFT_ALT l = true)
  ∧ (hasMod m MOD_LSHIFT = true → isDown MODIFIERKEY_LEFT_SHIFT l = true).

(** The three counters of the ledger. *)
Definition ledger (s : State) : Z * Z * Z := (refCtrl s, refAlt s, refShift s).

(** The modifiers the handlers of the cell [(r, c)] pass to the ledger:
    those of its key action, none for an empty cell. *)
Definition cellMods (r c : nat) : ModMask :=
  if valid (keymapAt r c) then mods (keymapAt r c) else MOD_NONE.

(** The call a handler of the cell [(r, c)] makes on the keyboard object
    itself: the press or the release of the base key, for a cell that has
    one. *)
Definition baseCall (press : bool) (r c : nat) : list KbCall :=
  if valid (keymapAt r c) && negb (modifierOnly (keymapAt r c))
  then [if press then KPress (baseKey (keymapAt r c))
        else KRelease (baseKey (keymapAt r c))]
  else [].

(** The asserts, and the deasserts, of all modifiers of the mask [m], in the
    order of the ledger. *)
Definition assertsOf (m : ModMask) : list KbCall :=
  (if hasMod m MOD_LCTRL then [KPress MODIFIERKEY_LEFT_CTRL] else [])
  ++ (if hasMod m MOD_LALT then [KPress MODIFIERKEY_LEFT_ALT] else [])
  ++ (if hasMod m MOD_LSHIFT then [KPress MODIFIERKEY_LEFT_SHIFT] else []).

Definition deassertsOf (m : ModMask) : list KbCall :=
  (if hasMod m MOD_LCTRL then [KRelease MODIFIERKEY_LEFT_CTRL] else [])
  ++ (if hasMod m MOD_LALT then [KRelease MODIFIERKEY_LEFT_ALT] else [])
  ++ (if hasMod m MOD_LSHIFT then [KRelease MODIFIERKEY_LEFT_SHIFT] else []).

(** No key holds a modifier of the mask [m]: their counters are zero. *)
Definition unheld (m : ModMask) (s : State) : Prop :=
  (hasMod m MOD_LCTRL = true → refCtrl s = 0)
  ∧ (hasMod m MOD_LALT = true → refAlt s = 0)
  ∧ (hasMod m MOD_LSHIFT = true → refShift s = 0).

(** The asserts of the modifiers of the mask [m] that the calls [l] do not
    leave down. *)
Definition assertsDue (m : ModMask) (l : list KbCall) : list KbCall :=
  (if hasMod m MOD_LCTRL && negb (isDown MODIFIERKEY_LEFT_CTRL l)
   then [KPress MODIFIERKEY_LEFT_CTRL] else [])
  ++ (if hasMod m MOD_LALT && negb (isDown MODIFIERKEY_LEFT_ALT l)
      then [KPress MODIFIERKEY_LEFT_ALT] else [])
  ++ (if hasMod m MOD_LSHIFT && negb (isDown MODIFIERKEY_LEFT_SHIFT l)
      then [KPress MODIFIERKEY_LEFT_SHIFT] else []).

(** The release events of the cells that are debounced-pressed, in the
    order the loop of [keyboardReleaseAll] visits them. *)
Definition heldReleases (s : State) : list Event :=
  flat_map (λ rc, if get (debounced s) rc.1 rc.2 then [Released rc.1 rc.2] else [])
           cells.

(** The calls [l] read along the handler invocations [E], oldest first.
    The invocation of the press handler for a cell accounts for the asserts
    of those modifiers of that cell that are not down yet, followed by the
    press of the base key of that cell (if it has one); the invocation of
    the release handler for the release of the base key of the cell,
    followed by deasserts of modifiers of that cell; and nothing but a
    release-all comes without an invocation. *)
Inductive explained : list Event → list KbCall → Prop :=
  | explained_nil : explained [] []
  | explained_press E l r c :
      explained E l →
      explained (E ++ [Pressed r c])
                (l ++ assertsDue (cellMods r c) l ++ baseCall true r c)
  | explained_release E l r c D :
      explained E l →
      Forall (λ k, k ∈ deassertsOf (cellMods r c)) D →
      explained (E ++ [Released r c]) (l ++ baseCall false r c ++ D)
  | explained_releaseAll E l :
      explained E l → explained E (l ++ [KReleaseAll]).

(** Row [r] is the one row that is driven: its pin is an output at level
    LOW and the pins of all other rows are inputs (Hi-Z). *)
Definition rowSelected (r : nat) (ms : gmap nat PinMode) (ls : gmap nat bool) : Prop :=
  ms !! (rowPins !!! r) = Some OUTPUT ∧ ls !! (rowPins !!! r) = Some LOW
  ∧ ∀ r', (r' < NUM_ROWS)%nat → r' ≠ r → ms !! (rowPins !!! r') = Some INPUT.

(** No row is driven. *)
Definition rowsHiZ (ms : gmap nat PinMode) : Prop :=
  ∀ r, (r < NUM_ROWS)%nat → ms !! (rowPins !!! r) = Some INPUT.

(** Every column pin is an input with pull-up. *)
Definition colsPulledUp (ms : gmap nat PinMode) : Prop :=
  ∀ c, (c < NUM_COLS)%nat → ms !! (colPins !!! c) = Some INPUT_PULLUP.

(** [n] scan cycles on the pins. *)
Definition scanPinsTimes (n : nat) (g : Gpio) : Gpio :=
  Nat.iter n keyboardScan_pins g.

(** The matrix position a read samples. *)
Definition readPos (rd : PinRead) : nat * nat := (rdRow rd, rdCol rd).

(** A read of a scan cycle that starts with the pin modes [ms0]: it reads
    the pin of its column while its row, and no other, is driven, and the
    modes of the pins that are not row pins are those of [ms0]. *)
Definition goodRead (ms0 : gmap nat PinMode) (rd : PinRead) : Prop :=
  rdPin rd = colPins !!! rdCol rd
  ∧ rowSelected (rdRow rd) (rdModes rd) (rdLevels rd)
  ∧ ∀ p, p ∉ rowPins → rdModes rd !! p = ms0 !! p.

(** The configuration between scan cycles: columns pulled up, rows Hi-Z,
    the LED pin an output. *)
Definition pinsReady (g : Gpio) : Prop :=
  colsPulledUp (modes g) ∧ rowsHiZ (modes g) ∧ modes g !! LED_PIN = Some OUTPUT.

(** A read of a pulled-up column pin while its row, and no other, is
    driven. *)
Definition soundRead (rd : PinRead) : Prop :=
  rdPin rd = colPins !!! rdCol rd
  ∧ rdModes rd !! rdPin rd = Some INPUT_PULLUP
  ∧ rowSelected (rdRow rd) (rdModes rd) (rdLevels rd).

(** ** Vocabulary of the serial commands *)

(** Text without NUL characters. *)
Definition isText (l : list ascii) : Prop := Forall (λ c, c ≠ "000"%char) l.

(** No line end among the characters. *)
Definition oneLine (l : list ascii) : Prop := Forall (λ c, isLineEnd c = false) l.

(** Blank characters that do not end a line. *)
Definition blanks (l : list ascii) : Prop :=
  Forall (λ c, isspace c = true ∧ isLineEnd c = false) l.

(** What the end of a line does with the line [line] read so far: the
    trimmed line is processed as a command unless it is empty, and the next
    line starts empty. *)
Definition endOfLine (line : list ascii) (s : Serial) : Serial :=
  let cmd := trim line in
  match cmd with
  | [] => set_commandBuffer [] s
  | _ => processSerialCommand cmd (set_commandBuffer [] s)
  end.

(** The program as a reader of characters: what one character does, until
    a restart is requested. *)
Definition serialStep (s : Serial) (c : ascii) : Serial :=
  match reboot s with
  | Some _ => s
  | None =>
      if isLineEnd c then endOfLine (commandBuffer s) s
      else set_commandBuffer (commandBuffer s ++ [c]) s
  end.

(** The main loop on the serial side: [checkSerialForReboot] is called
    again and again, at most [fuel] times, until the input is read or a
    restart is requested. *)
Fixpoint pollSerial (fuel : nat) (rx : list ascii) (s : Serial) : Serial :=
  match fuel with
  | O => s
  | S fuel =>
      match reboot s, rx with
      | Some _, _ => s
      | None, [] => s
      | None, _ :: _ =>
          let '(rx', s') := checkSerialForReboot rx s in
          pollSerial fuel rx' s'
      end
  end.

(** The text [a] occurs in the text [l]. *)
Definition occursIn (a l : list ascii) : Prop := ∃ k1 k2, l = k1 ++ a ++ k2.

(** The text contains none of the two restart commands. *)
Definition noRestartCommand (l : list ascii) : Prop :=
  ¬ occursIn (str "REBOOT_BOOTLOADER") l ∧ ¬ occursIn (str "REBOOT_NORMAL") l.

(** * Verification *)

(** ** Arrays *)

Section grid.
Context {T : Type} `{!Inhabited T}.
Implicit Types g : Grid T.

Lemma wfGrid_row g r :
  wfGrid g → (r < NUM_ROWS)%nat → length (g !!! r) = NUM_COLS.
Proof.
  intros [Hlen Hrows] Hr.
  rewrite Forall_lookup in Hrows.
  apply (Hrows r). apply list_lookup_lookup_total_lt. lia.
Qed.

Lemma get_set_eq g r c v :
  wfGrid g → (r < NUM_ROWS)%nat → (c < NUM_COLS)%nat →
  get (set g r c v) r c = v.
Proof.
  intros Hwf Hr Hc. unfold get, set.
  rewrite list_lookup_total_insert_eq by (destruct Hwf; lia).
  apply list_lookup_total_insert_eq.
  rewrite (wfGrid_row g r) by done. done.
Qed.

Lemma get_set_ne g r c v r' c' :
  (r, c) ≠ (r', c') → get (set g r c v) r' c' = get g r' c'.
Proof.
  intros Hne. unfold get, set.
  destruct (decide (r = r')) as [<-|Hr].
  - destruct (decide (r < length g)%nat) as [Hlt|Hge].
    + rewrite list_lookup_total_insert_eq by done.
      apply list_lookup_total_insert_ne. congruence.
    + rewrite list_insert_ge by lia. done.
  - by rewrite list_lookup_total_insert_ne.
Qed.

Lemma wfGrid_set g r c v : wfGrid g → wfGrid (set g r c v).
Proof.
  intros [Hlen Hrows]. unfold set. split.
  - by rewrite length_insert.
  - destruct (decide (r < length g)%nat) as [Hlt|Hge].
    + apply Forall_insert; [done|].
      rewrite length_insert. apply (wfGrid_row g r); [by split | lia].
    + by rewrite list_insert_ge by lia.
Qed.
End grid.

(** ** The cells of the matrix, in the order the loops visit them *)

Lemma foldl_list_prod {S} (f : nat → nat → S → S) (lr lc : list nat) (s : S) :
  foldl (λ s r, foldl (λ s c, f r c s) s lc) s lr
  = foldl (λ s rc, f rc.1 rc.2 s) s (list_prod lr lc).
Proof.
  revert s. induction lr as [|r lr IH]; intros s; [done|].
  cbn [list_prod foldl]. rewrite foldl_app, <- IH. f_equal.
  change (map (λ y : nat, (r, y)) lc) with ((λ y : nat, (r, y)) <$> lc).
  by rewrite foldl_fmap.
Qed.

Lemma forCells_cells body s :
  forCells body s = foldl (λ s rc, body rc.1 rc.2 s) s cells.
Proof. apply foldl_list_prod. Qed.

Lemma elem_of_cells r c :
  (r, c) ∈ cells ↔ (r < NUM_ROWS)%nat ∧ (c < NUM_COLS)%nat.
Proof.
  unfold cells. rewrite list_elem_of_In, in_prod_iff, !in_seq. lia.
Qed.

Lemma NoDup_cells : NoDup cells.
Proof. refine (bool_decide_unpack _ _). by vm_compute. Qed.

Lemma length_cells : length cells = 140%nat.
Proof. reflexivity. Qed.

(** A property kept by every iteration holds after the loop. *)
Lemma foldl_preserves {S X} (P : S → Prop) (f : S → X → S) (l : list X) (s : S) :
  P s → (∀ x s, x ∈ l → P s → P (f s x)) → P (foldl f s l).
Proof.
  revert s. induction l as [|x l IH]; intros s Hs Hstep; [done|].
  cbn. apply IH.
  - apply Hstep; [left | done].
  - intros y s' Hy. apply Hstep. by right.
Qed.

Lemma forCells_preserves (P : State → Prop) body s :
  P s →
  (∀ r c s, (r < NUM_ROWS)%nat → (c < NUM_COLS)%nat → P s → P (body r c s)) →
  P (forCells body s).
Proof.
  intros Hs Hstep. rewrite forCells_cells.
  apply foldl_preserves; [done|].
  intros [r c] s' Hin%elem_of_cells. apply Hstep; tauto.
Qed.

(** What a loop does to one cell [x]: the iterations for the other cells
    leave the observation [obs] of [x] alone, so the loop changes it the way
    the one iteration for [x] does. *)
Lemma foldl_one_cell {S X O} `{!EqDecision X} (P : S → Prop) (obs : S → O)
    (F : O → O) (f : S → X → S) (x : X) (l : list X) (s : S) :
  NoDup l → x ∈ l → P s →
  (∀ y s, P s → P (f s y)) →
  (∀ y s, y ≠ x → P s → obs (f s y) = obs s) →
  (∀ s, P s → obs (f s x) = F (obs s)) →
  obs (foldl f s l) = F (obs s).
Proof.
  intros Hnd Hin Hs HP Hother Hthis.
  assert (Hskip : ∀ k s, x ∉ k → P s → obs (foldl f s k) = obs s).
  { induction k as [|y k IH]; intros s' Hnin Hs'; [done|].
    cbn. rewrite IH.
    - apply Hother; [|done]. intros ->. apply Hnin. left.
    - intros Hk. apply Hnin. by right.
    - by apply HP. }
  revert s Hs. induction l as [|y l IH]; intros s Hs.
  - by apply elem_of_nil in Hin.
  - apply NoDup_cons in Hnd as [Hy Hnd]. cbn.
    destruct (decide (y = x)) as [->|Hne].
    + rewrite Hskip by (done || by apply HP). by apply Hthis.
    + rewrite IH; [by rewrite Hother | done | | by apply HP].
      apply elem_of_cons in Hin as [?|?]; [congruence | done].
Qed.

(** ** Counting cells *)

Lemma count_filter_update {X} (P Q : X → bool) (x : X) (l : list X) :
  NoDup l → x ∈ l → (∀ y, y ∈ l → y ≠ x → P y = Q y) →
  (length (List.filter Q l) + b2n (P x) = length (List.filter P l) + b2n (Q x))%nat.
Proof.
  assert (Hsame : ∀ k, (∀ y, y ∈ k → P y = Q y) → List.filter Q k = List.filter P k).
  { induction k as [|y k IH]; intros Hk; [done|].
    cbn. rewrite (Hk y) by left. rewrite IH; [done|].
    intros z Hz. apply Hk. by right. }
  induction l as [|y l IH]; intros Hnd Hin Hagree.
  - by apply elem_of_nil in Hin.
  - apply NoDup_cons in Hnd as [Hy Hnd]. cbn [List.filter].
    apply elem_of_cons in Hin as [->|Hin].
    + rewrite (Hsame l).
      * destruct (P y), (Q y); cbn; lia.
      * intros z Hz. apply Hagree; [by right|]. intros ->. done.
    + assert (y ≠ x) by (intros ->; done).
      rewrite <- (Hagree y) by (done || left).
      assert (IH' := IH Hnd Hin (λ z Hz, Hagree z (list_elem_of_further _ _ _ Hz))).
      destruct (P y); cbn [length]; lia.
Qed.

Lemma countCells_update (P Q : nat → nat → bool) r c :
  (r < NUM_ROWS)%nat → (c < NUM_COLS)%nat →
  (∀ r' c', (r', c') ≠ (r, c) → P r' c' = Q r' c') →
  (countCells Q + b2n (P r c) = countCells P + b2n (Q r c))%nat.
Proof.
  intros Hr Hc Hagree. unfold countCells.
  apply (count_filter_update (λ rc, P rc.1 rc.2) (λ rc, Q rc.1 rc.2) (r, c)).
  - apply NoDup_cells.
  - by apply elem_of_cells.
  - intros [r' c'] _ Hne. by apply Hagree.
Qed.

Lemma countCells_le P : (countCells P ≤ 140)%nat.
Proof.
  unfold countCells. rewrite <- length_cells. apply List.filter_length_le.
Qed.

Lemma countCells_none P :
  (∀ r c, (r < NUM_ROWS)%nat → (c < NUM_COLS)%nat → P r c = false) →
  countCells P = 0%nat.
Proof.
  intros HP. unfold countCells.
  assert (H : ∀ rc, rc ∈ cells → P rc.1 rc.2 = false).
  { intros [r c] Hin%elem_of_cells. apply HP; tauto. }
  induction cells as [|rc k IH]; [done|].
  cbn. rewrite H by left. apply IH. intros y Hy. apply H. by right.
Qed.

(** ** What the helpers and the handlers do to the state *)

Ltac fields :=
  cbn [rawState lastRaw debounced lastChange refCtrl refAlt refShift
       pressedCount led sent events
       kbPress kbRelease kbReleaseAll logEvent
       set_rawState set_lastRaw set_debounced set_lastChange set_refCtrl
       set_refAlt set_refShift set_pressedCount set_led set_sent set_events].

Ltac unfold_setters :=
  cbv [kbPress kbRelease kbReleaseAll logEvent
       set_rawState set_lastRaw set_debounced set_lastChange set_refCtrl
       set_refAlt set_refShift set_pressedCount set_led set_sent set_events];
  fields.

Lemma pressModifiers_lines m s :
  pressModifiers m s =
  pressLine refShift set_refShift MOD_LSHIFT MODIFIERKEY_LEFT_SHIFT m
    (pressLine refAlt set_refAlt MOD_LALT MODIFIERKEY_LEFT_ALT m
       (pressLine refCtrl set_refCtrl MOD_LCTRL MODIFIERKEY_LEFT_CTRL m s)).
Proof. reflexivity. Qed.

Lemma releaseModifiers_lines m s :
  releaseModifiers m s =
  releaseLine refShift set_refShift MOD_LSHIFT MODIFIERKEY_LEFT_SHIFT m
    (releaseLine refAlt set_refAlt MOD_LALT MODIFIERKEY_LEFT_ALT m
       (releaseLine refCtrl set_refCtrl MOD_LCTRL MODIFIERKEY_LEFT_CTRL m s)).
Proof. reflexivity. Qed.

Ltac line_cases :=
  intros; unfold pressLine, releaseLine, incr16, decr16;
  repeat (fields; cbn [andb];
          match goal with
          | |- context [if ?b then _ else _] => destruct b
          end);
  fields; cbn [andb]; rewrite ?app_nil_r; try reflexivity.

Lemma pressLine_ctrl m s :
  pressLine refCtrl set_refCtrl MOD_LCTRL MODIFIERKEY_LEFT_CTRL m s =
  mkState (rawState s) (lastRaw s) (debounced s) (lastChange s)
          (incr16 (hasMod m MOD_LCTRL) (refCtrl s)) (refAlt s) (refShift s)
          (pressedCount s) (led s)
          (sent s ++ if hasMod m MOD_LCTRL && (refCtrl s =? 0)
                     then [KPress MODIFIERKEY_LEFT_CTRL] else [])
          (events s).
Proof. destruct s. line_cases. Qed.

Lemma pressLine_alt m s :
  pressLine refAlt set_refAlt MOD_LALT MODIFIERKEY_LEFT_ALT m s =
  mkState (rawState s) (lastRaw s) (debounced s) (lastChange s)
          (refCtrl s) (incr16 (hasMod m MOD_LALT) (refAlt s)) (refShift s)
          (pressedCount s) (led s)
          (sent s ++ if hasMod m MOD_LALT && (refAlt s =? 0)
                     then [KPress MODIFIERKEY_LEFT_ALT] else [])
          (events s).
Proof. destruct s. line_cases. Qed.

Lemma pressLine_shift m s :
  pressLine refShift set_refShift MOD_LSHIFT MODIFIERKEY_LEFT_SHIFT m s =
  mkState (rawState s) (lastRaw s) (debounced s) (lastChange s)
          (refCtrl s) (refAlt s) (incr16 (hasMod m MOD_LSHIFT) (refShift s))
          (pressedCount s) (led s)
          (sent s ++ if hasMod m MOD_LSHIFT && (refShift s =? 0)
                     then [KPress MODIFIERKEY_LEFT_SHIFT] else [])
          (events s).
Proof. destruct s. line_cases. Qed.

Lemma releaseLine_ctrl m s :
  releaseLine refCtrl set_refCtrl MOD_LCTRL MODIFIERKEY_LEFT_CTRL m s =
  mkState (rawState s) (lastRaw s) (debounced s) (lastChange s)
          (decr16 (hasMod m MOD_LCTRL) (refCtrl s)) (refAlt s) (refShift s)
          (pressedCount s) (led s)
          (sent s ++ if hasMod m MOD_LCTRL && (0 <? refCtrl s)
                        && (wrap16 (refCtrl s - 1) =? 0)
                     then [KRelease MODIFIERKEY_LEFT_CTRL] else [])
          (events s).
Proof. destruct s. line_cases. Qed.

Lemma releaseLine_alt m s :
  releaseLine refAlt set_refAlt MOD_LALT MODIFIERKEY_LEFT_ALT m s =
  mkState (rawState s) (lastRaw s) (debounced s) (lastChange s)
          (refCtrl s) (decr16 (hasMod m MOD_LALT) (refAlt s)) (refShift s)
          (pressedCount s) (led s)
          (sent s ++ if hasMod m MOD_LALT && (0 <? refAlt s)
                        && (wrap16 (refAlt s - 1) =? 0)
                     then [KRelease MODIFIERKEY_LEFT_ALT] else [])
          (events s).
Proof. destruct s. line_cases. Qed.

Lemma releaseLine_shift m s :
  releaseLine refShift set_refShift MOD_LSHIFT MODIFIERKEY_LEFT_SHIFT m s =
  mkState (rawState s) (lastRaw s) (debounced s) (lastChange s)
          (refCtrl s) (refAlt s) (decr16 (hasMod m MOD_LSHIFT) (refShift s))
          (pressedCount s) (led s)
          (sent s ++ if hasMod m MOD_LSHIFT && (0 <? refShift s)
                        && (wrap16 (refShift s - 1) =? 0)
                     then [KRelease MODIFIERKEY_LEFT_SHIFT] else [])
          (events s).
Proof. destruct s. line_cases. Qed.

Lemma pressModifiers_eq m s :
  pressModifiers m s =
  mkState (rawState s) (lastRaw s) (debounced s) (lastChange s)
          (incr16 (hasMod m MOD_LCTRL) (refCtrl s))
          (incr16 (hasMod m MOD_LALT) (refAlt s))
          (incr16 (hasMod m MOD_LSHIFT) (refShift s))
          (pressedCount s) (led s) (sent s ++ pressCalls m s) (events s).
Proof.
  rewrite pressModifiers_lines, pressLine_shift, pressLine_alt, pressLine_ctrl.
  unfold pressCalls. fields. by rewrite <- !app_assoc.
Qed.

Lemma releaseModifiers_eq m s :
  releaseModifiers m s =
  mkState (rawState s) (lastRaw s) (debounced s) (lastChange s)
          (decr16 (hasMod m MOD_LCTRL) (refCtrl s))
          (decr16 (hasMod m MOD_LALT) (refAlt s))
          (decr16 (hasMod m MOD_LSHIFT) (refShift s))
          (pressedCount s) (led s) (sent s ++ releaseCalls m s) (events s).
Proof.
  rewrite releaseModifiers_lines, releaseLine_shift, releaseLine_alt, releaseLine_ctrl.
  unfold releaseCalls. fields. by rewrite <- !app_assoc.
Qed.

Lemma hasMod_none bit : hasMod MOD_NONE bit = false.
Proof. reflexivity. Qed.

Lemma pressModifiers_none s : pressModifiers MOD_NONE s = s.
Proof.
  rewrite pressModifiers_eq. unfold pressCalls, incr16.
  rewrite !hasMod_none. cbn [andb]. rewrite !app_nil_r. by destruct s.
Qed.

Lemma releaseModifiers_none s : releaseModifiers MOD_NONE s = s.
Proof.
  rewrite releaseModifiers_eq. unfold releaseCalls, decr16.
  rewrite !hasMod_none. cbn [andb]. rewrite !app_nil_r. by destruct s.
Qed.

(** The handlers as one state update each. *)
Lemma handleKeyPress_eq r c s :
  let ka := keymapAt r c in
  handleKeyPress r c s =
  if valid ka then
    mkState (rawState s) (lastRaw s) (debounced s) (lastChange s)
            (incr16 (hasMod (mods ka) MOD_LCTRL) (refCtrl s))
            (incr16 (hasMod (mods ka) MOD_LALT) (refAlt s))
            (incr16 (hasMod (mods ka) MOD_LSHIFT) (refShift s))
            (wrap16 (pressedCount s + 1))
            (if wrap16 (pressedCount s + 1) =? 1 then true else led s)
            (sent s ++ pressCalls (mods ka) s
               ++ (if modifierOnly ka then [] else [KPress (baseKey ka)]))
            (events s ++ [Pressed r c])
  else logEvent (Pressed r c) s.
Proof.
  intros ka. unfold handleKeyPress. fold ka.
  destruct (valid ka); cbn [negb]; [|done].
  assert (Hnone : (if negb (mods ka =? MOD_NONE)
                   then pressModifiers (mods ka) (logEvent (Pressed r c) s)
                   else logEvent (Pressed r c) s)
                  = pressModifiers (mods ka) (logEvent (Pressed r c) s)).
  { destruct (mods ka =? MOD_NONE) eqn:E; cbn [negb]; [|done].
    apply Z.eqb_eq in E. rewrite E. by rewrite pressModifiers_none. }
  rewrite Hnone, pressModifiers_eq.
  destruct s as [? ? ? ? ? ? ? pc ? ? ?]. fields.
  unfold pressCalls. fields.
  destruct (modifierOnly ka); fields; destruct (wrap16 (pc + 1) =? 1);
    unfold_setters; rewrite <- ?app_assoc, ?app_nil_r; reflexivity.
Qed.

Lemma handleKeyRelease_eq r c s :
  let ka := keymapAt r c in
  handleKeyRelease r c s =
  if valid ka then
    mkState (rawState s) (lastRaw s) (debounced s) (lastChange s)
            (decr16 (hasMod (mods ka) MOD_LCTRL) (refCtrl s))
            (decr16 (hasMod (mods ka) MOD_LALT) (refAlt s))
            (decr16 (hasMod (mods ka) MOD_LSHIFT) (refShift s))
            (decr16 true (pressedCount s))
            (if (0 <? pressedCount s) && (wrap16 (pressedCount s - 1) =? 0)
             then false else led s)
            (sent s ++ (if modifierOnly ka then [] else [KRelease (baseKey ka)])
               ++ releaseCalls (mods ka) s)
            (events s ++ [Released r c])
  else logEvent (Released r c) s.
Proof.
  intros ka. unfold handleKeyRelease. fold ka.
  destruct (valid ka); cbn [negb]; [|done].
  assert (Hnone : ∀ s', (if negb (mods ka =? MOD_NONE)
                         then releaseModifiers (mods ka) s' else s')
                        = releaseModifiers (mods ka) s').
  { intros s'. destruct (mods ka =? MOD_NONE) eqn:E; cbn [negb]; [|done].
    apply Z.eqb_eq in E. rewrite E. by rewrite releaseModifiers_none. }
  rewrite Hnone, !releaseModifiers_eq.
  destruct s as [? ? ? ? ? ? ? pc ? ? ?]. fields.
  unfold releaseCalls, decr16. fields. cbn [andb].
  destruct (modifierOnly ka); fields; destruct (0 <? pc); fields;
    destruct (wrap16 (pc - 1) =? 0); unfold_setters;
    cbn [andb]; rewrite <- ?app_assoc, ?app_nil_r; reflexivity.
Qed.

(** The handlers leave the four arrays alone and log their invocation. *)
Lemma handleKeyPress_grids r c s :
  rawState (handleKeyPress r c s) = rawState s
  ∧ lastRaw (handleKeyPress r c s) = lastRaw s
  ∧ debounced (handleKeyPress r c s) = debounced s
  ∧ lastChange (handleKeyPress r c s) = lastChange s.
Proof. rewrite handleKeyPress_eq. by destruct (valid _). Qed.

Lemma handleKeyRelease_grids r c s :
  rawState (handleKeyRelease r c s) = rawState s
  ∧ lastRaw (handleKeyRelease r c s) = lastRaw s
  ∧ debounced (handleKeyRelease r c s) = debounced s
  ∧ lastChange (handleKeyRelease r c s) = lastChange s.
Proof. rewrite handleKeyRelease_eq. by destruct (valid _). Qed.

Lemma handleKeyPress_events r c s :
  events (handleKeyPress r c s) = events s ++ [Pressed r c].
Proof. rewrite handleKeyPress_eq. by destruct (valid _). Qed.

Lemma handleKeyRelease_events r c s :
  events (handleKeyRelease r c s) = events s ++ [Released r c].
Proof. rewrite handleKeyRelease_eq. by destruct (valid _). Qed.

(** ** One cell of one scan cycle *)

Lemma dispatch_grids r c v s :
  rawState (dispatch r c v s) = rawState s
  ∧ lastRaw (dispatch r c v s) = lastRaw s
  ∧ debounced (dispatch r c v s) = debounced s
  ∧ lastChange (dispatch r c v s) = lastChange s.
Proof.
  destruct v; [apply handleKeyPress_grids | apply handleKeyRelease_grids].
Qed.

Lemma dispatch_events r c v s :
  events (dispatch r c v s) = events s ++ [eventFor r c v].
Proof.
  destruct v; [apply handleKeyPress_events | apply handleKeyRelease_events].
Qed.

(** [debounceCell] with its two conditionals named. *)
Lemma debounceCell_eq now r c s :
  wfState s → (r < NUM_ROWS)%nat → (c < NUM_COLS)%nat →
  let v := get (rawState s) r c in
  let s1 := if cellEdge s r c
            then set_lastChange (set (lastChange s) r c now)
                   (set_lastRaw (set (lastRaw s) r c v) s)
            else s in
  debounceCell now r c s =
  if cellCommits now s r c
  then dispatch r c v (set_debounced (set (debounced s1) r c v) s1)
  else s1.
Proof.
  intros (Hraw & Hlast & Hdeb & Hchg) Hr Hc v s1.
  unfold debounceCell, cellCommits, cellTimer, dispatch, s1, v, cellEdge.
  cbv zeta.
  destruct (negb (eqb (get (rawState s) r c) (get (lastRaw s) r c))); [|done].
  fields. by rewrite get_set_eq.
Qed.

Lemma debounceCell_wf now r c s : wfState s → wfState (debounceCell now r c s).
Proof.
  intros (Hraw & Hlast & Hdeb & Hchg). unfold debounceCell.
  set (v := get (rawState s) r c).
  set (s1 := if negb (eqb v (get (lastRaw s) r c)) then _ else s).
  assert (Hs1 : wfState s1).
  { unfold s1. destruct (negb _); [|done].
    unfold wfState; fields; split_and!; try done; by apply wfGrid_set. }
  destruct (_ && _); [|done].
  change (if v then handleKeyPress r c ?x else handleKeyRelease r c ?x)
    with (dispatch r c v x).
  destruct Hs1 as (? & ? & ? & ?). unfold wfState.
  destruct (dispatch_grids r c v (set_debounced (set (debounced s1) r c v) s1))
    as (-> & -> & -> & ->).
  fields; split_and!; try done; by apply wfGrid_set.
Qed.

Lemma debounceCell_rawState now r c s :
  rawState (debounceCell now r c s) = rawState s.
Proof.
  unfold debounceCell.
  set (v := get (rawState s) r c).
  set (s1 := if negb (eqb v (get (lastRaw s) r c)) then _ else s).
  assert (Hs1 : rawState s1 = rawState s) by (unfold s1; by destruct (negb _)).
  destruct (_ && _); [|done].
  change (if v then handleKeyPress r c ?x else handleKeyRelease r c ?x)
    with (dispatch r c v x).
  by destruct (dispatch_grids r c v (set_debounced (set (debounced s1) r c v) s1))
    as (-> & _).
Qed.

(** The iteration for a cell logs at most one event, and it is an event of
    that cell. *)
Lemma debounceCell_events_any now r c s :
  ∃ E, events (debounceCell now r c s) = events s ++ E
       ∧ (E = [] ∨ E = [Pressed r c] ∨ E = [Released r c]).
Proof.
  unfold debounceCell.
  set (v := get (rawState s) r c).
  set (s1 := if negb (eqb v (get (lastRaw s) r c)) then _ else s).
  assert (Hs1 : events s1 = events s) by (unfold s1; by destruct (negb _)).
  destruct (_ && _).
  - destruct v.
    + exists [Pressed r c]. rewrite handleKeyPress_events. fields.
      rewrite Hs1. auto.
    + exists [Released r c]. rewrite handleKeyRelease_events. fields.
      rewrite Hs1. auto.
  - exists []. rewrite Hs1, app_nil_r. auto.
Qed.

Lemma eventsAt_app r c l k : eventsAt r c (l ++ k) = eventsAt r c l ++ eventsAt r c k.
Proof. apply List.filter_app. Qed.

Lemma eventsAt_eventFor r c v : eventsAt r c [eventFor r c v] = [eventFor r c v].
Proof.
  unfold eventsAt. destruct v; cbn; by rewrite bool_decide_eq_true_2.
Qed.

Lemma eventsAt_other r c r' c' v :
  (r', c') ≠ (r, c) → eventsAt r c [eventFor r' c' v] = [].
Proof.
  intros Hne. unfold eventsAt. destruct v; cbn; by rewrite bool_decide_eq_false_2.
Qed.

Ltac cv := cbn [cvRaw cvLastRaw cvDebounced cvLastChange cvEvents].
Ltac cv_in H := cbn [cvRaw cvLastRaw cvDebounced cvLastChange cvEvents] in H.

Ltac dispatch_out :=
  match goal with
  | |- context [dispatch ?r ?c ?v ?x] =>
      let H1 := fresh in let H2 := fresh in let H3 := fresh in let H4 := fresh in
      destruct (dispatch_grids r c v x) as (H1 & H2 & H3 & H4);
      rewrite ?H1, ?H2, ?H3, ?H4, ?(dispatch_events r c v x);
      clear H1 H2 H3 H4
  end.

Lemma debounceCell_this now r c s :
  wfState s → (r < NUM_ROWS)%nat → (c < NUM_COLS)%nat →
  cellView r c (debounceCell now r c s) = cellNext now r c (cellView r c s).
Proof.
  intros Hwf Hr Hc. rewrite debounceCell_eq by done.
  destruct Hwf as (Hraw & Hlast & Hdeb & Hchg).
  change (cellNext now r c (cellView r c s))
    with (mkCellView (get (rawState s) r c) (get (rawState s) r c)
            (if cellCommits now s r c
             then get (rawState s) r c else get (debounced s) r c)
            (cellTimer now s r c)
            (eventsAt r c (events s)
               ++ if cellCommits now s r c
                  then [eventFor r c (get (rawState s) r c)] else [])).
  set (v := get (rawState s) r c).
  assert (Hv : cellEdge s r c = false → get (lastRaw s) r c = v).
  { unfold cellEdge. fold v. by destruct v, (get (lastRaw s) r c). }
  unfold cellView, cellTimer.
  destruct (cellCommits now s r c), (cellEdge s r c) eqn:He.
  - dispatch_out. fields.
    rewrite !get_set_eq, eventsAt_app, eventsAt_eventFor by done. done.
  - dispatch_out. fields.
    rewrite !get_set_eq, eventsAt_app, eventsAt_eventFor, Hv by done. done.
  - fields. rewrite !get_set_eq, app_nil_r by done. done.
  - rewrite Hv, app_nil_r by done. done.
Qed.

Lemma debounceCell_other now r c r' c' s :
  (r', c') ≠ (r, c) →
  cellView r c (debounceCell now r' c' s) = cellView r c s.
Proof.
  intros Hne. unfold debounceCell.
  set (v := get (rawState s) r' c').
  set (s1 := if negb (eqb v (get (lastRaw s) r' c')) then _ else s).
  assert (Hs1 : cellView r c s1 = cellView r c s).
  { unfold s1. destruct (negb _); [|done].
    unfold cellView. fields. by rewrite !get_set_ne. }
  destruct (_ && _); [|done].
  change (if v then handleKeyPress r' c' ?x else handleKeyRelease r' c' ?x)
    with (dispatch r' c' v x).
  rewrite <- Hs1. unfold cellView. dispatch_out. fields.
  by rewrite get_set_ne, eventsAt_app, eventsAt_other, app_nil_r.
Qed.

(** ** The sampling pass *)

Lemma sampleRows_frame pins s :
  let s' := sampleRows pins s in
  lastRaw s' = lastRaw s ∧ debounced s' = debounced s ∧ lastChange s' = lastChange s
  ∧ refCtrl s' = refCtrl s ∧ refAlt s' = refAlt s ∧ refShift s' = refShift s
  ∧ pressedCount s' = pressedCount s ∧ led s' = led s
  ∧ sent s' = sent s ∧ events s' = events s.
Proof.
  unfold sampleRows.
  apply (forCells_preserves (λ s', lastRaw s' = lastRaw s ∧ debounced s' = debounced s
    ∧ lastChange s' = lastChange s ∧ refCtrl s' = refCtrl s ∧ refAlt s' = refAlt s
    ∧ refShift s' = refShift s ∧ pressedCount s' = pressedCount s ∧ led s' = led s
    ∧ sent s' = sent s ∧ events s' = events s)); [done|].
  intros r c s' _ _ H. exact H.
Qed.

Lemma sampleRows_wfGrid pins s :
  wfGrid (rawState s) → wfGrid (rawState (sampleRows pins s)).
Proof.
  intros Hwf. unfold sampleRows.
  apply (forCells_preserves (λ s', wfGrid (rawState s'))); [done|].
  intros r c s' _ _ H. fields. by apply wfGrid_set.
Qed.

Lemma sampleRows_get pins s r c :
  wfGrid (rawState s) → (r < NUM_ROWS)%nat → (c < NUM_COLS)%nat →
  get (rawState (sampleRows pins s)) r c = pins r c.
Proof.
  intros Hwf Hr Hc. unfold sampleRows. rewrite forCells_cells.
  apply (foldl_one_cell (λ s', wfGrid (rawState s'))
           (λ s', get (rawState s') r c) (λ _, pins r c)
           (λ s' rc, set_rawState (set (rawState s') rc.1 rc.2 (pins rc.1 rc.2)) s')
           (r, c)).
  - apply NoDup_cells.
  - by apply elem_of_cells.
  - done.
  - intros [r' c'] s' H. fields. by apply wfGrid_set.
  - intros [r' c'] s' Hne H. fields. by apply get_set_ne.
  - intros s' H. fields. by apply get_set_eq.
Qed.

Lemma sampleRows_wf pins s : wfState s → wfState (sampleRows pins s).
Proof.
  intros (Hraw & Hlast & Hdeb & Hchg). unfold wfState.
  destruct (sampleRows_frame pins s) as (-> & -> & -> & _).
  split_and!; try done. by apply sampleRows_wfGrid.
Qed.

(** ** One scan cycle, seen from one cell *)

Lemma keyboardScan_wf now pins s : wfState s → wfState (keyboardScan now pins s).
Proof.
  intros Hwf. unfold keyboardScan.
  apply (forCells_preserves wfState); [by apply sampleRows_wf|].
  intros r c s' _ _. apply debounceCell_wf.
Qed.

Lemma keyboardScan_cell now pins s r c :
  wfState s → (r < NUM_ROWS)%nat → (c < NUM_COLS)%nat →
  cellView r c (keyboardScan now pins s)
  = cellNext now r c (sampled (pins r c) (cellView r c s)).
Proof.
  intros Hwf Hr Hc. unfold keyboardScan. rewrite forCells_cells.
  assert (Hsampled : cellView r c (sampleRows pins s)
                     = sampled (pins r c) (cellView r c s)).
  { unfold cellView, sampled. cbn [cvLastRaw cvDebounced cvLastChange cvEvents].
    destruct (sampleRows_frame pins s)
      as (-> & -> & -> & _ & _ & _ & _ & _ & _ & ->).
    rewrite sampleRows_get; [done | apply Hwf | done | done]. }
  rewrite <- Hsampled.
  apply (foldl_one_cell wfState (cellView r c) (cellNext now r c)
           (λ s' rc, debounceCell now rc.1 rc.2 s') (r, c)).
  - apply NoDup_cells.
  - by apply elem_of_cells.
  - by apply sampleRows_wf.
  - intros [r' c'] s' H. by apply debounceCell_wf.
  - intros [r' c'] s' Hne H. by apply debounceCell_other.
  - intros s' H. by apply debounceCell_this.
Qed.

(** The log only grows. *)
Lemma keyboardScan_events_prefix now pins s :
  ∃ E, events (keyboardScan now pins s) = events s ++ E.
Proof.
  unfold keyboardScan.
  apply (forCells_preserves (λ s', ∃ E, events s' = events s ++ E)).
  - exists []. destruct (sampleRows_frame pins s)
      as (_ & _ & _ & _ & _ & _ & _ & _ & _ & ->).
    by rewrite app_nil_r.
  - intros r c s' _ _ [E HE].
    destruct (debounceCell_events_any now r c s') as (E' & -> & _).
    exists (E ++ E'). by rewrite HE, app_assoc.
Qed.

(** ** The counting invariant *)

Lemma held_count K g :
  held K g = Z.of_nat (countCells (λ r c, K (keymapAt r c) && get g r c)).
Proof. by rewrite held_unseal. Qed.

Lemma held_range K g : 0 ≤ held K g ≤ 140.
Proof.
  rewrite held_unseal. unfold held_def.
  pose proof (countCells_le (λ r c, K (keymapAt r c) && get g r c)). lia.
Qed.

Lemma held_commit K g r c v :
  wfGrid g → (r < NUM_ROWS)%nat → (c < NUM_COLS)%nat → get g r c = negb v →
  held K (set g r c v) =
  held K g + (if K (keymapAt r c) then (if v then 1 else -1) else 0).
Proof.
  intros Hwf Hr Hc Hold. rewrite held_unseal. unfold held_def.
  pose proof (countCells_update
                (λ r' c', K (keymapAt r' c') && get g r' c')
                (λ r' c', K (keymapAt r' c') && get (set g r c v) r' c')
                r c Hr Hc) as Hupd.
  cbv beta in Hupd. rewrite get_set_eq, Hold in Hupd by done.
  specialize (Hupd (λ r' c' Hne, ltac:(by rewrite get_set_ne))).
  destruct (K (keymapAt r c)), v; cbn [andb negb b2n] in Hupd; lia.
Qed.

Lemma held_none K g :
  (∀ r c, (r < NUM_ROWS)%nat → (c < NUM_COLS)%nat → get g r c = false) →
  held K g = 0.
Proof.
  intros Hg. rewrite held_unseal. unfold held_def. rewrite countCells_none; [done|].
  intros r c Hr Hc. rewrite Hg by done. apply andb_false_r.
Qed.

Lemma wrap16_small x : 0 ≤ x < 65536 → wrap16 x = x.
Proof. apply Z.mod_small. Qed.

(** Case analysis on the outermost test of a conditional in the goal. *)
Ltac bool_cases :=
  match goal with
  | |- context [if ?b then _ else _] =>
      lazymatch b with
      | (?x <? ?y) => destruct (Z.ltb_spec x y)
      | (?x =? ?y) => destruct (Z.eqb_spec x y)
      | (?x <=? ?y) => destruct (Z.leb_spec x y)
      | _ => destruct b eqn:?
      end
  end.

Ltac ltb_cases :=
  match goal with
  | |- context [?x <? ?y] => destruct (Z.ltb_spec x y)
  end.

(** A commit keeps the invariant: the cell changes its debounced value and
    the handler moves the counters by as much. *)
Lemma commit_Inv r c v s :
  Inv s → (r < NUM_ROWS)%nat → (c < NUM_COLS)%nat →
  get (debounced s) r c = negb v →
  Inv (dispatch r c v (set_debounced (set (debounced s) r c v) s)).
Proof.
  intros (Hwf & Hpc & Hled & Hc1 & Hc2 & Hc3) Hr Hc Hold.
  destruct Hwf as (Hraw & Hlast & Hdeb & Hchg).
  pose proof (held_commit valid _ r c v Hdeb Hr Hc Hold) as Hv.
  pose proof (held_commit (needs MOD_LCTRL) _ r c v Hdeb Hr Hc Hold) as H1.
  pose proof (held_commit (needs MOD_LALT) _ r c v Hdeb Hr Hc Hold) as H2.
  pose proof (held_commit (needs MOD_LSHIFT) _ r c v Hdeb Hr Hc Hold) as H3.
  pose proof (held_range valid (set (debounced s) r c v)).
  pose proof (held_range (needs MOD_LCTRL) (set (debounced s) r c v)).
  pose proof (held_range (needs MOD_LALT) (set (debounced s) r c v)).
  pose proof (held_range (needs MOD_LSHIFT) (set (debounced s) r c v)).
  pose proof (held_range valid (debounced s)).
  pose proof (held_range (needs MOD_LCTRL) (debounced s)).
  pose proof (held_range (needs MOD_LALT) (debounced s)).
  pose proof (held_range (needs MOD_LSHIFT) (debounced s)).
  unfold Inv, wfState, dispatch. unfold needs in *.
  destruct v; [rewrite handleKeyPress_eq | rewrite handleKeyRelease_eq];
    cbv zeta; destruct (valid (keymapAt r c)); cbn [andb] in *; fields;
    (split_and!; [by apply wfGrid_set || done ..| | | | |]).
  all: unfold incr16, decr16; cbn [andb];
    rewrite ?Hv, ?H1, ?H2, ?H3, ?Hled, ?Hpc, ?Hc1, ?Hc2, ?Hc3;
    repeat (rewrite ?wrap16_small by lia; cbn [andb]; bool_cases);
    rewrite ?wrap16_small by lia; repeat ltb_cases;
    first [reflexivity | lia].
Qed.

(** ** Full release *)

Lemma releaseHeldKeys_cells s : releaseHeldKeys s = forCells releaseCell s.
Proof. reflexivity. Qed.

(** The release handler neither reads nor writes the debounced array, so the
    body of the loop is a commit to [false]. *)
Lemma releaseCell_eq r c s :
  releaseCell r c s =
  if get (debounced s) r c
  then dispatch r c false (set_debounced (set (debounced s) r c false) s)
  else s.
Proof.
  unfold releaseCell, dispatch. destruct (get (debounced s) r c); [|done].
  cbv zeta. rewrite !handleKeyRelease_eq. cbv zeta.
  by destruct (valid (keymapAt r c)).
Qed.

Lemma releaseCell_wf r c s : wfState s → wfState (releaseCell r c s).
Proof.
  intros (Hraw & Hlast & Hdeb & Hchg). rewrite releaseCell_eq.
  destruct (get (debounced s) r c); [|done].
  unfold wfState. dispatch_out. fields. split_and!; try done. by apply wfGrid_set.
Qed.

Lemma releaseCell_Inv r c s :
  Inv s → (r < NUM_ROWS)%nat → (c < NUM_COLS)%nat → Inv (releaseCell r c s).
Proof.
  intros HI Hr Hc. rewrite releaseCell_eq.
  destruct (get (debounced s) r c) eqn:E; [|done].
  by apply commit_Inv.
Qed.

Lemma releaseCell_debounced_this r c s :
  wfState s → (r < NUM_ROWS)%nat → (c < NUM_COLS)%nat →
  get (debounced (releaseCell r c s)) r c = false.
Proof.
  intros (Hraw & Hlast & Hdeb & Hchg) Hr Hc. rewrite releaseCell_eq.
  destruct (get (debounced s) r c) eqn:E; [|done].
  dispatch_out. fields. by apply get_set_eq.
Qed.

Lemma releaseCell_debounced_other r c r' c' s :
  (r', c') ≠ (r, c) →
  get (debounced (releaseCell r' c' s)) r c = get (debounced s) r c.
Proof.
  intros Hne. rewrite releaseCell_eq.
  destruct (get (debounced s) r' c'); [|done].
  dispatch_out. fields. by apply get_set_ne.
Qed.

Lemma releaseCell_frame r c s :
  rawState (releaseCell r c s) = rawState s
  ∧ lastRaw (releaseCell r c s) = lastRaw s
  ∧ lastChange (releaseCell r c s) = lastChange s.
Proof.
  rewrite releaseCell_eq. destruct (get (debounced s) r c); [|done].
  by dispatch_out.
Qed.

Lemma releaseHeldKeys_wf s : wfState s → wfState (releaseHeldKeys s).
Proof.
  intros Hwf. apply (forCells_preserves wfState); [done|].
  intros r c s' _ _. apply releaseCell_wf.
Qed.

Lemma releaseHeldKeys_Inv s : Inv s → Inv (releaseHeldKeys s).
Proof.
  intros HI. apply (forCells_preserves Inv); [done|].
  intros r c s' Hr Hc H. by apply releaseCell_Inv.
Qed.

Lemma releaseHeldKeys_frame s :
  rawState (releaseHeldKeys s) = rawState s
  ∧ lastRaw (releaseHeldKeys s) = lastRaw s
  ∧ lastChange (releaseHeldKeys s) = lastChange s.
Proof.
  rewrite releaseHeldKeys_cells.
  apply (forCells_preserves (λ s', rawState s' = rawState s
    ∧ lastRaw s' = lastRaw s ∧ lastChange s' = lastChange s)); [done|].
  intros r c s' _ _ (H1 & H2 & H3). cbv beta.
  destruct (releaseCell_frame r c s') as (-> & -> & ->). done.
Qed.

(** After the loop no cell is debounced-pressed. *)
Lemma releaseHeldKeys_clears s r c :
  wfState s → (r < NUM_ROWS)%nat → (c < NUM_COLS)%nat →
  get (debounced (releaseHeldKeys s)) r c = false.
Proof.
  intros Hwf Hr Hc. rewrite releaseHeldKeys_cells, forCells_cells.
  apply (foldl_one_cell wfState (λ s', get (debounced s') r c) (λ _, false)
           (λ s' rc, releaseCell rc.1 rc.2 s') (r, c)).
  - apply NoDup_cells.
  - by apply elem_of_cells.
  - done.
  - intros [r' c'] s' H. by apply releaseCell_wf.
  - intros [r' c'] s' Hne H. by apply releaseCell_debounced_other.
  - intros s' H. by apply releaseCell_debounced_this.
Qed.

(** With no cell debounced-pressed the loop does nothing. *)
Lemma releaseHeldKeys_idle s :
  (∀ r c, (r < NUM_ROWS)%nat → (c < NUM_COLS)%nat → get (debounced s) r c = false) →
  releaseHeldKeys s = s.
Proof.
  intros Hidle. apply (forCells_preserves (λ s', s' = s)); [done|].
  intros r c s' Hr Hc ->. unfold releaseCell. by rewrite Hidle.
Qed.

Lemma forceModifiersReleased_lines s :
  forceModifiersReleased s =
  forceLine refShift set_refShift MODIFIERKEY_LEFT_SHIFT
    (forceLine refAlt set_refAlt MODIFIERKEY_LEFT_ALT
       (forceLine refCtrl set_refCtrl MODIFIERKEY_LEFT_CTRL s)).
Proof. reflexivity. Qed.

Lemma forceLine_ctrl s :
  forceLine refCtrl set_refCtrl MODIFIERKEY_LEFT_CTRL s =
  mkState (rawState s) (lastRaw s) (debounced s) (lastChange s)
          0 (refAlt s) (refShift s) (pressedCount s) (led s)
          (sent s ++ if negb (refCtrl s =? 0)
                     then [KRelease MODIFIERKEY_LEFT_CTRL] else [])
          (events s).
Proof.
  destruct s as [? ? ? ? rc ra rs ? ? ? ?]. unfold forceLine. fields.
  destruct (Z.eqb_spec rc 0) as [->|E]; cbn [negb]; unfold_setters;
    rewrite ?app_nil_r; reflexivity.
Qed.

Lemma forceLine_alt s :
  forceLine refAlt set_refAlt MODIFIERKEY_LEFT_ALT s =
  mkState (rawState s) (lastRaw s) (debounced s) (lastChange s)
          (refCtrl s) 0 (refShift s) (pressedCount s) (led s)
          (sent s ++ if negb (refAlt s =? 0)
                     then [KRelease MODIFIERKEY_LEFT_ALT] else [])
          (events s).
Proof.
  destruct s as [? ? ? ? rc ra rs ? ? ? ?]. unfold forceLine. fields.
  destruct (Z.eqb_spec ra 0) as [->|E]; cbn [negb]; unfold_setters;
    rewrite ?app_nil_r; reflexivity.
Qed.

Lemma forceLine_shift s :
  forceLine refShift set_refShift MODIFIERKEY_LEFT_SHIFT s =
  mkState (rawState s) (lastRaw s) (debounced s) (lastChange s)
          (refCtrl s) (refAlt s) 0 (pressedCount s) (led s)
          (sent s ++ if negb (refShift s =? 0)
                     then [KRelease MODIFIERKEY_LEFT_SHIFT] else [])
          (events s).
Proof.
  destruct s as [? ? ? ? rc ra rs ? ? ? ?]. unfold forceLine. fields.
  destruct (Z.eqb_spec rs 0) as [->|E]; cbn [negb]; unfold_setters;
    rewrite ?app_nil_r; reflexivity.
Qed.

Lemma forceModifiersReleased_eq s :
  forceModifiersReleased s =
  mkState (rawState s) (lastRaw s) (debounced s) (lastChange s) 0 0 0
          (pressedCount s) (led s) (sent s ++ forcedCalls s) (events s).
Proof.
  rewrite forceModifiersReleased_lines, forceLine_shift, forceLine_alt, forceLine_ctrl.
  unfold forcedCalls. fields. by rewrite <- !app_assoc.
Qed.

Lemma keyboardReleaseAll_eq s :
  keyboardReleaseAll s =
  let s1 := releaseHeldKeys s in
  mkState (rawState s1) (lastRaw s1) (debounced s1) (lastChange s1) 0 0 0 0 false
          (sent s1 ++ forcedCalls s1 ++ [KReleaseAll]) (events s1).
Proof.
  unfold keyboardReleaseAll. cbv zeta. generalize (releaseHeldKeys s). intros s1.
  rewrite forceModifiersReleased_eq. unfold_setters. by rewrite <- app_assoc.
Qed.

Lemma keyboardReleaseAll_wf s : wfState s → wfState (keyboardReleaseAll s).
Proof.
  intros Hwf. rewrite keyboardReleaseAll_eq.
  pose proof (releaseHeldKeys_wf s Hwf) as H. revert H.
  generalize (releaseHeldKeys s). intros s1 (? & ? & ? & ?).
  cbv zeta. unfold wfState. fields. split_and!; assumption.
Qed.

Lemma keyboardReleaseAll_Inv s : Inv s → Inv (keyboardReleaseAll s).
Proof.
  intros HI. pose proof (releaseHeldKeys_Inv s HI) as (Hwf & _).
  assert (Hclear : ∀ r c, (r < NUM_ROWS)%nat → (c < NUM_COLS)%nat →
                          get (debounced (releaseHeldKeys s)) r c = false).
  { intros r c Hr Hc. apply releaseHeldKeys_clears; [apply HI | done | done]. }
  rewrite keyboardReleaseAll_eq. revert Hwf Hclear.
  generalize (releaseHeldKeys s). intros s1 (? & ? & ? & ?) Hclear.
  cbv zeta. unfold Inv, wfState. fields.
  rewrite (held_none valid (debounced s1) Hclear),
    (held_none (needs MOD_LCTRL) (debounced s1) Hclear),
    (held_none (needs MOD_LALT) (debounced s1) Hclear),
    (held_none (needs MOD_LSHIFT) (debounced s1) Hclear).
  split_and!; first [assumption | reflexivity].
Qed.

(** ** Every reachable state satisfies the invariant *)

Lemma debounceCell_Inv now r c s :
  Inv s → (r < NUM_ROWS)%nat → (c < NUM_COLS)%nat → Inv (debounceCell now r c s).
Proof.
  intros HI Hr Hc. rewrite debounceCell_eq by (done || apply HI). cbv zeta.
  set (v := get (rawState s) r c).
  set (s1 := if cellEdge s r c then _ else s).
  assert (H1 : Inv s1).
  { unfold s1. destruct (cellEdge s r c); [|done].
    destruct HI as ((Hraw & Hlast & Hdeb & Hchg) & HI).
    unfold Inv, wfState. fields. split_and!; try apply HI; try done;
      by apply wfGrid_set. }
  assert (Hd : get (debounced s1) r c = get (debounced s) r c).
  { unfold s1. by destruct (cellEdge s r c). }
  destruct (cellCommits now s r c) eqn:E; [|done].
  apply commit_Inv; try done.
  rewrite Hd. unfold cellCommits in E. apply andb_prop in E as [E _].
  fold v in E. by destruct (get (debounced s) r c), v.
Qed.

Lemma keyboardScan_Inv now pins s : Inv s → Inv (keyboardScan now pins s).
Proof.
  intros HI. unfold keyboardScan.
  apply (forCells_preserves Inv).
  - destruct HI as (Hwf & HI). unfold Inv.
    destruct (sampleRows_frame pins s) as (_ & -> & _ & -> & -> & -> & -> & -> & _).
    split; [by apply sampleRows_wf | done].
  - intros r c s' Hr Hc H. by apply debounceCell_Inv.
Qed.

Lemma initial_boot : initial = boot.
Proof. by vm_compute. Qed.

Lemma wfState_boot : wfState boot.
Proof.
  unfold wfState, wfGrid, boot. fields.
  split_and!; first [reflexivity | by apply Forall_replicate].
Qed.

Lemma Inv_initial : Inv initial.
Proof.
  rewrite initial_boot. split; [apply wfState_boot|].
  unfold boot. fields. rewrite !held_none; [done | intros r c Hr Hc ..];
    unfold get; rewrite !lookup_total_replicate_2; done.
Qed.

Lemma reachable_Inv s : reachable s → Inv s.
Proof.
  induction 1 as [|s now pins _ IH|s _ IH].
  - apply Inv_initial.
  - by apply keyboardScan_Inv.
  - by apply keyboardReleaseAll_Inv.
Qed.

(** ** Runs of scan cycles *)

Lemma runScans_cons now pins scans s :
  runScans ((now, pins) :: scans) s = runScans scans (keyboardScan now pins s).
Proof. unfold runScans. cbn [foldl fst snd]. reflexivity. Qed.

Lemma reachable_runScans scans s : reachable s → reachable (runScans scans s).
Proof.
  revert s. induction scans as [|[now pins] scans IH]; intros s Hs; [exact Hs|].
  rewrite runScans_cons. apply IH. exact (reach_scan s now pins Hs).
Qed.

Lemma runScans_wf scans s : wfState s → wfState (runScans scans s).
Proof.
  revert s. induction scans as [|[now pins] scans IH]; intros s Hs; [exact Hs|].
  rewrite runScans_cons. apply IH. by apply keyboardScan_wf.
Qed.

(** ** Scenarios on the keymap *)

(** (0,0) is Alt+p and (0,1) is Alt+n: the two chords overlap and share one
    assert and one deassert of Alt. *)
Example overlapping_chords_share_alt :
  sent (runScans [(0, pinsAt 0 0); (5, pinsAt 0 0);
                  (10, λ r c, pinsAt 0 0 r c || pinsAt 0 1 r c);
                  (15, λ r c, pinsAt 0 0 r c || pinsAt 0 1 r c);
                  (20, pinsAt 0 1); (25, pinsAt 0 1);
                  (30, pinsNone); (35, pinsNone)] initial)
  = [KPress MODIFIERKEY_LEFT_ALT; KPress (char16 "p"); KPress (char16 "n");
     KRelease (char16 "p"); KRelease (char16 "n"); KRelease MODIFIERKEY_LEFT_ALT].
Proof. vm_compute. reflexivity. Qed.

(** (9,7) is the Shift key. *)
Example shift_key_press_release :
  sent (runScans [(0, pinsAt 9 7); (5, pinsAt 9 7); (6, pinsNone); (11, pinsNone)]
          initial)
  = [KPress MODIFIERKEY_LEFT_SHIFT; KRelease MODIFIERKEY_LEFT_SHIFT].
Proof. vm_compute. reflexivity. Qed.

(** A switch that changes every two milliseconds never commits. *)
Example chatter_sends_nothing :
  sent (runScans [(0, pinsAt 0 0); (2, pinsNone); (4, pinsAt 0 0); (6, pinsNone);
                  (8, pinsAt 0 0); (10, pinsNone)] initial) = [].
Proof. vm_compute. reflexivity. Qed.

(** * C1: Pressed Count and the activity indicator *)

(** The position (0,5) of the keymap is empty.  Held through two cycles five
    milliseconds apart, it becomes debounced-pressed while Pressed Count
    stays at zero. *)
Lemma C1_empty_cell_not_counted :
  ¬ (∀ s, reachable s →
       pressedCount s = Z.of_nat (countCells (λ r c, get (debounced s) r c))
       ∧ (led s = true ↔ 0 < pressedCount s)).
Proof.
  intros H.
  destruct (H (runScans [(0, pinsAt 0 5); (5, pinsAt 0 5)] initial)) as [Hpc _].
  - apply reachable_runScans, reach_init.
  - assert (E1 : pressedCount (runScans [(0, pinsAt 0 5); (5, pinsAt 0 5)] initial) = 0)
      by (vm_compute; reflexivity).
    assert (E2 : countCells (λ r c, get (debounced
                   (runScans [(0, pinsAt 0 5); (5, pinsAt 0 5)] initial)) r c) = 1%nat)
      by (vm_compute; reflexivity).
    rewrite E1, E2 in Hpc. discriminate Hpc.
Qed.

(** C1 (amended): in every state reachable from initialisation by scan
    cycles and full releases, Pressed Count is the number of cells that are
    debounced-pressed and whose key action is not Empty, and the indicator is
    on exactly when Pressed Count is positive. *)
Theorem C1_pressed_count_counts_mapped_cells s :
  reachable s →
  pressedCount s
  = Z.of_nat (countCells (λ r c, valid (keymapAt r c) && get (debounced s) r c))
  ∧ (led s = true ↔ 0 < pressedCount s).
Proof.
  intros Hs. destruct (reachable_Inv s Hs) as (_ & Hpc & Hled & _).
  rewrite <- held_count. split; [exact Hpc|].
  rewrite Hled. destruct (Z.ltb_spec 0 (pressedCount s)); split; (done || lia).
Qed.

Lemma C1_pressed_count_witness :
  let s := runScans [(0, pinsAt 0 0); (5, pinsAt 0 0)] initial in
  pressedCount s
  = Z.of_nat (countCells (λ r c, valid (keymapAt r c) && get (debounced s) r c))
  ∧ (led s = true ↔ 0 < pressedCount s).
Proof.
  apply (C1_pressed_count_counts_mapped_cells
           (runScans [(0, pinsAt 0 0); (5, pinsAt 0 0)] initial)).
  apply reachable_runScans, reach_init.
Defined.

(** * C2: Empty cells *)

(** The empty position (0,5), held through two cycles five milliseconds
    apart: the second cycle commits the cell and invokes the press handler. *)
Lemma C2_empty_cell_transitions :
  ¬ (∀ s now pins r c,
       reachable s → (r < NUM_ROWS)%nat → (c < NUM_COLS)%nat →
       valid (keymapAt r c) = false →
       get (debounced (keyboardScan now pins s)) r c = get (debounced s) r c
       ∧ eventsAt r c (events (keyboardScan now pins s)) = eventsAt r c (events s)).
Proof.
  intros H.
  destruct (H (runScans [(0, pinsAt 0 5)] initial) 5 (pinsAt 0 5) 0%nat 5%nat)
    as [Hdeb _].
  - apply reachable_runScans, reach_init.
  - unfold NUM_ROWS. lia.
  - unfold NUM_COLS. lia.
  - reflexivity.
  - assert (E1 : get (debounced (keyboardScan 5 (pinsAt 0 5)
                    (runScans [(0, pinsAt 0 5)] initial))) 0 5 = true)
      by (vm_compute; reflexivity).
    assert (E2 : get (debounced (runScans [(0, pinsAt 0 5)] initial)) 0 5 = false)
      by (vm_compute; reflexivity).
    rewrite E1, E2 in Hdeb. discriminate Hdeb.
Qed.

Lemma handleKeyPress_empty r c s :
  valid (keymapAt r c) = false → handleKeyPress r c s = logEvent (Pressed r c) s.
Proof. intros E. rewrite handleKeyPress_eq. cbv zeta. by rewrite E. Qed.

Lemma handleKeyRelease_empty r c s :
  valid (keymapAt r c) = false → handleKeyRelease r c s = logEvent (Released r c) s.
Proof. intros E. rewrite handleKeyRelease_eq. cbv zeta. by rewrite E. Qed.

Lemma debounceCell_empty now r c s :
  valid (keymapAt r c) = false → outputs (debounceCell now r c s) = outputs s.
Proof.
  intros E. unfold debounceCell.
  set (v := get (rawState s) r c).
  set (s1 := if negb (eqb v (get (lastRaw s) r c)) then _ else s).
  assert (Hs1 : outputs s1 = outputs s) by (unfold s1; by destruct (negb _)).
  destruct (_ && _); [|done].
  rewrite <- Hs1. destruct v.
  - by rewrite handleKeyPress_empty.
  - by rewrite handleKeyRelease_empty.
Qed.

Lemma debounceCell_quiet now r c s :
  (r < NUM_ROWS)%nat → (c < NUM_COLS)%nat →
  (valid (keymapAt r c) = true → get (rawState s) r c = false) →
  quiet s → quiet (debounceCell now r c s).
Proof.
  intros Hr Hc Hraw (Hwf & Hsent & Hidle).
  destruct (valid (keymapAt r c)) eqn:E.
  - (* a mapped cell: no edge, nothing to commit *)
    destruct (Hidle r c Hr Hc E) as [Hl Hd]. specialize (Hraw eq_refl).
    unfold debounceCell. rewrite Hraw, Hl. cbn [eqb negb]. rewrite Hd.
    cbn [eqb negb andb]. done.
  - split; [by apply debounceCell_wf|]. split.
    + pose proof (debounceCell_empty now r c s E) as Ho.
      unfold outputs in Ho. injection Ho as -> _. exact Hsent.
    + intros r' c' Hr' Hc' E'.
      assert (Hne : (r, c) ≠ (r', c')) by (intros [= -> ->]; congruence).
      pose proof (debounceCell_other now r' c' r c s Hne) as Hv.
      pose proof (f_equal cvLastRaw Hv) as Hl.
      pose proof (f_equal cvDebounced Hv) as Hd.
      unfold cellView in Hl, Hd. cv_in Hl. cv_in Hd.
      rewrite Hl, Hd. by apply Hidle.
Qed.

Lemma keyboardScan_quiet now pins s :
  onlyEmpty pins → quiet s → quiet (keyboardScan now pins s).
Proof.
  intros Hpins Hq. unfold keyboardScan.
  assert (Hq1 : quiet (sampleRows pins s)).
  { destruct Hq as (Hwf & Hsent & Hidle). unfold quiet.
    destruct (sampleRows_frame pins s)
      as (-> & -> & _ & _ & _ & _ & _ & _ & -> & _).
    split; [by apply sampleRows_wf | done]. }
  assert (Hraw : ∀ r c, (r < NUM_ROWS)%nat → (c < NUM_COLS)%nat →
                        valid (keymapAt r c) = true →
                        get (rawState (sampleRows pins s)) r c = false).
  { intros r c Hr Hc E. rewrite sampleRows_get by (done || apply Hq).
    destruct (pins r c) eqn:Ep; [|done]. apply Hpins in Ep. congruence. }
  revert Hq1 Hraw. generalize (sampleRows pins s). intros s1 Hq1 Hraw.
  apply (forCells_preserves
           (λ s', quiet s' ∧ rawState s' = rawState s1)); [done|].
  intros r c s' Hr Hc [Hq' Hr']. split.
  - apply debounceCell_quiet; try done. intros E. rewrite Hr'. by apply Hraw.
  - by rewrite debounceCell_rawState.
Qed.

Lemma quiet_initial : quiet initial.
Proof.
  rewrite initial_boot. split; [apply wfState_boot|]. split; [done|].
  intros r c Hr Hc _. unfold boot, get. fields.
  by rewrite !lookup_total_replicate_2.
Qed.

(** C2 (amended): the scan debounces a cell whose key action is Empty
    like any other cell and invokes its handler, but the handler returns at
    once: the iteration of the scan for such a cell sends nothing and leaves
    the ledger, Pressed Count and the indicator alone; so pressing and
    releasing empty positions, in any number of cycles from initialisation,
    produces no transport call at all. *)
Theorem C2_empty_cells_are_silent :
  (∀ now r c s,
     valid (keymapAt r c) = false →
     outputs (debounceCell now r c s) = outputs s
     ∧ outputs (handleKeyRelease r c (handleKeyPress r c s)) = outputs s)
  ∧ (∀ scans,
       Forall (λ sc, onlyEmpty sc.2) scans →
       sent (runScans scans initial) = []).
Proof.
  split.
  - intros now r c s E. split; [by apply debounceCell_empty|].
    by rewrite handleKeyPress_empty, handleKeyRelease_empty.
  - intros scans Hscans.
    enough (Hq : quiet (runScans scans initial)) by apply Hq.
    assert (Hgen : ∀ s, quiet s → quiet (runScans scans s)).
    { induction Hscans as [|[now pins] scans Hsc _ IH]; intros s Hs; [exact Hs|].
      rewrite runScans_cons. apply IH. by apply keyboardScan_quiet. }
    apply Hgen, quiet_initial.
Qed.

Lemma onlyEmpty_pinsAt_0_5 : onlyEmpty (pinsAt 0 5).
Proof.
  intros r c H. unfold pinsAt in H. apply andb_prop in H as [Hr Hc].
  apply Nat.eqb_eq in Hr, Hc. subst. reflexivity.
Defined.

Lemma onlyEmpty_pinsNone : onlyEmpty pinsNone.
Proof. intros r c H. discriminate H. Defined.

Lemma C2_empty_cells_witness :
  outputs (debounceCell 5 0 5 (sampleRows (pinsAt 0 5) (keyboardScan 0 (pinsAt 0 5) initial)))
  = outputs (sampleRows (pinsAt 0 5) (keyboardScan 0 (pinsAt 0 5) initial))
  ∧ sent (runScans [(0, pinsAt 0 5); (5, pinsAt 0 5); (20, pinsNone); (25, pinsNone)]
            initial) = [].
Proof.
  destruct C2_empty_cells_are_silent as [Hcell Hrun]. split.
  - exact (proj1 (Hcell 5 0%nat 5%nat
                    (sampleRows (pinsAt 0 5) (keyboardScan 0 (pinsAt 0 5) initial))
                    eq_refl)).
  - exact (Hrun [(0, pinsAt 0 5); (5, pinsAt 0 5); (20, pinsNone); (25, pinsNone)]
             (Forall_cons_2 (λ sc, onlyEmpty sc.2) (0, pinsAt 0 5) _
                onlyEmpty_pinsAt_0_5
                (Forall_cons_2 (λ sc, onlyEmpty sc.2) (5, pinsAt 0 5) _
                   onlyEmpty_pinsAt_0_5
                   (Forall_cons_2 (λ sc, onlyEmpty sc.2) (20, pinsNone) _
                      onlyEmpty_pinsNone
                      (Forall_cons_2 (λ sc, onlyEmpty sc.2) (25, pinsNone) _
                         onlyEmpty_pinsNone (Forall_nil_2 _)))))).
Defined.

(** * C3: who asserts and deasserts modifiers *)

(** No key of the keymap has a modifier keycode as its base key. *)
Lemma keymap_baseKey_not_modifier r c :
  isModifierKey (baseKey (keymapAt r c)) = false.
Proof.
  unfold keymapAt.
  do 10 (destruct r as [|r];
         [do 14 (destruct c as [|c]; [reflexivity|]); reflexivity|]).
  reflexivity.
Qed.

Lemma releaseHeldKeys_counters_zero s :
  reachable s →
  refCtrl (releaseHeldKeys s) = 0 ∧ refAlt (releaseHeldKeys s) = 0
  ∧ refShift (releaseHeldKeys s) = 0.
Proof.
  intros Hs. pose proof (reachable_Inv s Hs) as HI.
  destruct (releaseHeldKeys_Inv s HI) as (_ & _ & _ & -> & -> & ->).
  assert (Hclear : ∀ r c, (r < NUM_ROWS)%nat → (c < NUM_COLS)%nat →
                          get (debounced (releaseHeldKeys s)) r c = false).
  { intros r c Hr Hc. apply releaseHeldKeys_clears; [apply HI | done | done]. }
  by rewrite (held_none (needs MOD_LCTRL) _ Hclear),
    (held_none (needs MOD_LALT) _ Hclear), (held_none (needs MOD_LSHIFT) _ Hclear).
Qed.

(** The theorem of C3 is stated with the host's view of the calls, below. *)

(** * C4: the debounce algorithm *)

Lemma cellRun_cons r c now pins scans w :
  cellRun r c ((now, pins) :: scans) w
  = cellRun r c scans (cellNext now r c (sampled (pins r c) w)).
Proof. reflexivity. Qed.

Lemma runScans_cell scans s r c :
  wfState s → (r < NUM_ROWS)%nat → (c < NUM_COLS)%nat →
  cellView r c (runScans scans s) = cellRun r c scans (cellView r c s).
Proof.
  intros Hwf Hr Hc. revert s Hwf.
  induction scans as [|[now pins] scans IH]; intros s Hwf; [reflexivity|].
  rewrite runScans_cons, cellRun_cons, IH by (by apply keyboardScan_wf).
  by rewrite keyboardScan_cell.
Qed.

Lemma runScans_events_prefix scans s :
  ∃ E, events (runScans scans s) = events s ++ E.
Proof.
  revert s. induction scans as [|[now pins] scans IH]; intros s.
  - exists []. by rewrite app_nil_r.
  - rewrite runScans_cons.
    destruct (IH (keyboardScan now pins s)) as [E2 ->].
    destruct (keyboardScan_events_prefix now pins s) as [E1 ->].
    exists (E1 ++ E2). by rewrite app_assoc.
Qed.

(** The events of a cell that a run adds to the log. *)
Lemma runScans_events_at scans s r c X :
  cvEvents (cellView r c (runScans scans s)) = cvEvents (cellView r c s) ++ X →
  ∃ E, events (runScans scans s) = events s ++ E ∧ eventsAt r c E = X.
Proof.
  intros H. destruct (runScans_events_prefix scans s) as [E HE].
  exists E. split; [exact HE|].
  unfold cellView in H. cbn [cvEvents] in H.
  rewrite HE, eventsAt_app in H. by apply app_inv_head in H.
Qed.

Lemma wrap32_self now : wrap32 (now - now) = 0.
Proof. by rewrite Z.sub_diag. Qed.

Lemma cellRun_neverStable r c scans w :
  neverStable r c (cvLastRaw w) (cvLastChange w) scans →
  cvDebounced (cellRun r c scans w) = cvDebounced w
  ∧ cvEvents (cellRun r c scans w) = cvEvents w.
Proof.
  revert w. induction scans as [|[now pins] scans IH]; intros w H; [done|].
  rewrite cellRun_cons. cbn [neverStable] in H.
  set (w' := cellNext now r c (sampled (pins r c) w)).
  assert (Hw' : cvDebounced w' = cvDebounced w ∧ cvEvents w' = cvEvents w
                ∧ neverStable r c (cvLastRaw w') (cvLastChange w') scans).
  { unfold w', cellNext, sampled. cv.
    destruct (eqb (pins r c) (cvLastRaw w)) eqn:E; cbn [negb].
    - destruct H as [Hlt H]. apply eqb_prop in E.
      destruct (Z.leb_spec DEBOUNCE_MS (wrap32 (now - cvLastChange w))); [lia|].
      rewrite andb_false_r, app_nil_r. by rewrite E.
    - rewrite wrap32_self. unfold DEBOUNCE_MS. cbn [Z.leb Z.compare].
      rewrite andb_false_r, app_nil_r. done. }
  destruct Hw' as (Hd & He & Hn). destruct (IH w' Hn) as [-> ->]. done.
Qed.

Lemma cellRun_settled r c scans w v :
  cvLastRaw w = v → cvDebounced w = v →
  Forall (λ sc, sc.2 r c = v) scans →
  cvDebounced (cellRun r c scans w) = v
  ∧ cvEvents (cellRun r c scans w) = cvEvents w.
Proof.
  intros Hl Hd Hall. revert w Hl Hd.
  induction Hall as [|[now pins] scans Hv _ IH]; intros w Hl Hd; [done|].
  rewrite cellRun_cons. cbn [snd] in Hv.
  set (w' := cellNext now r c (sampled (pins r c) w)).
  assert (Hw' : cvLastRaw w' = v ∧ cvDebounced w' = v ∧ cvEvents w' = cvEvents w).
  { unfold w', cellNext, sampled. cv. rewrite Hv, Hd, eqb_reflx.
    cbn [negb andb]. by rewrite app_nil_r. }
  destruct Hw' as (Hl' & Hd' & He'). destruct (IH w' Hl' Hd') as [-> ->]. done.
Qed.

Lemma cellRun_stable r c scans w v :
  cvLastRaw w = v → cvDebounced w = negb v →
  Forall (λ sc, sc.2 r c = v) scans →
  Exists (λ sc, DEBOUNCE_MS ≤ wrap32 (sc.1 - cvLastChange w)) scans →
  cvDebounced (cellRun r c scans w) = v
  ∧ cvEvents (cellRun r c scans w) = cvEvents w ++ [eventFor r c v].
Proof.
  intros Hl Hd Hall. revert w Hl Hd.
  induction Hall as [|[now pins] scans Hv Hall IH]; intros w Hl Hd Hex.
  - by apply Exists_nil in Hex.
  - rewrite cellRun_cons. cbn [snd] in Hv.
    set (w' := cellNext now r c (sampled (pins r c) w)).
    destruct (Z.leb_spec DEBOUNCE_MS (wrap32 (now - cvLastChange w))) as [Hge|Hlt].
    + (* the interval has elapsed: this cycle commits *)
      assert (Hw' : cvLastRaw w' = v ∧ cvDebounced w' = v
                    ∧ cvEvents w' = cvEvents w ++ [eventFor r c v]).
      { unfold w', cellNext, sampled. cv. rewrite Hv, Hl, Hd, eqb_reflx.
        cbn [negb].
        destruct (Z.leb_spec DEBOUNCE_MS (wrap32 (now - cvLastChange w))); [|lia].
        by destruct v. }
      destruct Hw' as (Hl' & Hd' & He').
      destruct (cellRun_settled r c scans w' v Hl' Hd' Hall) as [-> ->]. done.
    + (* not yet *)
      assert (Hw' : cvLastRaw w' = v ∧ cvDebounced w' = negb v
                    ∧ cvEvents w' = cvEvents w
                    ∧ cvLastChange w' = cvLastChange w).
      { unfold w', cellNext, sampled. cv. rewrite Hv, Hl, Hd, eqb_reflx.
        cbn [negb].
        destruct (Z.leb_spec DEBOUNCE_MS (wrap32 (now - cvLastChange w))); [lia|].
        rewrite andb_false_r, app_nil_r. done. }
      destruct Hw' as (Hl' & Hd' & He' & Hc').
      apply Exists_cons in Hex as [Hex|Hex]; [cbn [fst] in Hex; lia|].
      rewrite <- Hc' in Hex.
      destruct (IH w' Hl' Hd' Hex) as [-> ->]. by rewrite He'.
Qed.

(** C4: for every cell, (1) a cycle in which the raw value differs from the
    previous sample records the new sample and resets the time of last
    change to the timestamp of the cycle; (2) while the raw value keeps
    changing before the debounce interval has elapsed since its last change,
    however many cycles run, the debounced value does not change and no
    event of the cell is raised; (3) once cycles see a raw value that differs
    from the debounced value and has not changed for the debounce interval,
    the cell commits exactly once: its debounced value becomes the raw
    value and exactly one event, Pressed or Released accordingly, is raised
    for it, however many more cycles see the same value.  Elapsed time is
    the difference of the 32-bit timestamps, as the code computes it. *)
Theorem C4_debounce s r c :
  wfState s → (r < NUM_ROWS)%nat → (c < NUM_COLS)%nat →
  (∀ now pins,
     pins r c ≠ get (lastRaw s) r c →
     get (lastChange (keyboardScan now pins s)) r c = now
     ∧ get (lastRaw (keyboardScan now pins s)) r c = pins r c)
  ∧ (∀ scans,
       neverStable r c (get (lastRaw s) r c) (get (lastChange s) r c) scans →
       get (debounced (runScans scans s)) r c = get (debounced s) r c
       ∧ ∃ E, events (runScans scans s) = events s ++ E ∧ eventsAt r c E = [])
  ∧ (∀ scans v,
       get (lastRaw s) r c = v → get (debounced s) r c = negb v →
       Forall (λ sc, sc.2 r c = v) scans →
       Exists (λ sc, DEBOUNCE_MS ≤ wrap32 (sc.1 - get (lastChange s) r c)) scans →
       get (debounced (runScans scans s)) r c = v
       ∧ ∃ E, events (runScans scans s) = events s ++ E
              ∧ eventsAt r c E = [eventFor r c v]).
Proof.
  intros Hwf Hr Hc. split_and!.
  - intros now pins Hedge.
    pose proof (keyboardScan_cell now pins s r c Hwf Hr Hc) as Hv.
    assert (E : eqb (pins r c) (get (lastRaw s) r c) = false).
    { destruct (pins r c), (get (lastRaw s) r c); done. }
    revert Hv. generalize (keyboardScan now pins s). intros s' Hv.
    pose proof (f_equal cvLastChange Hv) as Hc'.
    pose proof (f_equal cvLastRaw Hv) as Hl.
    unfold cellView, cellNext, sampled in Hc', Hl. cv_in Hc'. cv_in Hl.
    rewrite E in Hc'. cbn [negb] in Hc'. by rewrite Hl, Hc'.
  - intros scans Hns.
    pose proof (runScans_cell scans s r c Hwf Hr Hc) as Hv.
    destruct (cellRun_neverStable r c scans (cellView r c s) Hns) as [Hd He].
    rewrite <- Hv in Hd, He. split; [exact Hd|].
    apply runScans_events_at. by rewrite He, app_nil_r.
  - intros scans v Hl Hd Hall Hex.
    pose proof (runScans_cell scans s r c Hwf Hr Hc) as Hv.
    destruct (cellRun_stable r c scans (cellView r c s) v Hl Hd Hall Hex) as [Hd' He].
    rewrite <- Hv in Hd', He. split; [exact Hd'|].
    by apply runScans_events_at.
Qed.

Lemma wfState_initial : wfState initial.
Proof. rewrite initial_boot. apply wfState_boot. Qed.

Lemma row0_in_range : (0 < NUM_ROWS)%nat.
Proof. unfold NUM_ROWS. lia. Qed.

Lemma col0_in_range : (0 < NUM_COLS)%nat.
Proof. unfold NUM_COLS. lia. Qed.

(** The switch (0,0) closes at time 10; the cycles at 12, 15 and 16 see it
    closed: the cycle at 15 commits, and that is the only event. *)
Lemma C4_debounce_witness :
  get (debounced
         (runScans [(12, pinsAt 0 0); (15, pinsAt 0 0); (16, pinsAt 0 0)]
            (keyboardScan 10 (pinsAt 0 0) initial))) 0 0 = true
  ∧ ∃ E, events (runScans [(12, pinsAt 0 0); (15, pinsAt 0 0); (16, pinsAt 0 0)]
                   (keyboardScan 10 (pinsAt 0 0) initial))
         = events (keyboardScan 10 (pinsAt 0 0) initial) ++ E
         ∧ eventsAt 0 0 E = [eventFor 0 0 true].
Proof.
  assert (Hwf : wfState (keyboardScan 10 (pinsAt 0 0) initial))
    by apply keyboardScan_wf, wfState_initial.
  destruct (C4_debounce (keyboardScan 10 (pinsAt 0 0) initial) 0 0
              Hwf row0_in_range col0_in_range) as (_ & _ & H).
  assert (Hl : get (lastRaw (keyboardScan 10 (pinsAt 0 0) initial)) 0 0 = true)
    by (vm_compute; reflexivity).
  assert (Hd : get (debounced (keyboardScan 10 (pinsAt 0 0) initial)) 0 0 = negb true)
    by (vm_compute; reflexivity).
  assert (Ht : get (lastChange (keyboardScan 10 (pinsAt 0 0) initial)) 0 0 = 10)
    by (vm_compute; reflexivity).
  assert (Hall : Forall (λ sc : Z * (nat → nat → bool), sc.2 0%nat 0%nat = true)
                   [(12, pinsAt 0 0); (15, pinsAt 0 0); (16, pinsAt 0 0)]).
  { repeat (apply Forall_cons_2; [reflexivity|]). apply Forall_nil_2. }
  assert (Hex : Exists (λ sc : Z * (nat → nat → bool),
                  DEBOUNCE_MS ≤ wrap32 (sc.1 -
                    get (lastChange (keyboardScan 10 (pinsAt 0 0) initial)) 0 0))
                  [(12, pinsAt 0 0); (15, pinsAt 0 0); (16, pinsAt 0 0)]).
  { apply Exists_cons_tl, Exists_cons_hd. rewrite Ht. cbn [fst].
    vm_compute. discriminate. }
  exact (H [(12, pinsAt 0 0); (15, pinsAt 0 0); (16, pinsAt 0 0)] true Hl Hd Hall Hex).
Defined.

(** * C5: the modifier ledger *)

Lemma countCall_app k l1 l2 :
  countCall k (l1 ++ l2) = (countCall k l1 + countCall k l2)%nat.
Proof. unfold countCall. by rewrite List.filter_app, length_app. Qed.

(** The calls of one line, counted. *)
Lemma countCall_three k (b1 b2 b3 : bool) k1 k2 k3 :
  countCall k ((if b1 then [k1] else []) ++ (if b2 then [k2] else [])
               ++ (if b3 then [k3] else []))
  = (b2n (b1 && bool_decide (k1 = k)) + b2n (b2 && bool_decide (k2 = k))
     + b2n (b3 && bool_decide (k3 = k)))%nat.
Proof.
  unfold countCall.
  destruct b1, b2, b3; cbn [app List.filter andb];
    repeat (destruct (bool_decide _)); reflexivity.
Qed.

Ltac arith_cases :=
  unfold incr16, decr16, wrap16 in *; cbn [andb];
  repeat (match goal with
          | |- context [?x <? ?y] => destruct (Z.ltb_spec x y)
          end; cbn [andb]);
  repeat (match goal with
          | |- context [?x =? ?y] => destruct (Z.eqb_spec x y)
          end; cbn [andb]);
  cbn [b2n Nat.add]; try reflexivity; try (Z.div_mod_to_equations; lia).

Lemma ledgerStep_inRange op s : ledgerInRange s → ledgerInRange (ledgerStep s op).
Proof.
  intros (H1 & H2 & H3). unfold ledgerInRange.
  destruct op as [m|m]; cbn [ledgerStep];
    [rewrite pressModifiers_eq | rewrite releaseModifiers_eq]; fields;
    generalize (hasMod m MOD_LCTRL), (hasMod m MOD_LALT), (hasMod m MOD_LSHIFT);
    intros b1 b2 b3; unfold incr16, decr16, wrap16;
    (split_and!; repeat bool_cases; cbn [andb]; repeat bool_cases;
     Z.div_mod_to_equations; lia).
Qed.

(** One step of the ledger: what it sends, against how the counters move. *)
Lemma ledgerStep_calls op s :
  ledgerInRange s →
  ∃ E, sent (ledgerStep s op) = sent s ++ E
  ∧ countCall (KPress MODIFIERKEY_LEFT_CTRL) E
    = b2n ((refCtrl s =? 0) && (refCtrl (ledgerStep s op) =? 1))
  ∧ countCall (KRelease MODIFIERKEY_LEFT_CTRL) E
    = b2n ((refCtrl s =? 1) && (refCtrl (ledgerStep s op) =? 0))
  ∧ countCall (KPress MODIFIERKEY_LEFT_ALT) E
    = b2n ((refAlt s =? 0) && (refAlt (ledgerStep s op) =? 1))
  ∧ countCall (KRelease MODIFIERKEY_LEFT_ALT) E
    = b2n ((refAlt s =? 1) && (refAlt (ledgerStep s op) =? 0))
  ∧ countCall (KPress MODIFIERKEY_LEFT_SHIFT) E
    = b2n ((refShift s =? 0) && (refShift (ledgerStep s op) =? 1))
  ∧ countCall (KRelease MODIFIERKEY_LEFT_SHIFT) E
    = b2n ((refShift s =? 1) && (refShift (ledgerStep s op) =? 0)).
Proof.
  intros (H1 & H2 & H3). destruct op as [m|m]; cbn [ledgerStep].
  - exists (pressCalls m s). rewrite pressModifiers_eq. fields.
    split; [done|]. unfold pressCalls. rewrite !countCall_three.
    generalize (hasMod m MOD_LCTRL), (hasMod m MOD_LALT), (hasMod m MOD_LSHIFT).
    intros b1 b2 b3.
    change (bool_decide (KPress MODIFIERKEY_LEFT_CTRL = KPress MODIFIERKEY_LEFT_CTRL))
      with true.
    change (bool_decide (KPress MODIFIERKEY_LEFT_ALT = KPress MODIFIERKEY_LEFT_ALT))
      with true.
    change (bool_decide (KPress MODIFIERKEY_LEFT_SHIFT = KPress MODIFIERKEY_LEFT_SHIFT))
      with true.
    repeat match goal with
           | |- context [bool_decide ?P] => change (bool_decide P) with false
           end.
    rewrite !andb_true_r, !andb_false_r. cbn [b2n Nat.add]. rewrite !Nat.add_0_r.
    destruct b1, b2, b3; split_and!; arith_cases.
  - exists (releaseCalls m s). rewrite releaseModifiers_eq. fields.
    split; [done|]. unfold releaseCalls. rewrite !countCall_three.
    generalize (hasMod m MOD_LCTRL), (hasMod m MOD_LALT), (hasMod m MOD_LSHIFT).
    intros b1 b2 b3.
    change (bool_decide (KRelease MODIFIERKEY_LEFT_CTRL = KRelease MODIFIERKEY_LEFT_CTRL))
      with true.
    change (bool_decide (KRelease MODIFIERKEY_LEFT_ALT = KRelease MODIFIERKEY_LEFT_ALT))
      with true.
    change (bool_decide (KRelease MODIFIERKEY_LEFT_SHIFT = KRelease MODIFIERKEY_LEFT_SHIFT))
      with true.
    repeat match goal with
           | |- context [bool_decide ?P] => change (bool_decide P) with false
           end.
    rewrite !andb_true_r, !andb_false_r. cbn [b2n Nat.add]. rewrite !Nat.add_0_r.
    destruct b1, b2, b3; split_and!; arith_cases.
Qed.

Lemma releaseModifiers_at_zero m s :
  (hasMod m MOD_LCTRL = true → refCtrl s = 0) →
  (hasMod m MOD_LALT = true → refAlt s = 0) →
  (hasMod m MOD_LSHIFT = true → refShift s = 0) →
  releaseModifiers m s = s.
Proof.
  intros H1 H2 H3. rewrite releaseModifiers_eq. unfold releaseCalls, decr16.
  destruct (hasMod m MOD_LCTRL); [rewrite (H1 eq_refl)|];
    destruct (hasMod m MOD_LALT); [rewrite (H2 eq_refl)| |rewrite (H2 eq_refl)|];
    destruct (hasMod m MOD_LSHIFT); try rewrite (H3 eq_refl);
    cbn [andb Z.ltb Z.compare]; rewrite app_nil_r; destruct s; cbn in *;
    repeat match goal with H : _ → ?x = 0 |- _ => specialize (H eq_refl) end;
    subst; reflexivity.
Qed.

(** C5: along every sequence of hold/unhold calls each counter stays a
    non-negative 16-bit value; unhold of modifiers whose counters are zero
    changes nothing; and the transport receives exactly one assert of a
    modifier for each step in which its counter goes from 0 to 1, and exactly
    one deassert for each step in which it goes from 1 to 0. *)
Theorem C5_ledger_ref_counting ops s :
  ledgerInRange s →
  ledgerInRange (ledgerRun ops s)
  ∧ (∀ m, (hasMod m MOD_LCTRL = true → refCtrl s = 0) →
          (hasMod m MOD_LALT = true → refAlt s = 0) →
          (hasMod m MOD_LSHIFT = true → refShift s = 0) →
          releaseModifiers m s = s)
  ∧ ∃ E, sent (ledgerRun ops s) = sent s ++ E
    ∧ countCall (KPress MODIFIERKEY_LEFT_CTRL) E = transitions refCtrl 0 1 ops s
    ∧ countCall (KRelease MODIFIERKEY_LEFT_CTRL) E = transitions refCtrl 1 0 ops s
    ∧ countCall (KPress MODIFIERKEY_LEFT_ALT) E = transitions refAlt 0 1 ops s
    ∧ countCall (KRelease MODIFIERKEY_LEFT_ALT) E = transitions refAlt 1 0 ops s
    ∧ countCall (KPress MODIFIERKEY_LEFT_SHIFT) E = transitions refShift 0 1 ops s
    ∧ countCall (KRelease MODIFIERKEY_LEFT_SHIFT) E = transitions refShift 1 0 ops s.
Proof.
  intros Hs. split_and!.
  - revert s Hs. induction ops as [|op ops IH]; intros s Hs; [exact Hs|].
    apply IH. by apply ledgerStep_inRange.
  - intros m. apply releaseModifiers_at_zero.
  - revert s Hs. induction ops as [|op ops IH]; intros s Hs.
    + exists []. rewrite app_nil_r. by split_and!.
    + destruct (ledgerStep_calls op s Hs) as (E1 & HE1 & A1 & A2 & A3 & A4 & A5 & A6).
      destruct (IH (ledgerStep s op) (ledgerStep_inRange op s Hs))
        as (E2 & HE2 & B1 & B2 & B3 & B4 & B5 & B6).
      exists (E1 ++ E2). cbn [transitions].
      change (ledgerRun (op :: ops) s) with (ledgerRun ops (ledgerStep s op)).
      rewrite HE2, HE1, <- app_assoc, !countCall_app.
      rewrite A1, A2, A3, A4, A5, A6, B1, B2, B3, B4, B5, B6. by split_and!.
Qed.

Lemma ledgerInRange_initial : ledgerInRange initial.
Proof. rewrite initial_boot. unfold ledgerInRange, boot. fields. lia. Qed.

Lemma C5_ledger_witness :
  ledgerInRange (ledgerRun [Hold MOD_LCTRL; Hold MOD_LCTRL; Unhold MOD_LCTRL;
                            Unhold MOD_LCTRL; Unhold MOD_LCTRL] initial)
  ∧ ∃ E, sent (ledgerRun [Hold MOD_LCTRL; Hold MOD_LCTRL; Unhold MOD_LCTRL;
                          Unhold MOD_LCTRL; Unhold MOD_LCTRL] initial)
         = sent initial ++ E
         ∧ countCall (KPress MODIFIERKEY_LEFT_CTRL) E
           = transitions refCtrl 0 1 [Hold MOD_LCTRL; Hold MOD_LCTRL; Unhold MOD_LCTRL;
                                      Unhold MOD_LCTRL; Unhold MOD_LCTRL] initial.
Proof.
  destruct (C5_ledger_ref_counting
              [Hold MOD_LCTRL; Hold MOD_LCTRL; Unhold MOD_LCTRL;
               Unhold MOD_LCTRL; Unhold MOD_LCTRL] initial ledgerInRange_initial)
    as (H1 & _ & E & HE & HP & _).
  split; [exact H1|]. exists E. split; [exact HE | exact HP].
Defined.

(** * C6: order of the calls of a chord *)

Lemma pressCalls_asserts m s : Forall (λ k, isAssert k = true) (pressCalls m s).
Proof.
  unfold pressCalls.
  repeat (apply Forall_app_2; [|]); destruct (_ && _);
    first [apply Forall_nil_2 | by apply Forall_singleton].
Qed.

Lemma releaseCalls_deasserts m s :
  Forall (λ k, isDeassert k = true) (releaseCalls m s).
Proof.
  unfold releaseCalls.
  repeat (apply Forall_app_2; [|]); destruct (_ && _);
    first [apply Forall_nil_2 | by apply Forall_singleton].
Qed.

(** Every chord of the keymap holds exactly one modifier, Ctrl or Alt. *)
Lemma keymap_chord_mods r c :
  isChord (keymapAt r c) = true →
  mods (keymapAt r c) = MOD_LCTRL ∨ mods (keymapAt r c) = MOD_LALT.
Proof.
  unfold keymapAt.
  do 10 (destruct r as [|r];
         [do 14 (destruct c as [|c];
                 [first [discriminate 1 | by left | by right]|]);
          discriminate 1|]).
  discriminate 1.
Qed.

Lemma pressCalls_ctrl s :
  pressCalls MOD_LCTRL s
  = if refCtrl s =? 0 then [KPress MODIFIERKEY_LEFT_CTRL] else [].
Proof.
  unfold pressCalls.
  change (hasMod MOD_LCTRL MOD_LCTRL) with true.
  change (hasMod MOD_LCTRL MOD_LALT) with false.
  change (hasMod MOD_LCTRL MOD_LSHIFT) with false.
  cbn [andb]. by rewrite !app_nil_r.
Qed.

Lemma pressCalls_alt s :
  pressCalls MOD_LALT s
  = if refAlt s =? 0 then [KPress MODIFIERKEY_LEFT_ALT] else [].
Proof.
  unfold pressCalls.
  change (hasMod MOD_LALT MOD_LCTRL) with false.
  change (hasMod MOD_LALT MOD_LALT) with true.
  change (hasMod MOD_LALT MOD_LSHIFT) with false.
  cbn [andb app]. by rewrite !app_nil_r.
Qed.

(** The theorem of C6 is stated with the host's view of the calls, below. *)

(** * C7: full release is idempotent *)

(** C7: from any state, a full release leaves the three modifier counters
    and Pressed Count at zero, the indicator off and every debounced entry
    false; a second full release right after it changes nothing and sends
    nothing but the transport's release-all. *)
Theorem C7_release_all_idempotent s :
  wfState s →
  refCtrl (keyboardReleaseAll s) = 0
  ∧ refAlt (keyboardReleaseAll s) = 0
  ∧ refShift (keyboardReleaseAll s) = 0
  ∧ pressedCount (keyboardReleaseAll s) = 0
  ∧ led (keyboardReleaseAll s) = false
  ∧ (∀ r c, (r < NUM_ROWS)%nat → (c < NUM_COLS)%nat →
            get (debounced (keyboardReleaseAll s)) r c = false)
  ∧ keyboardReleaseAll (keyboardReleaseAll s) = kbReleaseAll (keyboardReleaseAll s)
  ∧ sent (keyboardReleaseAll (keyboardReleaseAll s))
    = sent (keyboardReleaseAll s) ++ [KReleaseAll].
Proof.
  intros Hwf.
  assert (Hclear : ∀ r c, (r < NUM_ROWS)%nat → (c < NUM_COLS)%nat →
                          get (debounced (releaseHeldKeys s)) r c = false).
  { intros r c Hr Hc. by apply releaseHeldKeys_clears. }
  rewrite (keyboardReleaseAll_eq s). revert Hclear.
  generalize (releaseHeldKeys s). intros s1 Hclear. cbv zeta.
  set (s2 := mkState _ _ _ _ _ _ _ _ _ _ _).
  assert (Hidle : releaseHeldKeys s2 = s2).
  { apply releaseHeldKeys_idle. exact Hclear. }
  assert (Hsecond : keyboardReleaseAll s2 = kbReleaseAll s2).
  { rewrite keyboardReleaseAll_eq. cbv zeta. rewrite Hidle.
    unfold s2, forcedCalls. unfold_setters. reflexivity. }
  split_and!; try reflexivity.
  - exact Hclear.
  - exact Hsecond.
  - by rewrite Hsecond.
Qed.

(** The chord at (0,0) is held when the full release runs. *)
Lemma C7_release_all_witness :
  refCtrl (keyboardReleaseAll (runScans [(0, pinsAt 0 0); (5, pinsAt 0 0)] initial)) = 0
  ∧ refAlt (keyboardReleaseAll (runScans [(0, pinsAt 0 0); (5, pinsAt 0 0)] initial)) = 0
  ∧ refShift (keyboardReleaseAll (runScans [(0, pinsAt 0 0); (5, pinsAt 0 0)] initial)) = 0
  ∧ pressedCount (keyboardReleaseAll (runScans [(0, pinsAt 0 0); (5, pinsAt 0 0)] initial)) = 0
  ∧ led (keyboardReleaseAll (runScans [(0, pinsAt 0 0); (5, pinsAt 0 0)] initial)) = false
  ∧ (∀ r c, (r < NUM_ROWS)%nat → (c < NUM_COLS)%nat →
            get (debounced (keyboardReleaseAll (runScans [(0, pinsAt 0 0); (5, pinsAt 0 0)] initial))) r c = false)
  ∧ keyboardReleaseAll (keyboardReleaseAll (runScans [(0, pinsAt 0 0); (5, pinsAt 0 0)] initial))
    = kbReleaseAll (keyboardReleaseAll (runScans [(0, pinsAt 0 0); (5, pinsAt 0 0)] initial))
  ∧ sent (keyboardReleaseAll (keyboardReleaseAll (runScans [(0, pinsAt 0 0); (5, pinsAt 0 0)] initial)))
    = sent (keyboardReleaseAll (runScans [(0, pinsAt 0 0); (5, pinsAt 0 0)] initial)) ++ [KReleaseAll].
Proof.
  exact (C7_release_all_idempotent (runScans [(0, pinsAt 0 0); (5, pinsAt 0 0)] initial)
           (runScans_wf [(0, pinsAt 0 0); (5, pinsAt 0 0)] initial wfState_initial)).
Defined.

(** * C8: one event per cell and cycle *)

Lemma debounce_pass_events now r c (l : list (nat * nat)) s :
  NoDup l →
  ∃ E, events (foldl (λ s rc, debounceCell now rc.1 rc.2 s) s l) = events s ++ E
       ∧ (length (eventsAt r c E) ≤ if bool_decide ((r, c) ∈ l) then 1 else 0)%nat.
Proof.
  intros Hnd. revert s. induction Hnd as [|[r' c'] l Hnin Hnd IH]; intros s.
  - exists []. rewrite app_nil_r. split; [done|]. cbn. lia.
  - cbn [foldl fst snd].
    destruct (IH (debounceCell now r' c' s)) as (E2 & -> & Hlen).
    destruct (debounceCell_events_any now r' c' s) as (E1 & -> & HE1).
    exists (E1 ++ E2). rewrite <- app_assoc. split; [done|].
    rewrite eventsAt_app, length_app.
    destruct (decide ((r', c') = (r, c))) as [[= -> ->]|Hne].
    + rewrite bool_decide_eq_true_2 by left.
      rewrite bool_decide_eq_false_2 in Hlen by done.
      assert (length (eventsAt r c E1) ≤ 1)%nat.
      { destruct HE1 as [-> | [-> | ->]]; unfold eventsAt; cbn [List.filter];
          repeat case_bool_decide; cbn; lia. }
      lia.
    + assert (eventsAt r c E1 = []) as ->.
      { destruct HE1 as [-> | [-> | ->]]; [done|..];
          unfold eventsAt; cbn [List.filter eventCell];
          by rewrite bool_decide_eq_false_2. }
      cbn [length Nat.add].
      destruct (bool_decide ((r, c) ∈ l)) eqn:E.
      * rewrite bool_decide_eq_true_2; [done|]. right. by apply bool_decide_eq_true in E.
      * lia.
Qed.

(** C8: in one scan cycle every cell raises at most one transition event;
    the commit checks run after all samples of the cycle are stored and
    change none of them. *)
Theorem C8_one_event_per_cell_per_cycle now pins s r c :
  (∃ E, events (keyboardScan now pins s) = events s ++ E
        ∧ (length (eventsAt r c E) ≤ 1)%nat)
  ∧ keyboardScan now pins s = forCells (debounceCell now) (sampleRows pins s)
  ∧ rawState (keyboardScan now pins s) = rawState (sampleRows pins s).
Proof.
  split_and!.
  - unfold keyboardScan. rewrite forCells_cells.
    destruct (debounce_pass_events now r c cells (sampleRows pins s) NoDup_cells)
      as (E & -> & Hlen).
    exists E. split.
    + by destruct (sampleRows_frame pins s) as (_ & _ & _ & _ & _ & _ & _ & _ & _ & ->).
    + destruct (bool_decide _) in Hlen; lia.
  - reflexivity.
  - unfold keyboardScan. generalize (sampleRows pins s). intros s1.
    apply (forCells_preserves (λ s', rawState s' = rawState s1)); [done|].
    intros r' c' s' _ _ <-. apply debounceCell_rawState.
Qed.

(** * C9: Pressed Count does not underflow *)

Lemma handleKeyRelease_pressedCount r c s :
  pressedCount (handleKeyRelease r c s)
  = if valid (keymapAt r c) then decr16 true (pressedCount s) else pressedCount s.
Proof. rewrite handleKeyRelease_eq. by destruct (valid _). Qed.

Lemma handleKeyPress_pressedCount r c s :
  pressedCount (handleKeyPress r c s)
  = if valid (keymapAt r c) then wrap16 (pressedCount s + 1) else pressedCount s.
Proof. rewrite handleKeyPress_eq. by destruct (valid _). Qed.

Lemma handle_pressedCount_range e s :
  0 ≤ pressedCount s < 65536 → 0 ≤ pressedCount (handle s e) < 65536.
Proof.
  intros H. destruct e as [r c|r c]; cbn [handle].
  - rewrite handleKeyPress_pressedCount. destruct (valid _); [|done].
    unfold wrap16. Z.div_mod_to_equations. lia.
  - rewrite handleKeyRelease_pressedCount. destruct (valid _); [|done].
    unfold decr16, wrap16. cbn [andb]. destruct (Z.ltb_spec 0 (pressedCount s)); [|done].
    Z.div_mod_to_equations. lia.
Qed.

Lemma releaseCell_pressedCount_zero r c s :
  pressedCount s = 0 → pressedCount (releaseCell r c s) = 0.
Proof.
  intros H. rewrite releaseCell_eq. destruct (get (debounced s) r c); [|done].
  unfold dispatch. rewrite handleKeyRelease_pressedCount. fields.
  destruct (valid _); [|done]. rewrite H. reflexivity.
Qed.

(** C9: a release processed while Pressed Count is zero leaves it at zero;
    after any sequence of press and release events, matched or not, a
    release never raises Pressed Count (it does not wrap around to 65535);
    and the releases made by a full release keep a zero Pressed Count at
    zero. *)
Theorem C9_pressed_count_guarded_at_zero :
  (∀ r c s, pressedCount s = 0 → pressedCount (handleKeyRelease r c s) = 0)
  ∧ (∀ evs s r c,
       0 ≤ pressedCount s < 65536 →
       0 ≤ pressedCount (handleKeyRelease r c (foldl handle s evs))
         ≤ pressedCount (foldl handle s evs))
  ∧ (∀ s, pressedCount s = 0 → pressedCount (releaseHeldKeys s) = 0).
Proof.
  split_and!.
  - intros r c s H. rewrite handleKeyRelease_pressedCount, H. by destruct (valid _).
  - intros evs s r c Hs.
    assert (Hrange : 0 ≤ pressedCount (foldl handle s evs) < 65536).
    { revert s Hs. induction evs as [|e evs IH]; intros s Hs; [exact Hs|].
      cbn [foldl]. apply IH. by apply handle_pressedCount_range. }
    revert Hrange. generalize (foldl handle s evs). intros s' Hrange.
    rewrite handleKeyRelease_pressedCount. destruct (valid _); [|lia].
    unfold decr16, wrap16. cbn [andb].
    destruct (Z.ltb_spec 0 (pressedCount s')); [|lia].
    Z.div_mod_to_equations. lia.
  - intros s H. rewrite releaseHeldKeys_cells.
    apply (forCells_preserves (λ s', pressedCount s' = 0)); [exact H|].
    intros r c s' _ _. apply releaseCell_pressedCount_zero.
Qed.

Lemma C9_pressed_count_witness :
  pressedCount (handleKeyRelease 0 0 initial) = 0
  ∧ 0 ≤ pressedCount (handleKeyRelease 0 0
                        (foldl handle initial [Pressed 0 0; Released 0 0; Released 0 0]))
      ≤ pressedCount (foldl handle initial [Pressed 0 0; Released 0 0; Released 0 0])
  ∧ pressedCount (releaseHeldKeys initial) = 0.
Proof.
  destruct C9_pressed_count_guarded_at_zero as (H1 & H2 & H3).
  assert (H0 : pressedCount initial = 0) by (vm_compute; reflexivity).
  assert (Hr : 0 ≤ pressedCount initial < 65536) by (rewrite H0; lia).
  exact (conj (H1 0%nat 0%nat initial H0)
           (conj (H2 [Pressed 0 0; Released 0 0; Released 0 0] initial 0%nat 0%nat Hr)
              (H3 initial H0))).
Defined.

(** * C10: what a full release leaves alone *)

(** C10: a full release leaves the raw samples, the previous raw samples and
    the times of last change of all cells as they were; so for a key that is
    still held (its raw value has been true for the debounce interval), the
    next scan cycle commits the cell again and raises a fresh Pressed
    event for it. *)
Theorem C10_release_all_keeps_samples s :
  rawState (keyboardReleaseAll s) = rawState s
  ∧ lastRaw (keyboardReleaseAll s) = lastRaw s
  ∧ lastChange (keyboardReleaseAll s) = lastChange s
  ∧ (∀ now pins r c,
       wfState s → (r < NUM_ROWS)%nat → (c < NUM_COLS)%nat →
       pins r c = true → get (lastRaw s) r c = true →
       DEBOUNCE_MS ≤ wrap32 (now - get (lastChange s) r c) →
       get (debounced (keyboardScan now pins (keyboardReleaseAll s))) r c = true
       ∧ ∃ E, events (keyboardScan now pins (keyboardReleaseAll s))
              = events (keyboardReleaseAll s) ++ E
              ∧ eventsAt r c E = [Pressed r c]).
Proof.
  assert (Hframe : rawState (keyboardReleaseAll s) = rawState s
                   ∧ lastRaw (keyboardReleaseAll s) = lastRaw s
                   ∧ lastChange (keyboardReleaseAll s) = lastChange s).
  { rewrite keyboardReleaseAll_eq.
    pose proof (releaseHeldKeys_frame s) as H. revert H.
    generalize (releaseHeldKeys s). intros s1 H. cbv zeta. fields. exact H. }
  destruct Hframe as (Hraw & Hlast & Hchg).
  split; [exact Hraw|]. split; [exact Hlast|]. split; [exact Hchg|].
  intros now pins r c Hwf Hr Hc Hpin Hheld Htime.
  assert (Hdeb : get (debounced (keyboardReleaseAll s)) r c = false).
  { rewrite keyboardReleaseAll_eq.
    pose proof (releaseHeldKeys_clears s r c Hwf Hr Hc) as H. revert H.
    generalize (releaseHeldKeys s). intros s1 H. cbv zeta. fields. exact H. }
  pose proof (keyboardReleaseAll_wf s Hwf) as Hwf1.
  pose proof (keyboardScan_cell now pins (keyboardReleaseAll s) r c Hwf1 Hr Hc) as Hv.
  destruct (keyboardScan_events_prefix now pins (keyboardReleaseAll s)) as [E HE].
  rewrite <- Hlast in Hheld. rewrite <- Hchg in Htime.
  clear Hraw Hlast Hchg Hwf1. revert Hv HE Hdeb Hheld Htime.
  generalize (keyboardReleaseAll s). intros s1.
  generalize (keyboardScan now pins s1). intros s2 Hv HE Hdeb Hheld Htime.
  pose proof (f_equal cvDebounced Hv) as Hd.
  pose proof (f_equal cvEvents Hv) as He.
  unfold cellView, cellNext, sampled in Hd, He. cv_in Hd. cv_in He.
  rewrite Hpin, Hheld, Hdeb in Hd, He. cbn [eqb negb andb] in Hd, He.
  destruct (Z.leb_spec DEBOUNCE_MS (wrap32 (now - get (lastChange s1) r c))); [|lia].
  split; [exact Hd|]. exists E. split; [exact HE|].
  rewrite HE, eventsAt_app in He. by apply app_inv_head in He.
Qed.

(** The chord at (0,0) is held, committed, released by a full release, and
    still held at the next cycle. *)
Lemma C10_release_all_witness :
  get (debounced
         (keyboardScan 6 (pinsAt 0 0)
            (keyboardReleaseAll (runScans [(0, pinsAt 0 0); (5, pinsAt 0 0)] initial))))
      0 0 = true
  ∧ ∃ E, events (keyboardScan 6 (pinsAt 0 0)
                   (keyboardReleaseAll
                      (runScans [(0, pinsAt 0 0); (5, pinsAt 0 0)] initial)))
         = events (keyboardReleaseAll
                     (runScans [(0, pinsAt 0 0); (5, pinsAt 0 0)] initial)) ++ E
         ∧ eventsAt 0 0 E = [Pressed 0 0].
Proof.
  destruct (C10_release_all_keeps_samples
              (runScans [(0, pinsAt 0 0); (5, pinsAt 0 0)] initial))
    as (_ & _ & _ & H).
  assert (Hheld : get (lastRaw (runScans [(0, pinsAt 0 0); (5, pinsAt 0 0)] initial))
                    0 0 = true)
    by (vm_compute; reflexivity).
  assert (Ht : get (lastChange (runScans [(0, pinsAt 0 0); (5, pinsAt 0 0)] initial))
                 0 0 = 0)
    by (vm_compute; reflexivity).
  assert (Htime : DEBOUNCE_MS
                  ≤ wrap32 (6 - get (lastChange
                      (runScans [(0, pinsAt 0 0); (5, pinsAt 0 0)] initial)) 0 0)).
  { rewrite Ht. vm_compute. discriminate. }
  exact (H 6 (pinsAt 0 0) 0%nat 0%nat
           (runScans_wf [(0, pinsAt 0 0); (5, pinsAt 0 0)] initial wfState_initial)
           row0_in_range col0_in_range eq_refl Hheld Htime).
Defined.

(** * Further properties of the matrix engine *)

(** ** X1: the modifier ledger counts held keys *)

(** X1: in every reachable state each modifier counter is the number of
    debounced-pressed cells whose key holds that modifier, and no counter
    exceeds the number of cells: the 16-bit counters never wrap around. *)
Theorem X1_ledger_counts_held_keys s :
  reachable s →
  refCtrl s
  = Z.of_nat (countCells (λ r c, needs MOD_LCTRL (keymapAt r c) && get (debounced s) r c))
  ∧ refAlt s
    = Z.of_nat (countCells (λ r c, needs MOD_LALT (keymapAt r c) && get (debounced s) r c))
  ∧ refShift s
    = Z.of_nat (countCells (λ r c, needs MOD_LSHIFT (keymapAt r c) && get (debounced s) r c))
  ∧ 0 ≤ refCtrl s ≤ 140 ∧ 0 ≤ refAlt s ≤ 140 ∧ 0 ≤ refShift s ≤ 140
  ∧ 0 ≤ pressedCount s ≤ 140.
Proof.
  intros Hs. destruct (reachable_Inv s Hs) as (_ & Hpc & _ & H1 & H2 & H3).
  rewrite <- !held_count.
  pose proof (held_range valid (debounced s)).
  pose proof (held_range (needs MOD_LCTRL) (debounced s)).
  pose proof (held_range (needs MOD_LALT) (debounced s)).
  pose proof (held_range (needs MOD_LSHIFT) (debounced s)).
  split; [exact H1|]. split; [exact H2|]. split; [exact H3|].
  rewrite H1, H2, H3, Hpc. lia.
Qed.

Lemma X1_ledger_counts_witness :
  let s := runScans [(0, pinsAt 0 0); (5, pinsAt 0 0)] initial in
  refAlt s
  = Z.of_nat (countCells (λ r c, needs MOD_LALT (keymapAt r c) && get (debounced s) r c))
  ∧ 0 ≤ refAlt s ≤ 140.
Proof.
  destruct (X1_ledger_counts_held_keys
              (runScans [(0, pinsAt 0 0); (5, pinsAt 0 0)] initial)
              (reachable_runScans _ _ reach_init))
    as (_ & H2 & _ & _ & H5 & _).
  exact (conj H2 H5).
Defined.

(** ** X2: what the calls leave down *)

Lemma isDown_app code l k :
  isDown code (l ++ k) = foldl (hostStep code) (isDown code l) k.
Proof. unfold isDown. by rewrite foldl_app. Qed.

Lemma hostStep_pressCalls code m s d :
  code = MODIFIERKEY_LEFT_CTRL ∨ code = MODIFIERKEY_LEFT_ALT
  ∨ code = MODIFIERKEY_LEFT_SHIFT →
  foldl (hostStep code) d (pressCalls m s)
  = if (if code =? MODIFIERKEY_LEFT_CTRL then hasMod m MOD_LCTRL && (refCtrl s =? 0)
        else if code =? MODIFIERKEY_LEFT_ALT then hasMod m MOD_LALT && (refAlt s =? 0)
        else hasMod m MOD_LSHIFT && (refShift s =? 0))
    then true else d.
Proof.
  unfold pressCalls.
  intros [-> | [-> | ->]];
    destruct (hasMod m MOD_LCTRL && (refCtrl s =? 0)),
      (hasMod m MOD_LALT && (refAlt s =? 0)),
      (hasMod m MOD_LSHIFT && (refShift s =? 0)); reflexivity.
Qed.

Lemma hostStep_releaseCalls code m s d :
  code = MODIFIERKEY_LEFT_CTRL ∨ code = MODIFIERKEY_LEFT_ALT
  ∨ code = MODIFIERKEY_LEFT_SHIFT →
  foldl (hostStep code) d (releaseCalls m s)
  = if (if code =? MODIFIERKEY_LEFT_CTRL
        then hasMod m MOD_LCTRL && (0 <? refCtrl s) && (wrap16 (refCtrl s - 1) =? 0)
        else if code =? MODIFIERKEY_LEFT_ALT
        then hasMod m MOD_LALT && (0 <? refAlt s) && (wrap16 (refAlt s - 1) =? 0)
        else hasMod m MOD_LSHIFT && (0 <? refShift s) && (wrap16 (refShift s - 1) =? 0))
    then false else d.
Proof.
  unfold releaseCalls.
  intros [-> | [-> | ->]];
    destruct (hasMod m MOD_LCTRL && (0 <? refCtrl s) && (wrap16 (refCtrl s - 1) =? 0)),
      (hasMod m MOD_LALT && (0 <? refAlt s) && (wrap16 (refAlt s - 1) =? 0)),
      (hasMod m MOD_LSHIFT && (0 <? refShift s) && (wrap16 (refShift s - 1) =? 0));
    reflexivity.
Qed.

(** A press or release of a base key of the keymap leaves the modifier keys
    as they are. *)
Lemma hostStep_baseKey code r c d (press : bool) :
  isModifierKey code = true →
  hostStep code d (if press then KPress (baseKey (keymapAt r c))
                   else KRelease (baseKey (keymapAt r c))) = d.
Proof.
  intros Hcode.
  assert ((baseKey (keymapAt r c) =? code) = false) as E.
  { apply Z.eqb_neq. intros E. pose proof (keymap_baseKey_not_modifier r c) as H.
    rewrite E in H. congruence. }
  destruct press; cbn [hostStep]; by rewrite E.
Qed.

(** A commit keeps the calls and the counters in agreement. *)
Lemma commit_host r c v s :
  Inv s → hostAgrees s → (r < NUM_ROWS)%nat → (c < NUM_COLS)%nat →
  get (debounced s) r c = negb v →
  hostAgrees (dispatch r c v (set_debounced (set (debounced s) r c v) s)).
Proof.
  intros (Hwf & Hpc & Hled & Hc1 & Hc2 & Hc3) (Hd1 & Hd2 & Hd3) Hr Hc Hold.
  destruct Hwf as (_ & _ & Hdeb & _).
  pose proof (held_commit (needs MOD_LCTRL) _ r c v Hdeb Hr Hc Hold) as H1.
  pose proof (held_commit (needs MOD_LALT) _ r c v Hdeb Hr Hc Hold) as H2.
  pose proof (held_commit (needs MOD_LSHIFT) _ r c v Hdeb Hr Hc Hold) as H3.
  pose proof (held_range (needs MOD_LCTRL) (set (debounced s) r c v)) as R1.
  pose proof (held_range (needs MOD_LALT) (set (debounced s) r c v)) as R2.
  pose proof (held_range (needs MOD_LSHIFT) (set (debounced s) r c v)) as R3.
  pose proof (held_range (needs MOD_LCTRL) (debounced s)) as R1'.
  pose proof (held_range (needs MOD_LALT) (debounced s)) as R2'.
  pose proof (held_range (needs MOD_LSHIFT) (debounced s)) as R3'.
  rewrite <- Hc1 in H1, R1'. rewrite <- Hc2 in H2, R2'. rewrite <- Hc3 in H3, R3'.
  rewrite H1 in R1. rewrite H2 in R2. rewrite H3 in R3.
  clear H1 H2 H3 Hc1 Hc2 Hc3 Hpc Hled.
  unfold needs in *. unfold hostAgrees, dispatch.
  destruct v; [rewrite handleKeyPress_eq | rewrite handleKeyRelease_eq];
    cbv zeta; destruct (valid (keymapAt r c)); cbn [andb] in *; fields;
    try (split_and!; assumption).
  - (* press *)
    rewrite !isDown_app, !foldl_app, !hostStep_pressCalls by auto.
    rewrite Hd1, Hd2, Hd3.
    change (MODIFIERKEY_LEFT_CTRL =? MODIFIERKEY_LEFT_CTRL) with true.
    change (MODIFIERKEY_LEFT_ALT =? MODIFIERKEY_LEFT_CTRL) with false.
    change (MODIFIERKEY_LEFT_ALT =? MODIFIERKEY_LEFT_ALT) with true.
    change (MODIFIERKEY_LEFT_SHIFT =? MODIFIERKEY_LEFT_CTRL) with false.
    change (MODIFIERKEY_LEFT_SHIFT =? MODIFIERKEY_LEFT_ALT) with false.
    cbv iota.
    assert (Hbase : ∀ code d, isModifierKey code = true →
              foldl (hostStep code) d
                (if modifierOnly (keymapAt r c) then []
                 else [KPress (baseKey (keymapAt r c))]) = d).
    { intros code d Hcode. destruct (modifierOnly _); [done|].
      exact (hostStep_baseKey code r c d true Hcode). }
    rewrite !Hbase by reflexivity. clear Hbase. fields.
    destruct (hasMod (mods (keymapAt r c)) MOD_LCTRL),
      (hasMod (mods (keymapAt r c)) MOD_LALT),
      (hasMod (mods (keymapAt r c)) MOD_LSHIFT);
      split_and!; arith_cases.
  - (* release *)
    rewrite !isDown_app, !foldl_app, !hostStep_releaseCalls by auto.
    rewrite Hd1, Hd2, Hd3.
    change (MODIFIERKEY_LEFT_CTRL =? MODIFIERKEY_LEFT_CTRL) with true.
    change (MODIFIERKEY_LEFT_ALT =? MODIFIERKEY_LEFT_CTRL) with false.
    change (MODIFIERKEY_LEFT_ALT =? MODIFIERKEY_LEFT_ALT) with true.
    change (MODIFIERKEY_LEFT_SHIFT =? MODIFIERKEY_LEFT_CTRL) with false.
    change (MODIFIERKEY_LEFT_SHIFT =? MODIFIERKEY_LEFT_ALT) with false.
    cbv iota.
    assert (Hbase : ∀ code d, isModifierKey code = true →
              foldl (hostStep code) d
                (if modifierOnly (keymapAt r c) then []
                 else [KRelease (baseKey (keymapAt r c))]) = d).
    { intros code d Hcode. destruct (modifierOnly _); [done|].
      exact (hostStep_baseKey code r c d false Hcode). }
    rewrite !Hbase by reflexivity. clear Hbase. fields.
    destruct (hasMod (mods (keymapAt r c)) MOD_LCTRL),
      (hasMod (mods (keymapAt r c)) MOD_LALT),
      (hasMod (mods (keymapAt r c)) MOD_LSHIFT);
      split_and!; arith_cases.
Qed.

Lemma debounceCell_host now r c s :
  Inv s → hostAgrees s → (r < NUM_ROWS)%nat → (c < NUM_COLS)%nat →
  hostAgrees (debounceCell now r c s).
Proof.
  intros HI HA Hr Hc. rewrite debounceCell_eq by (done || apply HI). cbv zeta.
  set (v := get (rawState s) r c).
  set (s1 := if cellEdge s r c then _ else s).
  assert (H1 : Inv s1).
  { unfold s1. destruct (cellEdge s r c); [|done].
    destruct HI as ((Hraw & Hlast & Hdeb & Hchg) & HI).
    unfold Inv, wfState. fields. split_and!; try apply HI; try done;
      by apply wfGrid_set. }
  assert (H2 : hostAgrees s1).
  { unfold s1. destruct (cellEdge s r c); [|done]. exact HA. }
  assert (Hd : get (debounced s1) r c = get (debounced s) r c).
  { unfold s1. by destruct (cellEdge s r c). }
  destruct (cellCommits now s r c) eqn:E; [|done].
  apply commit_host; try done.
  rewrite Hd. unfold cellCommits in E. apply andb_prop in E as [E _].
  fold v in E. by destruct (get (debounced s) r c), v.
Qed.

Lemma keyboardScan_host now pins s :
  Inv s → hostAgrees s → hostAgrees (keyboardScan now pins s).
Proof.
  intros HI HA. unfold keyboardScan.
  refine (proj2 (forCells_preserves (λ s', Inv s' ∧ hostAgrees s') _ _ _ _)).
  - destruct HI as (Hwf & HI). unfold Inv, hostAgrees.
    destruct (sampleRows_frame pins s) as (_ & -> & _ & -> & -> & -> & -> & -> & -> & _).
    split; [split; [by apply sampleRows_wf | done] | exact HA].
  - intros r c s' Hr Hc [H1 H2].
    split; [by apply debounceCell_Inv | by apply debounceCell_host].
Qed.

Lemma keyboardReleaseAll_host s : hostAgrees (keyboardReleaseAll s).
Proof.
  rewrite keyboardReleaseAll_eq. generalize (releaseHeldKeys s). intros s1.
  cbv zeta. unfold hostAgrees. fields.
  rewrite !app_assoc, !isDown_app. cbn [foldl hostStep]. done.
Qed.

Lemma hostAgrees_initial : hostAgrees initial.
Proof. rewrite initial_boot. by vm_compute. Qed.

Lemma reachable_host s : reachable s → hostAgrees s.
Proof.
  induction 1 as [|s now pins Hs IH|s _ IH].
  - apply hostAgrees_initial.
  - apply keyboardScan_host; [by apply reachable_Inv | done].
  - apply keyboardReleaseAll_host.
Qed.

Lemma countCells_pos P :
  (0 < countCells P)%nat
  ↔ ∃ r c, (r < NUM_ROWS)%nat ∧ (c < NUM_COLS)%nat ∧ P r c = true.
Proof.
  unfold countCells. split.
  - intros Hlen.
    destruct (List.filter (λ rc, P rc.1 rc.2) cells) as [|[r c] k] eqn:E;
      [cbn in Hlen; lia|].
    assert (Hin : List.In (r, c) (List.filter (λ rc, P rc.1 rc.2) cells)).
    { rewrite E. by left. }
    apply List.filter_In in Hin as [Hin HP].
    apply list_elem_of_In, elem_of_cells in Hin. exists r, c. tauto.
  - intros (r & c & Hr & Hc & HP).
    assert (Hin : List.In (r, c) (List.filter (λ rc, P rc.1 rc.2) cells)).
    { apply List.filter_In. split; [|done].
      apply list_elem_of_In, elem_of_cells. done. }
    destruct (List.filter (λ rc, P rc.1 rc.2) cells); [destruct Hin | cbn; lia].
Qed.

Lemma held_pos bit s :
  0 < held (needs bit) (debounced s) ↔ heldNeeding bit s.
Proof.
  rewrite held_count. unfold heldNeeding.
  rewrite <- (Nat2Z.inj_lt 0), countCells_pos.
  split; intros (r & c & Hr & Hc & H); exists r, c.
  - apply andb_prop in H. tauto.
  - destruct H as [-> ->]. done.
Qed.

(** X2: in every state the program reaches, the calls sent to the keyboard
    object so far leave a modifier key down exactly when some key that is
    debounced-pressed is mapped to an action using that modifier.  So a
    modifier shared by overlapping chords stays down until the last of them
    is released, and no modifier is left stuck once the keys are up. *)
Theorem X2_modifier_down_while_needed s :
  reachable s →
  (isDown MODIFIERKEY_LEFT_CTRL (sent s) = true ↔ heldNeeding MOD_LCTRL s)
  ∧ (isDown MODIFIERKEY_LEFT_ALT (sent s) = true ↔ heldNeeding MOD_LALT s)
  ∧ (isDown MODIFIERKEY_LEFT_SHIFT (sent s) = true ↔ heldNeeding MOD_LSHIFT s).
Proof.
  intros Hs.
  destruct (reachable_host s Hs) as (H1 & H2 & H3).
  destruct (reachable_Inv s Hs) as (_ & _ & _ & E1 & E2 & E3).
  rewrite H1, H2, H3, <- !held_pos, <- E1, <- E2, <- E3.
  split_and!; apply Z.ltb_lt.
Qed.

Lemma X2_modifier_down_witness :
  isDown MODIFIERKEY_LEFT_ALT
    (sent (runScans [(0, pinsAt 1 0); (5, pinsAt 1 0)] initial)) = true
  ↔ heldNeeding MOD_LALT (runScans [(0, pinsAt 1 0); (5, pinsAt 1 0)] initial).
Proof.
  exact (proj1 (proj2 (X2_modifier_down_while_needed
           (runScans [(0, pinsAt 1 0); (5, pinsAt 1 0)] initial)
           (reachable_runScans _ _ reach_init)))).
Defined.

(** ** X3: presses and releases of a cell alternate *)

Lemma pairing_snoc l e : pairing (l ++ [e]) = pairStep (pairing l) e.
Proof. unfold pairing. by rewrite foldl_app. Qed.

Lemma cellNext_pairing now r c w :
  pairing (cvEvents w) = Some (cvDebounced w) →
  pairing (cvEvents (cellNext now r c w)) = Some (cvDebounced (cellNext now r c w)).
Proof.
  intros H. unfold cellNext. cbv zeta. cv.
  destruct (negb (eqb (cvDebounced w) (cvRaw w)) && _) eqn:E.
  - apply andb_prop in E as [E _]. rewrite pairing_snoc, H.
    by destruct (cvDebounced w), (cvRaw w).
  - by rewrite app_nil_r.
Qed.

Lemma keyboardScan_pairing now pins s r c :
  wfState s → (r < NUM_ROWS)%nat → (c < NUM_COLS)%nat →
  pairing (eventsAt r c (events s)) = Some (get (debounced s) r c) →
  pairing (eventsAt r c (events (keyboardScan now pins s)))
  = Some (get (debounced (keyboardScan now pins s)) r c).
Proof.
  intros Hwf Hr Hc H.
  pose proof (keyboardScan_cell now pins s r c Hwf Hr Hc) as Hv.
  pose proof (cellNext_pairing now r c (sampled (pins r c) (cellView r c s)) H) as Hn.
  revert Hv Hn. generalize (keyboardScan now pins s).
  generalize (cellNext now r c (sampled (pins r c) (cellView r c s))).
  intros w s' Hv Hn.
  pose proof (f_equal cvDebounced Hv) as Hd.
  pose proof (f_equal cvEvents Hv) as He.
  unfold cellView in Hd, He. cv_in Hd. cv_in He.
  rewrite Hd, He. exact Hn.
Qed.

(** What the release loop does to one cell. *)
Lemma releaseLoop_events (l : list (nat * nat)) s r c :
  NoDup l → (r, c) ∈ l → wfState s → (r < NUM_ROWS)%nat → (c < NUM_COLS)%nat →
  eventsAt r c (events (foldl (λ s' rc, releaseCell rc.1 rc.2 s') s l))
  = eventsAt r c (events s) ++ if get (debounced s) r c then [Released r c] else [].
Proof.
  intros Hnd Hin Hwf Hr Hc.
  pose proof (foldl_one_cell wfState
           (λ s', (get (debounced s') r c, eventsAt r c (events s')))
           (λ dE, (false, dE.2 ++ if dE.1 then [Released r c] else []))
           (λ s' rc, releaseCell rc.1 rc.2 s') (r, c) l s Hnd Hin Hwf) as H.
  cbv beta in H. cbn [fst snd] in H.
  assert (H1 : ∀ (y : nat * nat) s', wfState s' → wfState (releaseCell y.1 y.2 s')).
  { intros [r' c'] s' H'. by apply releaseCell_wf. }
  assert (H2 : ∀ (y : nat * nat) s', y ≠ (r, c) → wfState s' →
            (get (debounced (releaseCell y.1 y.2 s')) r c,
             eventsAt r c (events (releaseCell y.1 y.2 s')))
            = (get (debounced s') r c, eventsAt r c (events s'))).
  { intros [r' c'] s' Hne H'. cbn [fst snd].
    rewrite releaseCell_debounced_other by done. f_equal.
    rewrite releaseCell_eq. destruct (get (debounced s') r' c'); [|done].
    dispatch_out. rewrite eventsAt_app, (eventsAt_other r c r' c' false) by done.
    by rewrite app_nil_r. }
  assert (H3 : ∀ s', wfState s' →
            (get (debounced (releaseCell r c s')) r c,
             eventsAt r c (events (releaseCell r c s')))
            = (false, eventsAt r c (events s')
                      ++ if get (debounced s') r c then [Released r c] else [])).
  { intros s' H'. rewrite releaseCell_debounced_this by done. f_equal.
    rewrite releaseCell_eq. destruct (get (debounced s') r c); [|by rewrite app_nil_r].
    dispatch_out. by rewrite eventsAt_app, (eventsAt_eventFor r c false). }
  specialize (H H1 H2 H3). clear H1 H2 H3.
  apply (f_equal snd) in H. cbn [fst snd] in H. exact H.
Qed.

Lemma releaseHeldKeys_cell s r c :
  wfState s → (r < NUM_ROWS)%nat → (c < NUM_COLS)%nat →
  get (debounced (releaseHeldKeys s)) r c = false
  ∧ eventsAt r c (events (releaseHeldKeys s))
    = eventsAt r c (events s) ++ if get (debounced s) r c then [Released r c] else [].
Proof.
  intros Hwf Hr Hc. split; [by apply releaseHeldKeys_clears|].
  rewrite releaseHeldKeys_cells, forCells_cells.
  exact (releaseLoop_events cells s r c NoDup_cells
           (proj2 (elem_of_cells r c) (conj Hr Hc)) Hwf Hr Hc).
Qed.

Lemma keyboardReleaseAll_pairing s r c :
  wfState s → (r < NUM_ROWS)%nat → (c < NUM_COLS)%nat →
  pairing (eventsAt r c (events s)) = Some (get (debounced s) r c) →
  pairing (eventsAt r c (events (keyboardReleaseAll s)))
  = Some (get (debounced (keyboardReleaseAll s)) r c).
Proof.
  intros Hwf Hr Hc H. rewrite keyboardReleaseAll_eq.
  destruct (releaseHeldKeys_cell s r c Hwf Hr Hc) as [Hd He]. revert Hd He.
  generalize (releaseHeldKeys s). intros s1 Hd He. cbv zeta. fields.
  rewrite Hd, He. destruct (get (debounced s) r c).
  - by rewrite pairing_snoc, H.
  - by rewrite app_nil_r.
Qed.

(** X3: in every state the program reaches, the handler invocations of one
    matrix position strictly alternate, starting with a press, and the last
    one is a press exactly when the position is debounced-pressed:
    no key is pressed twice without a release in between, none is released
    that was not pressed, also when full releases come in between. *)
Theorem X3_press_release_alternate s r c :
  reachable s → (r < NUM_ROWS)%nat → (c < NUM_COLS)%nat →
  pairing (eventsAt r c (events s)) = Some (get (debounced s) r c).
Proof.
  intros Hs Hr Hc. induction Hs as [|s now pins Hs IH|s Hs IH].
  - rewrite initial_boot. unfold boot. fields. unfold get.
    by rewrite !lookup_total_replicate_2.
  - apply keyboardScan_pairing; [apply reachable_Inv, Hs | done ..].
  - apply keyboardReleaseAll_pairing; [apply reachable_Inv, Hs | done ..].
Qed.

Lemma X3_press_release_witness :
  pairing (eventsAt 0 0 (events (keyboardReleaseAll
             (runScans [(0, pinsAt 0 0); (5, pinsAt 0 0)] initial))))
  = Some (get (debounced (keyboardReleaseAll
             (runScans [(0, pinsAt 0 0); (5, pinsAt 0 0)] initial))) 0 0).
Proof.
  apply (X3_press_release_alternate _ 0 0
           (reach_releaseAll _ (reachable_runScans _ _ reach_init)));
    unfold NUM_ROWS, NUM_COLS; lia.
Defined.

(** ** X4: the events of one scan cycle *)

Lemma flat_map_ext_elem {A B} (f g : A → list B) (l : list A) :
  (∀ x, x ∈ l → f x = g x) → flat_map f l = flat_map g l.
Proof.
  induction l as [|x l IH]; intros H; [done|].
  cbn. rewrite (H x) by left. rewrite IH; [done|].
  intros y Hy. apply H. by right.
Qed.

Lemma debounceCell_events now r c s :
  wfState s → (r < NUM_ROWS)%nat → (c < NUM_COLS)%nat →
  events (debounceCell now r c s)
  = events s ++ if cellCommits now s r c
                then [eventFor r c (get (rawState s) r c)] else [].
Proof.
  intros Hwf Hr Hc. rewrite debounceCell_eq by done. cbv zeta.
  destruct (cellCommits now s r c).
  - dispatch_out. fields. by destruct (cellEdge s r c).
  - rewrite app_nil_r. by destruct (cellEdge s r c).
Qed.

Lemma cellCommits_view now s s' r c :
  cellView r c s' = cellView r c s →
  cellCommits now s' r c = cellCommits now s r c
  ∧ get (rawState s') r c = get (rawState s) r c.
Proof.
  intros Hv.
  pose proof (f_equal cvRaw Hv) as H1. pose proof (f_equal cvLastRaw Hv) as H2.
  pose proof (f_equal cvDebounced Hv) as H3. pose proof (f_equal cvLastChange Hv) as H4.
  unfold cellView in H1, H2, H3, H4. cv_in H1. cv_in H2. cv_in H3. cv_in H4.
  unfold cellCommits, cellTimer, cellEdge. by rewrite H1, H2, H3, H4.
Qed.

(** The events a pass of the commit checks over the cells [l] adds. *)
Lemma debouncePass_events now (l : list (nat * nat)) s :
  NoDup l → (∀ rc, rc ∈ l → (rc.1 < NUM_ROWS)%nat ∧ (rc.2 < NUM_COLS)%nat) →
  wfState s →
  events (foldl (λ s' rc, debounceCell now rc.1 rc.2 s') s l)
  = events s ++ flat_map (λ rc, if cellCommits now s rc.1 rc.2
                                then [eventFor rc.1 rc.2 (get (rawState s) rc.1 rc.2)]
                                else []) l.
Proof.
  revert s. induction l as [|[r c] l IH]; intros s Hnd Hin Hwf.
  - cbn. by rewrite app_nil_r.
  - apply NoDup_cons in Hnd as [Hy Hnd].
    destruct (Hin (r, c)) as [Hr Hc]; [left|]. cbn [fst snd] in Hr, Hc.
    cbn [foldl flat_map fst snd].
    rewrite IH; [| done | intros rc Hrc; apply Hin; by right
                 | by apply debounceCell_wf].
    rewrite debounceCell_events by done. rewrite <- app_assoc. do 2 f_equal.
    apply flat_map_ext_elem. intros [r' c'] Hrc. cbn [fst snd].
    assert (Hne : (r, c) ≠ (r', c')) by (intros [= -> ->]; done).
    destruct (cellCommits_view now s (debounceCell now r c s) r' c'
                (debounceCell_other now r' c' r c s Hne)) as [-> ->].
    done.
Qed.

(** X4: a scan cycle raises an event for exactly the cells whose sample
    differs from the debounced value and has been stable for the debounce
    interval, one event each, rows in ascending order and columns in
    ascending order within a row. *)
Theorem X4_scan_events_row_major now pins s :
  wfState s →
  events (keyboardScan now pins s) = events s ++ firedEvents now pins s cells.
Proof.
  intros Hwf. unfold keyboardScan. rewrite forCells_cells.
  pose proof (sampleRows_wf pins s Hwf) as Hwf1.
  assert (Hget : ∀ r c, (r < NUM_ROWS)%nat → (c < NUM_COLS)%nat →
            get (rawState (sampleRows pins s)) r c = pins r c).
  { intros r c Hr Hc. apply sampleRows_get; [apply Hwf | done | done]. }
  destruct (sampleRows_frame pins s)
    as (Hl & Hd & Hc & _ & _ & _ & _ & _ & _ & He).
  revert Hwf1 Hget Hl Hd Hc He. generalize (sampleRows pins s).
  intros s1 Hwf1 Hget Hl Hd Hc He.
  rewrite (debouncePass_events now cells s1 NoDup_cells); [| | done].
  - rewrite He. f_equal. unfold firedEvents.
    apply flat_map_ext_elem. intros [r c] Hrc%elem_of_cells.
    cbn [fst snd]. unfold cellCommits, cellFires, cellTimer, cellEdge.
    rewrite Hl, Hd, Hc, Hget by tauto. done.
  - intros [r c] Hrc%elem_of_cells. done.
Qed.

(** The switches at (1,0) and (0,1) close at time 0; the cycle at time 5
    commits both, (0,1) first. *)
Lemma X4_scan_events_witness :
  let pins := λ r c, pinsAt 1 0 r c || pinsAt 0 1 r c in
  let s := keyboardScan 0 pins boot in
  events (keyboardScan 5 pins s) = events s ++ firedEvents 5 pins s cells
  ∧ events s = []
  ∧ firedEvents 5 pins s cells = [Pressed 0 1; Pressed 1 0].
Proof.
  split; [|by vm_compute].
  exact (X4_scan_events_row_major 5 (λ r c, pinsAt 1 0 r c || pinsAt 0 1 r c)
           (keyboardScan 0 (λ r c, pinsAt 1 0 r c || pinsAt 0 1 r c) boot)
           (keyboardScan_wf 0 _ boot wfState_boot)).
Defined.

(** ** X5: the debounce interval across the wrap of [millis()] *)

Lemma wrap32_elapsed t0 d :
  0 ≤ t0 < 4294967296 → 0 ≤ d < 4294967296 →
  wrap32 (wrap32 (t0 + d) - t0) = d.
Proof. intros H0 Hd. unfold wrap32. Z.div_mod_to_equations. lia. Qed.

(** X5: the time a sample has been stable for is measured correctly when
    the 32-bit millisecond counter wraps around in between: if the raw value
    of a cell last changed at time [t0] and the cycle runs [d] milliseconds
    later (less than 2^32, whatever [t0]), a sample that differs from the
    debounced value is committed exactly when [d] is at least the debounce
    interval. *)
Theorem X5_debounce_across_timer_wrap s r c pins t0 d :
  wfState s → (r < NUM_ROWS)%nat → (c < NUM_COLS)%nat →
  get (lastChange s) r c = t0 → 0 ≤ t0 < 4294967296 → 0 ≤ d < 4294967296 →
  get (lastRaw s) r c = pins r c → get (debounced s) r c = negb (pins r c) →
  get (debounced (keyboardScan (wrap32 (t0 + d)) pins s)) r c
  = (if DEBOUNCE_MS <=? d then pins r c else negb (pins r c))
  ∧ eventsAt r c (events (keyboardScan (wrap32 (t0 + d)) pins s))
    = eventsAt r c (events s)
      ++ (if DEBOUNCE_MS <=? d then [eventFor r c (pins r c)] else []).
Proof.
  intros Hwf Hr Hc Ht H0 Hd Hl Hdeb.
  pose proof (keyboardScan_cell (wrap32 (t0 + d)) pins s r c Hwf Hr Hc) as Hv.
  revert Hv. generalize (keyboardScan (wrap32 (t0 + d)) pins s). intros s' Hv.
  pose proof (f_equal cvDebounced Hv) as H1.
  pose proof (f_equal cvEvents Hv) as H2.
  unfold cellView, cellNext, sampled in H1, H2. cv_in H1. cv_in H2.
  rewrite Hl, Hdeb, Ht in H1, H2.
  assert (E1 : eqb (pins r c) (pins r c) = true) by by destruct (pins r c).
  assert (E2 : eqb (negb (pins r c)) (pins r c) = false) by by destruct (pins r c).
  rewrite E1, E2 in H1, H2. cbn [negb andb] in H1, H2.
  rewrite (wrap32_elapsed t0 d H0 Hd) in H1, H2. by rewrite H1, H2.
Qed.

Lemma X5_debounce_across_wrap_witness :
  get (debounced (keyboardScan (wrap32 (4294967294 + 5)) (pinsAt 0 0)
         (set_lastChange (set (lastChange boot) 0 0 4294967294)
            (set_lastRaw (set (lastRaw boot) 0 0 true) boot)))) 0 0
  = true.
Proof.
  refine (proj1 (X5_debounce_across_timer_wrap
           (set_lastChange (set (lastChange boot) 0 0 4294967294)
              (set_lastRaw (set (lastRaw boot) 0 0 true) boot))
           0 0 (pinsAt 0 0) 4294967294 5 _ _ _ _ _ _ _ _)).
  - unfold wfState, wfGrid, boot. fields. vm_compute.
    split_and!; first [reflexivity | repeat constructor].
  - unfold NUM_ROWS. lia.
  - unfold NUM_COLS. lia.
  - by vm_compute.
  - lia.
  - lia.
  - by vm_compute.
  - by vm_compute.
Defined.

(** ** X6: a scan cycle that sees nothing new *)

Lemma set_get_id {T} `{!Inhabited T} (g : Grid T) r c :
  wfGrid g → (r < NUM_ROWS)%nat → (c < NUM_COLS)%nat → set g r c (get g r c) = g.
Proof.
  intros [Hlen Hrows] Hr Hc. unfold set, get.
  assert (Hrow : g !! r = Some (g !!! r)).
  { apply list_lookup_lookup_total_lt. by rewrite Hlen. }
  assert (Hcol : (g !!! r) !! c = Some ((g !!! r) !!! c)).
  { apply list_lookup_lookup_total_lt.
    rewrite Forall_forall in Hrows. rewrite (Hrows (g !!! r)); [done|].
    by eapply list_elem_of_lookup_2. }
  rewrite (list_insert_id _ _ _ Hcol). by apply list_insert_id.
Qed.

Lemma set_rawState_id s : set_rawState (rawState s) s = s.
Proof. by destruct s. Qed.

(** X6: a scan cycle in which every sample equals the raw value, the
    previous raw value and the debounced value of its cell leaves the whole
    state as it is, at whatever time it runs: no timer is restarted, no event
    is raised and nothing is sent. *)
Theorem X6_steady_scan_changes_nothing now pins s :
  wfState s →
  (∀ r c, (r < NUM_ROWS)%nat → (c < NUM_COLS)%nat →
          get (rawState s) r c = pins r c ∧ get (lastRaw s) r c = pins r c
          ∧ get (debounced s) r c = pins r c) →
  keyboardScan now pins s = s.
Proof.
  intros Hwf Hsame. unfold keyboardScan.
  assert (Hsample : sampleRows pins s = s).
  { unfold sampleRows. apply (forCells_preserves (λ s', s' = s)); [done|].
    intros r c s' Hr Hc ->. destruct (Hsame r c Hr Hc) as (<- & _).
    rewrite set_get_id by (done || apply Hwf). apply set_rawState_id. }
  rewrite Hsample.
  apply (forCells_preserves (λ s', s' = s)); [done|].
  intros r c s' Hr Hc ->. destruct (Hsame r c Hr Hc) as (H1 & H2 & H3).
  unfold debounceCell. rewrite H1, H2. cbv zeta.
  assert (E : eqb (pins r c) (pins r c) = true) by by destruct (pins r c).
  rewrite E. cbn [negb]. rewrite H3, E. done.
Qed.

Lemma X6_steady_scan_witness : keyboardScan 1000 pinsNone boot = boot.
Proof.
  apply (X6_steady_scan_changes_nothing 1000 pinsNone boot wfState_boot).
  intros r c Hr Hc. unfold boot, get, pinsNone. fields.
  by rewrite !lookup_total_replicate_2.
Defined.

(** ** Initialisation of the arrays *)

Ltac fields_in H :=
  cbn [rawState lastRaw debounced lastChange refCtrl refAlt refShift
       pressedCount led sent events
       set_rawState set_lastRaw set_debounced set_lastChange set_refCtrl
       set_refAlt set_refShift set_pressedCount set_led set_sent set_events] in H.

Lemma grid_ext {T} `{!Inhabited T} (g g' : Grid T) :
  wfGrid g → wfGrid g' →
  (∀ r c, (r < NUM_ROWS)%nat → (c < NUM_COLS)%nat → get g r c = get g' r c) →
  g = g'.
Proof.
  intros [Hlen Hrows] [Hlen' Hrows'] Hget.
  apply (list_eq_same_length _ _ NUM_ROWS); [done | done |].
  intros r row row' Hr Hrow Hrow'.
  rewrite Forall_forall in Hrows, Hrows'.
  apply (list_eq_same_length _ _ NUM_COLS).
  - apply Hrows'. by eapply list_elem_of_lookup_2.
  - apply Hrows. by eapply list_elem_of_lookup_2.
  - intros c x x' Hc Hx Hx'. specialize (Hget r c Hr Hc). unfold get in Hget.
    rewrite (list_lookup_total_correct _ _ _ Hrow),
      (list_lookup_total_correct _ _ _ Hrow'),
      (list_lookup_total_correct _ _ _ Hx),
      (list_lookup_total_correct _ _ _ Hx') in Hget.
    exact Hget.
Qed.

Lemma wfGrid_replicate {T} (v : T) : wfGrid (replicate NUM_ROWS (replicate NUM_COLS v)).
Proof. split; [reflexivity | by apply Forall_replicate]. Qed.

Lemma get_replicate {T} `{!Inhabited T} (v : T) r c :
  (r < NUM_ROWS)%nat → (c < NUM_COLS)%nat →
  get (replicate NUM_ROWS (replicate NUM_COLS v)) r c = v.
Proof. intros Hr Hc. unfold get. by rewrite !lookup_total_replicate_2. Qed.

(** The body of the loop of lines 241-248. *)
Lemma keyboardInit_cells s :
  keyboardInit s
  = foldl (λ s' rc,
       set_lastChange (set (lastChange s') rc.1 rc.2 0)
         (set_debounced (set (debounced s') rc.1 rc.2 false)
            (set_lastRaw (set (lastRaw s') rc.1 rc.2 false)
               (set_rawState (set (rawState s') rc.1 rc.2 false) s'))))
      (set_led false s) cells.
Proof. unfold keyboardInit. cbv zeta. by rewrite forCells_cells. Qed.

Lemma initLoop_cell (l : list (nat * nat)) s r c :
  NoDup l → (r, c) ∈ l → wfState s → (r < NUM_ROWS)%nat → (c < NUM_COLS)%nat →
  cellView r c
    (foldl (λ s' rc,
       set_lastChange (set (lastChange s') rc.1 rc.2 0)
         (set_debounced (set (debounced s') rc.1 rc.2 false)
            (set_lastRaw (set (lastRaw s') rc.1 rc.2 false)
               (set_rawState (set (rawState s') rc.1 rc.2 false) s')))) s l)
  = mkCellView false false false 0 (eventsAt r c (events s)).
Proof.
  intros Hnd Hin Hwf Hr Hc.
  apply (foldl_one_cell wfState (cellView r c)
           (λ w, mkCellView false false false 0 (cvEvents w)) _ (r, c));
    try done.
  - intros [r' c'] s' (H1 & H2 & H3 & H4). unfold wfState. fields.
    split_and!; by apply wfGrid_set.
  - intros [r' c'] s' Hne _. unfold cellView. fields. cbn [fst snd].
    by rewrite !get_set_ne.
  - intros s' (H1 & H2 & H3 & H4). unfold cellView. fields. cbn [fst snd]. cv.
    by rewrite !get_set_eq.
Qed.

Lemma initLoop_frame (l : list (nat * nat)) s :
  wfState s →
  let s1 := foldl (λ s' rc,
       set_lastChange (set (lastChange s') rc.1 rc.2 0)
         (set_debounced (set (debounced s') rc.1 rc.2 false)
            (set_lastRaw (set (lastRaw s') rc.1 rc.2 false)
               (set_rawState (set (rawState s') rc.1 rc.2 false) s')))) s l in
  wfState s1 ∧ refCtrl s1 = refCtrl s ∧ refAlt s1 = refAlt s ∧ refShift s1 = refShift s
  ∧ pressedCount s1 = pressedCount s ∧ led s1 = led s ∧ sent s1 = sent s
  ∧ events s1 = events s.
Proof.
  intros Hwf. cbv zeta.
  apply (foldl_preserves (λ s1, wfState s1 ∧ refCtrl s1 = refCtrl s
    ∧ refAlt s1 = refAlt s ∧ refShift s1 = refShift s
    ∧ pressedCount s1 = pressedCount s ∧ led s1 = led s ∧ sent s1 = sent s
    ∧ events s1 = events s)); [done|].
  intros [r c] s' _ ((H1 & H2 & H3 & H4) & H). unfold wfState. fields.
  split; [split_and!; by apply wfGrid_set | exact H].
Qed.

(** What [keyboardInit] does to the keyboard side. *)
Lemma keyboardInit_eq s :
  wfState s →
  keyboardInit s
  = mkState (replicate NUM_ROWS (replicate NUM_COLS false))
            (replicate NUM_ROWS (replicate NUM_COLS false))
            (replicate NUM_ROWS (replicate NUM_COLS false))
            (replicate NUM_ROWS (replicate NUM_COLS 0))
            (refCtrl s) (refAlt s) (refShift s) (pressedCount s) false
            (sent s) (events s).
Proof.
  intros Hwf. rewrite keyboardInit_cells.
  assert (Hwf0 : wfState (set_led false s)) by exact Hwf.
  pose proof (initLoop_frame cells (set_led false s) Hwf0) as Hframe.
  pose proof (λ r c Hr Hc, initLoop_cell cells (set_led false s) r c NoDup_cells
                (proj2 (elem_of_cells r c) (conj Hr Hc)) Hwf0 Hr Hc) as Hcell.
  cbv zeta in Hframe. revert Hframe Hcell.
  generalize (foldl (λ s' rc,
       set_lastChange (set (lastChange s') rc.1 rc.2 0)
         (set_debounced (set (debounced s') rc.1 rc.2 false)
            (set_lastRaw (set (lastRaw s') rc.1 rc.2 false)
               (set_rawState (set (rawState s') rc.1 rc.2 false) s'))))
      (set_led false s) cells).
  intros s1 ((H1 & H2 & H3 & H4) & E1 & E2 & E3 & E4 & E5 & E6 & E7) Hcell.
  destruct s1 as [g1 g2 g3 g4 ? ? ? ? ? ? ?]. fields_in E1. fields_in E2.
  fields_in E3. fields_in E4. fields_in E5. fields_in E6. fields_in E7.
  fields_in H1. fields_in H2. fields_in H3. fields_in H4.
  subst. f_equal.
  - apply grid_ext; [done | apply wfGrid_replicate |]. intros r c Hr Hc.
    rewrite get_replicate by done. exact (f_equal cvRaw (Hcell r c Hr Hc)).
  - apply grid_ext; [done | apply wfGrid_replicate |]. intros r c Hr Hc.
    rewrite get_replicate by done. exact (f_equal cvLastRaw (Hcell r c Hr Hc)).
  - apply grid_ext; [done | apply wfGrid_replicate |]. intros r c Hr Hc.
    rewrite get_replicate by done. exact (f_equal cvDebounced (Hcell r c Hr Hc)).
  - apply grid_ext; [done | apply wfGrid_replicate |]. intros r c Hr Hc.
    rewrite get_replicate by done. exact (f_equal cvLastChange (Hcell r c Hr Hc)).
Qed.

(** ** X8: no key is left down *)

Lemma hostStep_pressCalls_other k m s d :
  notLedgerKey k → foldl (hostStep k) d (pressCalls m s) = d.
Proof.
  intros (H1 & H2 & H3). unfold pressCalls.
  apply Z.eqb_neq in H1, H2, H3. rewrite Z.eqb_sym in H1, H2, H3.
  destruct (hasMod m MOD_LCTRL && _), (hasMod m MOD_LALT && _),
    (hasMod m MOD_LSHIFT && _); cbn [app foldl hostStep];
    by rewrite ?H1, ?H2, ?H3.
Qed.

Lemma hostStep_releaseCalls_other k m s d :
  notLedgerKey k → foldl (hostStep k) d (releaseCalls m s) = d.
Proof.
  intros (H1 & H2 & H3). unfold releaseCalls.
  apply Z.eqb_neq in H1, H2, H3. rewrite Z.eqb_sym in H1, H2, H3.
  destruct (hasMod m MOD_LCTRL && _ && _), (hasMod m MOD_LALT && _ && _),
    (hasMod m MOD_LSHIFT && _ && _); cbn [app foldl hostStep];
    by rewrite ?H1, ?H2, ?H3.
Qed.

Lemma heldWithBase_mono k (g g' : Grid bool) :
  (∀ r c, (r < NUM_ROWS)%nat → (c < NUM_COLS)%nat →
          valid (keymapAt r c) = true → modifierOnly (keymapAt r c) = false →
          baseKey (keymapAt r c) = k → get g r c = true → get g' r c = true) →
  heldWithBase k g → heldWithBase k g'.
Proof.
  intros Hmono (r & c & Hr & Hc & Hg & Hv & Hm & Hb). exists r, c.
  split_and!; try done. by apply Hmono.
Qed.

Lemma get_set_true (g : Grid bool) r c r' c' :
  wfGrid g → (r < NUM_ROWS)%nat → (c < NUM_COLS)%nat →
  get g r' c' = true → get (set g r c true) r' c' = true.
Proof.
  intros Hwf Hr Hc Hg. destruct (decide ((r, c) = (r', c'))) as [[= <- <-]|Hne].
  - by apply get_set_eq.
  - by rewrite get_set_ne.
Qed.

(** A commit keeps every key that is down backed by a pressed cell. *)
Lemma commit_noStuck r c v s :
  wfGrid (debounced s) → (r < NUM_ROWS)%nat → (c < NUM_COLS)%nat →
  noStuckKey s →
  noStuckKey (dispatch r c v (set_debounced (set (debounced s) r c v) s)).
Proof.
  intros Hwf Hr Hc IH k Hk. unfold dispatch.
  destruct v; [rewrite handleKeyPress_eq | rewrite handleKeyRelease_eq];
    cbv zeta; destruct (valid (keymapAt r c)) eqn:Hv; fields.
  - (* press of a mapped cell *)
    rewrite !isDown_app, !foldl_app, hostStep_pressCalls_other by done.
    destruct (modifierOnly (keymapAt r c)) eqn:Hm; cbn [foldl hostStep].
    + intros Hdown. apply (heldWithBase_mono k (debounced s)); [|by apply IH].
      intros r' c' _ _ _ _ _. by apply get_set_true.
    + destruct (Z.eqb_spec (baseKey (keymapAt r c)) k) as [Hb|Hb]; intros Hdown.
      * exists r, c. split_and!; try done. by apply get_set_eq.
      * apply (heldWithBase_mono k (debounced s)); [|by apply IH].
        intros r' c' _ _ _ _ _. by apply get_set_true.
  - (* press of an empty cell *)
    intros Hdown. apply (heldWithBase_mono k (debounced s)); [|by apply IH].
    intros r' c' _ _ _ _ _. by apply get_set_true.
  - (* release of a mapped cell *)
    rewrite !isDown_app, !foldl_app, hostStep_releaseCalls_other by done.
    intros Hdown.
    assert (Hdown' : isDown k (sent s) = true
                     ∧ (modifierOnly (keymapAt r c) = false →
                        baseKey (keymapAt r c) ≠ k)).
    { destruct (modifierOnly (keymapAt r c)); cbn [foldl hostStep] in Hdown;
        [done|].
      destruct (Z.eqb_spec (baseKey (keymapAt r c)) k); [done|]. done. }
    destruct Hdown' as [Hd Hne].
    apply (heldWithBase_mono k (debounced s)); [|by apply IH].
    intros r' c' _ _ _ Hm' Hb' Hg. rewrite get_set_ne; [done|].
    intros [= -> ->]. by apply Hne.
  - (* release of an empty cell *)
    intros Hdown. apply (heldWithBase_mono k (debounced s)); [|by apply IH].
    intros r' c' _ _ Hv' _ _ Hg. rewrite get_set_ne; [done|].
    intros [= -> ->]. congruence.
Qed.

Lemma debounceCell_noStuck now r c s :
  wfState s → noStuckKey s → (r < NUM_ROWS)%nat → (c < NUM_COLS)%nat →
  noStuckKey (debounceCell now r c s).
Proof.
  intros Hwf HA Hr Hc. rewrite debounceCell_eq by done. cbv zeta.
  set (v := get (rawState s) r c).
  set (s1 := if cellEdge s r c then _ else s).
  assert (H1 : wfGrid (debounced s1)).
  { unfold s1. destruct (cellEdge s r c); apply Hwf. }
  assert (H2 : noStuckKey s1).
  { unfold s1. destruct (cellEdge s r c); [|done]. exact HA. }
  destruct (cellCommits now s r c); [|done].
  by apply commit_noStuck.
Qed.

Lemma keyboardScan_noStuck now pins s :
  wfState s → noStuckKey s → noStuckKey (keyboardScan now pins s).
Proof.
  intros Hwf HA. unfold keyboardScan.
  refine (proj2 (forCells_preserves (λ s', wfState s' ∧ noStuckKey s') _ _ _ _)).
  - split; [by apply sampleRows_wf|]. unfold noStuckKey.
    by destruct (sampleRows_frame pins s) as (_ & -> & _ & _ & _ & _ & _ & _ & -> & _).
  - intros r c s' Hr Hc [H1 H2].
    split; [by apply debounceCell_wf | by apply debounceCell_noStuck].
Qed.

Lemma keyboardReleaseAll_noStuck s : noStuckKey (keyboardReleaseAll s).
Proof.
  rewrite keyboardReleaseAll_eq. generalize (releaseHeldKeys s). intros s1.
  cbv zeta. unfold noStuckKey. fields. intros k _.
  rewrite !app_assoc, !isDown_app. cbn [foldl hostStep]. done.
Qed.

Lemma noStuckKey_initial : noStuckKey initial.
Proof. rewrite initial_boot. intros k _. unfold boot. fields. done. Qed.

Lemma reachable_noStuck s : reachable s → noStuckKey s.
Proof.
  induction 1 as [|s now pins Hs IH|s _ IH].
  - apply noStuckKey_initial.
  - apply keyboardScan_noStuck; [apply reachable_Inv, Hs | done].
  - apply keyboardReleaseAll_noStuck.
Qed.

Lemma baseKey_notLedgerKey r c : notLedgerKey (baseKey (keymapAt r c)).
Proof.
  pose proof (keymap_baseKey_not_modifier r c) as H.
  split_and!; intros E; rewrite E in H; discriminate H.
Qed.

(** X8: in every state the program reaches, a key other than the three
    modifiers of the ledger that the calls sent so far leave down is the base
    key of some cell that is debounced-pressed: no key stays down on the
    host after all the cells mapped to it have been released.  The converse
    does not hold, because base keys are not counted: the release handler of
    a cell lifts its base key whatever else is held, also when another
    pressed cell is mapped to the same key. *)
Theorem X8_no_stuck_base_key :
  (∀ s k, reachable s → notLedgerKey k → isDown k (sent s) = true →
          heldWithBase k (debounced s))
  ∧ (∀ s r c, valid (keymapAt r c) = true → modifierOnly (keymapAt r c) = false →
              isDown (baseKey (keymapAt r c)) (sent (handleKeyRelease r c s)) = false).
Proof.
  split.
  - intros s k Hs. exact (reachable_noStuck s Hs k).
  - intros s r c Hv Hm. rewrite handleKeyRelease_eq. cbv zeta. rewrite Hv, Hm. fields.
    rewrite !isDown_app, !foldl_app,
      (hostStep_releaseCalls_other _ _ _ _ (baseKey_notLedgerKey r c)).
    cbn [foldl hostStep]. by rewrite Z.eqb_refl.
Qed.

Lemma X8_no_stuck_witness :
  heldWithBase (char16 "f")
    (debounced (runScans [(0, pinsAt 1 0); (5, pinsAt 1 0)] initial)).
Proof.
  apply (proj1 X8_no_stuck_base_key _ (char16 "f")
           (reachable_runScans _ _ reach_init)).
  - unfold notLedgerKey. by vm_compute.
  - by vm_compute.
Defined.

(** ** X9: the release loop lifts every key *)

Lemma releaseCell_good r c s :
  (r < NUM_ROWS)%nat → (c < NUM_COLS)%nat →
  Inv s ∧ hostAgrees s ∧ noStuckKey s →
  Inv (releaseCell r c s) ∧ hostAgrees (releaseCell r c s)
  ∧ noStuckKey (releaseCell r c s).
Proof.
  intros Hr Hc (HI & HA & HN).
  split; [by apply releaseCell_Inv|]. rewrite releaseCell_eq.
  destruct (get (debounced s) r c) eqn:E; [|done]. split.
  - by apply commit_host.
  - apply commit_noStuck; try done. apply HI.
Qed.

Lemma releaseHeldKeys_good s :
  Inv s ∧ hostAgrees s ∧ noStuckKey s →
  Inv (releaseHeldKeys s) ∧ hostAgrees (releaseHeldKeys s)
  ∧ noStuckKey (releaseHeldKeys s).
Proof.
  intros H. rewrite releaseHeldKeys_cells.
  apply (forCells_preserves (λ s', Inv s' ∧ hostAgrees s' ∧ noStuckKey s')); [done|].
  intros r c s' Hr Hc H'. by apply releaseCell_good.
Qed.

Lemma releaseHeldKeys_lifts s k :
  reachable s → isDown k (sent (releaseHeldKeys s)) = false.
Proof.
  intros Hs.
  destruct (releaseHeldKeys_good s
              (conj (reachable_Inv s Hs)
                 (conj (reachable_host s Hs) (reachable_noStuck s Hs))))
    as ((_ & _ & _ & E1 & E2 & E3) & (H1 & H2 & H3) & HN).
  assert (Hclear : ∀ r c, (r < NUM_ROWS)%nat → (c < NUM_COLS)%nat →
                          get (debounced (releaseHeldKeys s)) r c = false).
  { intros r c Hr Hc. apply releaseHeldKeys_clears; [apply (reachable_Inv s Hs) | done ..]. }
  revert E1 E2 E3 H1 H2 H3 HN Hclear. generalize (releaseHeldKeys s).
  intros s1 E1 E2 E3 H1 H2 H3 HN Hclear.
  rewrite (held_none (needs MOD_LCTRL) (debounced s1) Hclear) in E1.
  rewrite (held_none (needs MOD_LALT) (debounced s1) Hclear) in E2.
  rewrite (held_none (needs MOD_LSHIFT) (debounced s1) Hclear) in E3.
  rewrite E1 in H1. rewrite E2 in H2. rewrite E3 in H3.
  destruct (decide (k = MODIFIERKEY_LEFT_CTRL)) as [->|N1]; [exact H1|].
  destruct (decide (k = MODIFIERKEY_LEFT_ALT)) as [->|N2]; [exact H2|].
  destruct (decide (k = MODIFIERKEY_LEFT_SHIFT)) as [->|N3]; [exact H3|].
  destruct (isDown k (sent s1)) eqn:E; [|done].
  destruct (HN k (conj N1 (conj N2 N3)) E) as (r & c & Hr & Hc & Hg & _).
  rewrite Hclear in Hg by done. discriminate Hg.
Qed.

(** X9: from every state the program reaches, the per-cell releases of a
    full release already leave no key down: each held key and each modifier
    in use has been released by its own call before the transport's
    release-all is sent. *)
Theorem X9_release_loop_lifts_every_key s k :
  reachable s → isDown k (sent (releaseHeldKeys s)) = false.
Proof. intros Hs. by apply releaseHeldKeys_lifts. Qed.

Lemma X9_release_loop_witness :
  isDown MODIFIERKEY_LEFT_ALT
    (sent (releaseHeldKeys (runScans [(0, pinsAt 1 0); (5, pinsAt 1 0)] initial)))
  = false.
Proof.
  exact (X9_release_loop_lifts_every_key _ MODIFIERKEY_LEFT_ALT
           (reachable_runScans _ _ reach_init)).
Defined.

(** * The calls, handler by handler *)

(** ** What a loop sends is what the handlers send *)

Lemma dispatch_handle r c v s : dispatch r c v s = handle s (eventFor r c v).
Proof. by destruct v. Qed.

(** The handlers read and write nothing but the ledger, Pressed Count, the
    LED and the calls. *)
Lemma handle_outputs a b e :
  outputs a = outputs b → outputs (handle a e) = outputs (handle b e).
Proof.
  intros H. unfold outputs in H. inversion H as [[H1 H2 H3 H4 H5 H6]]. clear H.
  destruct e as [r c|r c]; cbn [handle];
    [rewrite !handleKeyPress_eq | rewrite !handleKeyRelease_eq]; cbv zeta;
    destruct (valid (keymapAt r c)); unfold outputs; fields;
    unfold pressCalls, releaseCalls; by rewrite H1, H2, H3, H4, H5, H6.
Qed.

Lemma foldl_handle_outputs a b E :
  outputs a = outputs b → outputs (foldl handle a E) = outputs (foldl handle b E).
Proof.
  revert a b. induction E as [|e E IH]; intros a b H; [done|].
  cbn [foldl]. by apply IH, handle_outputs.
Qed.

Lemma debounceCell_outputs now r c s :
  wfState s → (r < NUM_ROWS)%nat → (c < NUM_COLS)%nat →
  outputs (debounceCell now r c s)
  = outputs (foldl handle s (if cellCommits now s r c
                             then [eventFor r c (get (rawState s) r c)] else [])).
Proof.
  intros Hwf Hr Hc. rewrite debounceCell_eq by done. cbv zeta.
  set (s1 := if cellEdge s r c then _ else s).
  assert (Hs1 : outputs s1 = outputs s) by (unfold s1; by destruct (cellEdge s r c)).
  destruct (cellCommits now s r c); cbn [foldl]; [|done].
  rewrite dispatch_handle. apply handle_outputs. exact Hs1.
Qed.

(** The calls of a pass of the commit checks over the cells [l]. *)
Lemma debouncePass_outputs now (l : list (nat * nat)) s :
  NoDup l → (∀ rc, rc ∈ l → (rc.1 < NUM_ROWS)%nat ∧ (rc.2 < NUM_COLS)%nat) →
  wfState s →
  outputs (foldl (λ s' rc, debounceCell now rc.1 rc.2 s') s l)
  = outputs (foldl handle s
       (flat_map (λ rc, if cellCommits now s rc.1 rc.2
                        then [eventFor rc.1 rc.2 (get (rawState s) rc.1 rc.2)]
                        else []) l)).
Proof.
  revert s. induction l as [|[r c] l IH]; intros s Hnd Hin Hwf; [done|].
  apply NoDup_cons in Hnd as [Hy Hnd].
  destruct (Hin (r, c)) as [Hr Hc]; [left|]. cbn [fst snd] in Hr, Hc.
  cbn [foldl flat_map fst snd].
  rewrite IH; [| done | intros rc Hrc; apply Hin; by right
               | by apply debounceCell_wf].
  rewrite foldl_app.
  replace (flat_map _ l) with
    (flat_map (λ rc, if cellCommits now s rc.1 rc.2
                     then [eventFor rc.1 rc.2 (get (rawState s) rc.1 rc.2)]
                     else []) l).
  - apply foldl_handle_outputs. by apply debounceCell_outputs.
  - apply flat_map_ext_elem. intros [r' c'] Hrc. cbn [fst snd].
    assert (Hne : (r, c) ≠ (r', c')) by (intros [= -> ->]; done).
    destruct (cellCommits_view now s (debounceCell now r c s) r' c'
                (debounceCell_other now r' c' r c s Hne)) as [-> ->].
    done.
Qed.

Lemma keyboardScan_outputs now pins s :
  wfState s →
  outputs (keyboardScan now pins s)
  = outputs (foldl handle s (firedEvents now pins s cells)).
Proof.
  intros Hwf. unfold keyboardScan. rewrite forCells_cells.
  pose proof (sampleRows_wf pins s Hwf) as Hwf1.
  assert (Hget : ∀ r c, (r < NUM_ROWS)%nat → (c < NUM_COLS)%nat →
            get (rawState (sampleRows pins s)) r c = pins r c).
  { intros r c Hr Hc. apply sampleRows_get; [apply Hwf | done | done]. }
  destruct (sampleRows_frame pins s)
    as (Hl & Hd & Hc & E1 & E2 & E3 & E4 & E5 & E6 & _).
  revert Hwf1 Hget Hl Hd Hc E1 E2 E3 E4 E5 E6. generalize (sampleRows pins s).
  intros s1 Hwf1 Hget Hl Hd Hc E1 E2 E3 E4 E5 E6.
  rewrite (debouncePass_outputs now cells s1 NoDup_cells); [| | done].
  - replace (flat_map _ cells) with (firedEvents now pins s cells).
    + apply foldl_handle_outputs. unfold outputs. by rewrite E1, E2, E3, E4, E5, E6.
    + unfold firedEvents. apply flat_map_ext_elem.
      intros [r c] Hrc%elem_of_cells. cbn [fst snd].
      unfold cellCommits, cellFires, cellTimer, cellEdge.
      rewrite Hl, Hd, Hc, Hget by tauto. done.
  - intros [r c] Hrc%elem_of_cells. done.
Qed.

(** The calls of the release loop over the cells [l]. *)
Lemma releasePass_outputs (l : list (nat * nat)) s :
  NoDup l →
  outputs (foldl (λ s' rc, releaseCell rc.1 rc.2 s') s l)
  = outputs (foldl handle s
       (flat_map (λ rc, if get (debounced s) rc.1 rc.2
                        then [Released rc.1 rc.2] else []) l)).
Proof.
  revert s. induction l as [|[r c] l IH]; intros s Hnd; [done|].
  apply NoDup_cons in Hnd as [Hy Hnd].
  cbn [foldl flat_map fst snd]. rewrite IH by done. rewrite foldl_app.
  replace (flat_map _ l) with
    (flat_map (λ rc, if get (debounced s) rc.1 rc.2
                     then [Released rc.1 rc.2] else []) l).
  - apply foldl_handle_outputs. rewrite releaseCell_eq.
    destruct (get (debounced s) r c); cbn [foldl]; [|done].
    rewrite dispatch_handle. by apply handle_outputs.
  - apply flat_map_ext_elem. intros [r' c'] Hrc. cbn [fst snd].
    rewrite releaseCell_debounced_other; [done|]. intros [= -> ->]. done.
Qed.

Lemma releaseHeldKeys_outputs s :
  outputs (releaseHeldKeys s) = outputs (foldl handle s (heldReleases s)).
Proof.
  rewrite releaseHeldKeys_cells, forCells_cells.
  exact (releasePass_outputs cells s NoDup_cells).
Qed.

(** ** C3: who asserts and deasserts modifiers *)

Lemma baseCall_not_modifier press r c :
  Forall (λ k, modifierCall k = false) (baseCall press r c).
Proof.
  unfold baseCall. destruct (valid _ && negb _); [|apply Forall_nil_2].
  apply Forall_singleton. destruct press; apply keymap_baseKey_not_modifier.
Qed.

Lemma handleKeyPress_ledger r c s :
  sent (handleKeyPress r c s)
  = sent (pressModifiers (cellMods r c) s) ++ baseCall true r c
  ∧ ledger (handleKeyPress r c s) = ledger (pressModifiers (cellMods r c) s).
Proof.
  rewrite handleKeyPress_eq. cbv zeta. unfold cellMods, baseCall, ledger.
  destruct (valid (keymapAt r c)); cbn [andb].
  - rewrite pressModifiers_eq. fields.
    destruct (modifierOnly (keymapAt r c)); cbn [negb]; by rewrite app_assoc.
  - rewrite pressModifiers_none. fields. by rewrite app_nil_r.
Qed.

Lemma handleKeyRelease_ledger r c s :
  sent (handleKeyRelease r c s)
  = sent (releaseModifiers (cellMods r c)
            (set_sent (sent s ++ baseCall false r c) s))
  ∧ ledger (handleKeyRelease r c s) = ledger (releaseModifiers (cellMods r c) s).
Proof.
  rewrite handleKeyRelease_eq. cbv zeta. unfold cellMods, baseCall, ledger.
  destruct (valid (keymapAt r c)); cbn [andb].
  - rewrite !releaseModifiers_eq. fields.
    destruct (modifierOnly (keymapAt r c)); cbn [negb]; by rewrite app_assoc.
  - rewrite !releaseModifiers_none. fields. by rewrite app_nil_r.
Qed.

(** C3: every modifier assert and deassert the program sends is sent by
    [pressModifiers] or [releaseModifiers].  What a handler sends and does
    to the ledger is what the ledger operation for the modifiers of its cell
    sends and does, and besides that the handler makes at most one call of
    its own, for the base key, which is no modifier call.  A scan cycle
    sends, and does to the ledger, what the handlers invoked for the cells
    that fire send and do, and nothing of its own.  So does the loop of a
    full release, with the release handlers of the held cells.  Lines
    303-305 would release a modifier directly if its counter were not zero;
    in every state the program reaches they find the three counters at zero
    and send nothing, and when the transport's release-all follows, no
    modifier key is down any more. *)
Theorem C3_modifier_calls_come_from_the_ledger :
  (∀ r c s,
     sent (handleKeyPress r c s)
     = sent (pressModifiers (cellMods r c) s) ++ baseCall true r c
     ∧ ledger (handleKeyPress r c s) = ledger (pressModifiers (cellMods r c) s))
  ∧ (∀ r c s,
       sent (handleKeyRelease r c s)
       = sent (releaseModifiers (cellMods r c)
                 (set_sent (sent s ++ baseCall false r c) s))
       ∧ ledger (handleKeyRelease r c s)
         = ledger (releaseModifiers (cellMods r c) s))
  ∧ (∀ press r c, Forall (λ k, modifierCall k = false) (baseCall press r c))
  ∧ (∀ now pins s,
       wfState s →
       outputs (keyboardScan now pins s)
       = outputs (foldl handle s (firedEvents now pins s cells)))
  ∧ (∀ s, sent (forceModifiersReleased s) = sent s ++ forcedCalls s)
  ∧ (∀ s, reachable s →
          outputs (releaseHeldKeys s) = outputs (foldl handle s (heldReleases s))
          ∧ forcedCalls (releaseHeldKeys s) = []
          ∧ sent (keyboardReleaseAll s) = sent (releaseHeldKeys s) ++ [KReleaseAll]
          ∧ ∀ code, isModifierKey code = true →
                    isDown code (sent (releaseHeldKeys s)) = false).
Proof.
  split_and!.
  - apply handleKeyPress_ledger.
  - apply handleKeyRelease_ledger.
  - apply baseCall_not_modifier.
  - apply keyboardScan_outputs.
  - intros s. by rewrite forceModifiersReleased_eq.
  - intros s Hs. destruct (releaseHeldKeys_counters_zero s Hs) as (H1 & H2 & H3).
    split; [apply releaseHeldKeys_outputs|].
    assert (Hforced : forcedCalls (releaseHeldKeys s) = []).
    { unfold forcedCalls. by rewrite H1, H2, H3. }
    split; [exact Hforced|]. split.
    + rewrite keyboardReleaseAll_eq. revert Hforced.
      generalize (releaseHeldKeys s). intros s1 Hforced. cbv zeta. fields.
      by rewrite Hforced.
    + intros code _. by apply releaseHeldKeys_lifts.
Qed.

(** The chord Alt+p at (0,0): pressed from the initial state, and released
    by a full release while it is held. *)
Lemma C3_modifier_calls_witness :
  (sent (handleKeyPress 0 0 initial)
   = sent (pressModifiers (cellMods 0 0) initial) ++ baseCall true 0 0
   ∧ ledger (handleKeyPress 0 0 initial)
     = ledger (pressModifiers (cellMods 0 0) initial))
  ∧ forcedCalls (releaseHeldKeys
                   (runScans [(0, pinsAt 0 0); (5, pinsAt 0 0)] initial)) = []
  ∧ sent (keyboardReleaseAll (runScans [(0, pinsAt 0 0); (5, pinsAt 0 0)] initial))
    = sent (releaseHeldKeys (runScans [(0, pinsAt 0 0); (5, pinsAt 0 0)] initial))
      ++ [KReleaseAll].
Proof.
  destruct C3_modifier_calls_come_from_the_ledger as (H1 & _ & _ & _ & _ & H6).
  destruct (H6 (runScans [(0, pinsAt 0 0); (5, pinsAt 0 0)] initial)
              (reachable_runScans _ _ reach_init)) as (_ & H7 & H8 & _).
  exact (conj (H1 0%nat 0%nat initial) (conj H7 H8)).
Defined.

(** ** C6: order of the calls of a chord *)

Lemma pressCalls_unheld m s : unheld m s → pressCalls m s = assertsOf m.
Proof.
  intros (H1 & H2 & H3). unfold pressCalls, assertsOf.
  destruct (hasMod m MOD_LCTRL); [rewrite H1 by done|];
    (destruct (hasMod m MOD_LALT); [rewrite H2 by done|]);
    (destruct (hasMod m MOD_LSHIFT); [rewrite H3 by done|]); reflexivity.
Qed.

(** Once a key holds the modifiers of [m] that nothing held before, its
    release deasserts them all. *)
Lemma releaseCalls_sole_holder m s :
  unheld m s → releaseCalls m (pressModifiers m s) = deassertsOf m.
Proof.
  intros (H1 & H2 & H3). rewrite pressModifiers_eq.
  unfold releaseCalls, deassertsOf, incr16. fields.
  destruct (hasMod m MOD_LCTRL); [rewrite H1 by done|];
    (destruct (hasMod m MOD_LALT); [rewrite H2 by done|]);
    (destruct (hasMod m MOD_LSHIFT); [rewrite H3 by done|]); reflexivity.
Qed.

(** After the asserts of a hold the modifiers of the mask are down. *)
Lemma pressCalls_modsDown m s :
  hostAgrees s → 0 ≤ refCtrl s → 0 ≤ refAlt s → 0 ≤ refShift s →
  modsDown m (sent s ++ pressCalls m s).
Proof.
  intros (H1 & H2 & H3) R1 R2 R3. unfold modsDown.
  rewrite !isDown_app, !hostStep_pressCalls by auto. rewrite H1, H2, H3.
  change (MODIFIERKEY_LEFT_CTRL =? MODIFIERKEY_LEFT_CTRL) with true.
  change (MODIFIERKEY_LEFT_ALT =? MODIFIERKEY_LEFT_CTRL) with false.
  change (MODIFIERKEY_LEFT_ALT =? MODIFIERKEY_LEFT_ALT) with true.
  change (MODIFIERKEY_LEFT_SHIFT =? MODIFIERKEY_LEFT_CTRL) with false.
  change (MODIFIERKEY_LEFT_SHIFT =? MODIFIERKEY_LEFT_ALT) with false.
  cbv iota.
  split_and!; intros ->; cbn [andb].
  - destruct (Z.eqb_spec (refCtrl s) 0); [done|]. apply Z.ltb_lt. lia.
  - destruct (Z.eqb_spec (refAlt s) 0); [done|]. apply Z.ltb_lt. lia.
  - destruct (Z.eqb_spec (refShift s) 0); [done|]. apply Z.ltb_lt. lia.
Qed.

(** Every chord of the keymap has one modifier. *)
Lemma keymap_chord_one_modifier r c :
  isChord (keymapAt r c) = true →
  ∃ code, isModifierKey code = true
          ∧ assertsOf (mods (keymapAt r c)) = [KPress code]
          ∧ deassertsOf (mods (keymapAt r c)) = [KRelease code].
Proof.
  intros Hchord. destruct (keymap_chord_mods r c Hchord) as [-> | ->].
  - by exists MODIFIERKEY_LEFT_CTRL.
  - by exists MODIFIERKEY_LEFT_ALT.
Qed.

(** The calls of a release that follows the press of a chord are the calls
    of the press undone in reverse order. *)
Lemma chord_release_reverses_press r c s :
  isChord (keymapAt r c) = true → ledgerInRange s →
  sent (handleKeyRelease r c (handleKeyPress r c s))
  = sent (handleKeyPress r c s)
    ++ map undo (rev (pressCalls (mods (keymapAt r c)) s
                      ++ [KPress (baseKey (keymapAt r c))])).
Proof.
  intros Hchord (H1 & H2 & H3).
  pose proof (keymap_chord_mods r c Hchord) as Hmods.
  unfold isChord in Hchord.
  apply andb_prop in Hchord as [Hchord _]. apply andb_prop in Hchord as [Hv Hm].
  apply negb_true_iff in Hm.
  rewrite !handleKeyRelease_eq, !handleKeyPress_eq. cbv zeta.
  rewrite Hv, Hm. fields.
  rewrite <- !app_assoc. do 2 f_equal.
  rewrite rev_app_distr, map_app. cbn [rev map undo app]. f_equal.
  destruct Hmods as [-> | ->].
  - rewrite pressCalls_ctrl. unfold releaseCalls.
    change (hasMod MOD_LCTRL MOD_LCTRL) with true.
    change (hasMod MOD_LCTRL MOD_LALT) with false.
    change (hasMod MOD_LCTRL MOD_LSHIFT) with false.
    fields. cbn [andb]. rewrite !app_nil_r.
    unfold incr16, wrap16.
    destruct (Z.eqb_spec (refCtrl s) 0) as [E|E].
    + rewrite E. reflexivity.
    + destruct (Z.ltb_spec 0 ((refCtrl s + 1) mod 65536)); cbn [andb]; [|done].
      destruct (Z.eqb_spec (((refCtrl s + 1) mod 65536 - 1) mod 65536) 0); [|done].
      exfalso. Z.div_mod_to_equations. lia.
  - rewrite pressCalls_alt. unfold releaseCalls.
    change (hasMod MOD_LALT MOD_LCTRL) with false.
    change (hasMod MOD_LALT MOD_LALT) with true.
    change (hasMod MOD_LALT MOD_LSHIFT) with false.
    fields. cbn [andb app]. rewrite !app_nil_r.
    unfold incr16, wrap16.
    destruct (Z.eqb_spec (refAlt s) 0) as [E|E].
    + rewrite E. reflexivity.
    + destruct (Z.ltb_spec 0 ((refAlt s + 1) mod 65536)); cbn [andb]; [|done].
      destruct (Z.eqb_spec (((refAlt s + 1) mod 65536 - 1) mod 65536) 0); [|done].
      exfalso. Z.div_mod_to_equations. lia.
Qed.

(** C6: for every chord cell of the keymap, with [m] its modifiers and [k]
    its base key.  Press: the handler sends what [pressModifiers m] sends,
    asserts only, and then the press of [k], and moves the counters as
    [pressModifiers m] does.  Release: the handler sends the release of [k]
    and then what [releaseModifiers m] sends, deasserts only, and moves the
    counters as [releaseModifiers m] does.  The calls of a release that
    follows the press are the calls of the press undone in reverse order.
    The chord has one modifier; when no other key holds it, the press sends
    [assert; press k] and the release that follows [release k; deassert].
    And when the base key is pressed, the calls sent before it leave the
    modifiers of the chord down. *)
Theorem C6_chord_call_order r c s :
  isChord (keymapAt r c) = true → ledgerInRange s →
  (sent (handleKeyPress r c s)
   = sent (pressModifiers (mods (keymapAt r c)) s)
     ++ [KPress (baseKey (keymapAt r c))]
   ∧ ledger (handleKeyPress r c s)
     = ledger (pressModifiers (mods (keymapAt r c)) s)
   ∧ sent (pressModifiers (mods (keymapAt r c)) s)
     = sent s ++ pressCalls (mods (keymapAt r c)) s
   ∧ Forall (λ k, isAssert k = true) (pressCalls (mods (keymapAt r c)) s))
  ∧ (sent (handleKeyRelease r c s)
     = sent (releaseModifiers (mods (keymapAt r c))
               (kbRelease (baseKey (keymapAt r c)) s))
     ∧ ledger (handleKeyRelease r c s)
       = ledger (releaseModifiers (mods (keymapAt r c)) s)
     ∧ sent (handleKeyRelease r c s)
       = sent s ++ [KRelease (baseKey (keymapAt r c))]
         ++ releaseCalls (mods (keymapAt r c)) s
     ∧ Forall (λ k, isDeassert k = true) (releaseCalls (mods (keymapAt r c)) s))
  ∧ sent (handleKeyRelease r c (handleKeyPress r c s))
    = sent (handleKeyPress r c s)
      ++ map undo (rev (pressCalls (mods (keymapAt r c)) s
                        ++ [KPress (baseKey (keymapAt r c))]))
  ∧ (∃ code, isModifierKey code = true
             ∧ assertsOf (mods (keymapAt r c)) = [KPress code]
             ∧ deassertsOf (mods (keymapAt r c)) = [KRelease code])
  ∧ (unheld (mods (keymapAt r c)) s →
     sent (handleKeyPress r c s)
     = sent s ++ assertsOf (mods (keymapAt r c))
       ++ [KPress (baseKey (keymapAt r c))]
     ∧ sent (handleKeyRelease r c (handleKeyPress r c s))
       = sent s ++ assertsOf (mods (keymapAt r c))
         ++ [KPress (baseKey (keymapAt r c))]
         ++ [KRelease (baseKey (keymapAt r c))]
         ++ deassertsOf (mods (keymapAt r c)))
  ∧ (hostAgrees s →
     modsDown (mods (keymapAt r c))
              (sent (pressModifiers (mods (keymapAt r c)) s))).
Proof.
  intros Hchord Hrange.
  pose proof (chord_release_reverses_press r c s Hchord Hrange) as Hrev.
  destruct (keymap_chord_one_modifier r c Hchord) as (code & Hcode & HA & HD).
  assert (Hv : valid (keymapAt r c) = true
               ∧ modifierOnly (keymapAt r c) = false).
  { unfold isChord in Hchord.
    apply andb_prop in Hchord as [Hchord _]. apply andb_prop in Hchord as [Hv Hm].
    by apply negb_true_iff in Hm. }
  destruct Hv as [Hv Hm].
  assert (Hpress : sent (handleKeyPress r c s)
                   = sent s ++ pressCalls (mods (keymapAt r c)) s
                     ++ [KPress (baseKey (keymapAt r c))]).
  { rewrite handleKeyPress_eq. cbv zeta. rewrite Hv, Hm. by fields. }
  assert (Hrelease : sent (handleKeyRelease r c s)
                     = sent s ++ [KRelease (baseKey (keymapAt r c))]
                       ++ releaseCalls (mods (keymapAt r c)) s).
  { rewrite handleKeyRelease_eq. cbv zeta. rewrite Hv, Hm. by fields. }
  split_and!.
  - rewrite Hpress, pressModifiers_eq. fields. by rewrite app_assoc.
  - rewrite handleKeyPress_eq, pressModifiers_eq. cbv zeta. rewrite Hv.
    unfold ledger. by fields.
  - rewrite pressModifiers_eq. by fields.
  - apply pressCalls_asserts.
  - rewrite Hrelease, releaseModifiers_eq. fields. unfold releaseCalls. fields.
    by rewrite <- app_assoc.
  - rewrite handleKeyRelease_eq, releaseModifiers_eq. cbv zeta. rewrite Hv.
    unfold ledger. by fields.
  - exact Hrelease.
  - apply releaseCalls_deasserts.
  - exact Hrev.
  - by exists code.
  - intros Hun. rewrite Hrev, Hpress, (pressCalls_unheld _ _ Hun), HA, HD.
    split; [done|]. by rewrite <- !app_assoc.
  - intros Hhost. destruct Hrange as (R1 & R2 & R3).
    rewrite pressModifiers_eq. fields. apply pressCalls_modsDown; (done || lia).
Qed.

(** The chord at (0,0) is Alt+p: from the initial state its press sends
    [assert Alt; press p] and the release that follows [release p;
    deassert Alt]. *)
Lemma C6_chord_witness :
  sent (handleKeyPress 0 0 initial)
  = [KPress MODIFIERKEY_LEFT_ALT; KPress (char16 "p")]
  ∧ sent (handleKeyRelease 0 0 (handleKeyPress 0 0 initial))
    = [KPress MODIFIERKEY_LEFT_ALT; KPress (char16 "p");
       KRelease (char16 "p"); KRelease MODIFIERKEY_LEFT_ALT].
Proof.
  destruct (C6_chord_call_order 0 0 initial eq_refl ledgerInRange_initial)
    as (_ & _ & _ & _ & Hsole & _).
  rewrite initial_boot in Hsole.
  apply Hsole. unfold unheld, boot. fields. by split_and!.
Defined.

(** ** X17: a base key is pressed under the modifiers of its own cell *)

Lemma assertsDue_modsDown m l : modsDown m (l ++ assertsDue m l).
Proof.
  unfold modsDown, assertsDue. rewrite !isDown_app.
  destruct (hasMod m MOD_LCTRL), (hasMod m MOD_LALT), (hasMod m MOD_LSHIFT),
    (isDown MODIFIERKEY_LEFT_CTRL l), (isDown MODIFIERKEY_LEFT_ALT l),
    (isDown MODIFIERKEY_LEFT_SHIFT l); by split_and!.
Qed.

(** Where the calls and the counters agree, [pressModifiers] asserts the
    modifiers that are not down. *)
Lemma pressCalls_assertsDue m s :
  hostAgrees s → 0 ≤ refCtrl s → 0 ≤ refAlt s → 0 ≤ refShift s →
  pressCalls m s = assertsDue m (sent s).
Proof.
  intros (H1 & H2 & H3) R1 R2 R3. unfold pressCalls, assertsDue.
  rewrite H1, H2, H3.
  assert (E : ∀ x, 0 ≤ x → (x =? 0) = negb (0 <? x)).
  { intros x Hx. destruct (Z.eqb_spec x 0), (Z.ltb_spec 0 x); (done || lia). }
  by rewrite !E.
Qed.

Lemma releaseCalls_deassertsOf m s :
  Forall (λ k, k ∈ deassertsOf m) (releaseCalls m s).
Proof.
  unfold releaseCalls, deassertsOf.
  destruct (hasMod m MOD_LCTRL), (hasMod m MOD_LALT), (hasMod m MOD_LSHIFT);
    cbn [andb];
    repeat match goal with
           | |- context [if ?b && ?b' then _ else _] => destruct (b && b')
           end;
    cbn [app]; repeat constructor.
Qed.

Lemma handleKeyPress_assertsDue r c s :
  hostAgrees s → 0 ≤ refCtrl s → 0 ≤ refAlt s → 0 ≤ refShift s →
  sent (handleKeyPress r c s)
  = sent s ++ assertsDue (cellMods r c) (sent s) ++ baseCall true r c.
Proof.
  intros HA R1 R2 R3. rewrite handleKeyPress_eq. cbv zeta.
  unfold cellMods, baseCall. destruct (valid (keymapAt r c)); cbn [andb]; fields.
  - rewrite (pressCalls_assertsDue _ s HA R1 R2 R3).
    by destruct (modifierOnly (keymapAt r c)).
  - unfold assertsDue. rewrite !hasMod_none. cbn [andb app]. by rewrite app_nil_r.
Qed.

Lemma handleKeyRelease_deasserts r c s :
  ∃ D, sent (handleKeyRelease r c s) = sent s ++ baseCall false r c ++ D
       ∧ Forall (λ k, k ∈ deassertsOf (cellMods r c)) D.
Proof.
  rewrite handleKeyRelease_eq. cbv zeta.
  unfold cellMods, baseCall. destruct (valid (keymapAt r c)); cbn [andb]; fields.
  - exists (releaseCalls (mods (keymapAt r c)) s).
    split; [by destruct (modifierOnly (keymapAt r c)) | apply releaseCalls_deassertsOf].
  - exists []. split; [by rewrite app_nil_r | constructor].
Qed.

(** A commit extends the reading of the calls by one invocation. *)
Lemma commit_explained r c v s :
  Inv s → hostAgrees s → explained (events s) (sent s) →
  explained (events (dispatch r c v (set_debounced (set (debounced s) r c v) s)))
            (sent (dispatch r c v (set_debounced (set (debounced s) r c v) s))).
Proof.
  intros (_ & _ & _ & E1 & E2 & E3) HA IH.
  pose proof (held_range (needs MOD_LCTRL) (debounced s)) as R1.
  pose proof (held_range (needs MOD_LALT) (debounced s)) as R2.
  pose proof (held_range (needs MOD_LSHIFT) (debounced s)) as R3.
  rewrite <- E1 in R1. rewrite <- E2 in R2. rewrite <- E3 in R3.
  rewrite dispatch_events. unfold dispatch. destruct v; cbn [eventFor].
  - rewrite (handleKeyPress_assertsDue r c
               (set_debounced (set (debounced s) r c true) s) HA);
      [| fields; lia ..].
    fields. by apply explained_press.
  - destruct (handleKeyRelease_deasserts r c
                (set_debounced (set (debounced s) r c false) s)) as (D & -> & HD).
    fields. by apply explained_release.
Qed.

Lemma debounceCell_explained now r c s :
  (r < NUM_ROWS)%nat → (c < NUM_COLS)%nat →
  Inv s ∧ hostAgrees s ∧ explained (events s) (sent s) →
  Inv (debounceCell now r c s) ∧ hostAgrees (debounceCell now r c s)
  ∧ explained (events (debounceCell now r c s)) (sent (debounceCell now r c s)).
Proof.
  intros Hr Hc (HI & HA & HP).
  split; [by apply debounceCell_Inv|]. split; [by apply debounceCell_host|].
  rewrite debounceCell_eq by (done || apply HI). cbv zeta.
  set (v := get (rawState s) r c).
  set (s1 := if cellEdge s r c then _ else s).
  assert (H1 : Inv s1).
  { unfold s1. destruct (cellEdge s r c); [|done].
    destruct HI as ((Hraw & Hlast & Hdeb & Hchg) & HI).
    unfold Inv, wfState. fields. split_and!; try apply HI; try done;
      by apply wfGrid_set. }
  assert (H2 : hostAgrees s1).
  { unfold s1. destruct (cellEdge s r c); [|done]. exact HA. }
  assert (H3 : explained (events s1) (sent s1)).
  { unfold s1. destruct (cellEdge s r c); [|done]. exact HP. }
  destruct (cellCommits now s r c); [|done].
  by apply commit_explained.
Qed.

Lemma keyboardScan_explained now pins s :
  Inv s → hostAgrees s → explained (events s) (sent s) →
  explained (events (keyboardScan now pins s)) (sent (keyboardScan now pins s)).
Proof.
  intros HI HA HP. unfold keyboardScan.
  refine (proj2 (proj2 (forCells_preserves
            (λ s', Inv s' ∧ hostAgrees s' ∧ explained (events s') (sent s'))
            _ _ _ _))).
  - destruct HI as (Hwf & HI). unfold Inv, hostAgrees.
    destruct (sampleRows_frame pins s)
      as (_ & -> & _ & -> & -> & -> & -> & -> & -> & ->).
    split; [split; [by apply sampleRows_wf | done] | by split].
  - intros r c s' Hr Hc H. by apply debounceCell_explained.
Qed.

Lemma releaseHeldKeys_explained s :
  Inv s → hostAgrees s → explained (events s) (sent s) →
  explained (events (releaseHeldKeys s)) (sent (releaseHeldKeys s)).
Proof.
  intros HI HA HP. rewrite releaseHeldKeys_cells.
  refine (proj2 (proj2 (forCells_preserves
            (λ s', Inv s' ∧ hostAgrees s' ∧ explained (events s') (sent s'))
            _ _ _ _)));
    [done|].
  intros r c s' Hr Hc (H1 & H2 & H3).
  split; [by apply releaseCell_Inv|]. rewrite releaseCell_eq.
  destruct (get (debounced s') r c) eqn:E; [|done]. split.
  - by apply commit_host.
  - by apply commit_explained.
Qed.

Lemma keyboardReleaseAll_explained s :
  reachable s → explained (events s) (sent s) →
  explained (events (keyboardReleaseAll s)) (sent (keyboardReleaseAll s)).
Proof.
  intros Hs HP.
  pose proof (releaseHeldKeys_explained s (reachable_Inv s Hs)
                (reachable_host s Hs) HP) as H.
  destruct (releaseHeldKeys_counters_zero s Hs) as (H1 & H2 & H3).
  revert H H1 H2 H3.
  rewrite keyboardReleaseAll_eq. generalize (releaseHeldKeys s).
  intros s1 H H1 H2 H3. cbv zeta. fields.
  unfold forcedCalls. rewrite H1, H2, H3. cbn [Z.eqb negb app].
  by apply explained_releaseAll.
Qed.

(** X17: a chord reaches the host as a chord.  (1) Once the asserts of those
    modifiers of a mask that are not down have been sent, all modifiers of
    the mask are down.  (2) In every state the program reaches, the calls
    sent so far are those of the handler invocations so far, one after the
    other: each invocation of the press handler for a cell sent these
    asserts for the modifiers of that cell and then the press of the base
    key of that cell, so that the base key went down while the modifiers of
    its own cell were down, whatever other cells are mapped to the same
    key; and no press was sent otherwise. *)
Theorem X17_base_key_pressed_under_its_modifiers :
  (∀ m l, modsDown m (l ++ assertsDue m l))
  ∧ (∀ s, reachable s → explained (events s) (sent s)).
Proof.
  split; [apply assertsDue_modsDown|].
  intros s Hs. induction Hs as [|s now pins Hs IH|s Hs IH].
  - rewrite initial_boot. apply explained_nil.
  - apply keyboardScan_explained;
      [by apply reachable_Inv | by apply reachable_host | done].
  - by apply keyboardReleaseAll_explained.
Qed.

(** The key 8 at (5,8) and the chord Alt+8 at (8,9), pressed together. *)
Lemma X17_base_key_witness :
  let s := runScans [(0, λ r c, pinsAt 5 8 r c || pinsAt 8 9 r c);
                     (5, λ r c, pinsAt 5 8 r c || pinsAt 8 9 r c)] initial in
  explained (events s) (sent s)
  ∧ events s = [Pressed 5 8; Pressed 8 9]
  ∧ sent s = [KPress (char16 "8"); KPress MODIFIERKEY_LEFT_ALT; KPress (char16 "8")].
Proof.
  split; [|by vm_compute].
  exact (proj2 X17_base_key_pressed_under_its_modifiers _
           (reachable_runScans _ _ reach_init)).
Defined.

(** The reading tells the two presses of the key 8 apart: for the chord
    Alt+8, the base key before its modifier is not what the handler of the
    chord sends. *)
Example chord_before_modifier_not_explained :
  ¬ explained [Pressed 8 9] [KPress (char16 "8"); KPress MODIFIERKEY_LEFT_ALT].
Proof.
  intros H. inversion H as [|E l r c HE HE1 HE2|E l r c D HE HD HE1 HE2|E l HE HE1 HE2].
  - destruct E as [|e [|e' E]]; try discriminate HE1.
    injection HE1 as -> ->.
    change (baseCall true 8 9) with [KPress (char16 "8")] in HE2.
    rewrite app_assoc in HE2. apply (f_equal last) in HE2.
    rewrite last_snoc in HE2. discriminate HE2.
  - destruct E as [|e [|e' E]]; discriminate HE1.
  - apply (f_equal last) in HE2. rewrite last_snoc in HE2. discriminate HE2.
Qed.

(** * The matrix pins *)

(** ** The pin tables *)

Lemma NoDup_rowPins : NoDup rowPins.
Proof. refine (bool_decide_unpack _ _). by vm_compute. Qed.

Lemma rowPins_inj r r' :
  (r < NUM_ROWS)%nat → (r' < NUM_ROWS)%nat →
  rowPins !!! r = rowPins !!! r' → r = r'.
Proof.
  intros Hr Hr' E.
  apply (proj1 (NoDup_alt rowPins) NoDup_rowPins r r' (rowPins !!! r)).
  - by apply list_lookup_lookup_total_lt.
  - rewrite E. by apply list_lookup_lookup_total_lt.
Qed.

Lemma rowPins_elem r : (r < NUM_ROWS)%nat → rowPins !!! r ∈ rowPins.
Proof. intros Hr. by apply list_elem_of_lookup_total_2. Qed.

Lemma colPins_elem c : (c < NUM_COLS)%nat → colPins !!! c ∈ colPins.
Proof. intros Hc. by apply list_elem_of_lookup_total_2. Qed.

(** No pin serves two purposes. *)
Lemma colPins_not_rowPins p : p ∈ colPins → p ∉ rowPins.
Proof.
  revert p. apply Forall_forall. refine (bool_decide_unpack _ _). by vm_compute.
Qed.

Lemma LED_PIN_not_rowPins : LED_PIN ∉ rowPins.
Proof. refine (bool_decide_unpack _ _). by vm_compute. Qed.

Lemma LED_PIN_not_colPins : LED_PIN ∉ colPins.
Proof. refine (bool_decide_unpack _ _). by vm_compute. Qed.

(** ** Loops of [pinMode] calls *)

Lemma pinModeLoop_frame (tbl : list nat) m (l : list nat) g :
  levels (foldl (λ g i, pinMode (tbl !!! i) m g) g l) = levels g
  ∧ reads (foldl (λ g i, pinMode (tbl !!! i) m g) g l) = reads g.
Proof.
  revert g. induction l as [|i l IH]; intros g; [done|]. cbn [foldl].
  exact (IH (pinMode (tbl !!! i) m g)).
Qed.

Lemma pinModeLoop_other (tbl : list nat) m (l : list nat) g p :
  (∀ i, i ∈ l → tbl !!! i ≠ p) →
  modes (foldl (λ g i, pinMode (tbl !!! i) m g) g l) !! p = modes g !! p.
Proof.
  revert g. induction l as [|i l IH]; intros g Hl; [done|]. cbn [foldl].
  rewrite IH by (intros j Hj; apply Hl; by right).
  cbn [pinMode modes]. apply lookup_insert_ne, Hl. by left.
Qed.

Lemma pinModeLoop_this (tbl : list nat) m (l : list nat) g i :
  i ∈ l → modes (foldl (λ g i, pinMode (tbl !!! i) m g) g l) !! (tbl !!! i) = Some m.
Proof.
  intros Hi. pose proof (list_elem_of_fmap_2 (λ i, tbl !!! i) l i Hi) as Hp.
  cbv beta in Hp. revert Hp. generalize (tbl !!! i). clear i Hi. intros p Hp.
  revert g. induction l as [|j l IH]; intros g; [by apply elem_of_nil in Hp|].
  cbn [foldl]. destruct (decide (p ∈ (λ i, tbl !!! i) <$> l)) as [Hin|Hnin];
    [by apply IH|].
  rewrite fmap_cons in Hp. apply elem_of_cons in Hp as [->|Hp]; [|done].
  rewrite pinModeLoop_other.
  - cbn [pinMode modes]. apply lookup_insert_eq.
  - intros k Hk E. apply Hnin. apply list_elem_of_fmap. by exists k.
Qed.

Lemma index_lt_seq i n : i ∈ seq 0 n ↔ (i < n)%nat.
Proof. rewrite list_elem_of_In, in_seq. lia. Qed.

(** ** [unselectAllRows] *)

Lemma unselectAllRows_spec g :
  rowsHiZ (modes (unselectAllRows g))
  ∧ (∀ p, p ∉ rowPins → modes (unselectAllRows g) !! p = modes g !! p)
  ∧ levels (unselectAllRows g) = levels g
  ∧ reads (unselectAllRows g) = reads g.
Proof.
  unfold unselectAllRows. split_and!.
  - intros r Hr. apply pinModeLoop_this. by apply index_lt_seq.
  - intros p Hp. apply pinModeLoop_other. intros i Hi%index_lt_seq <-.
    by apply Hp, rowPins_elem.
  - apply pinModeLoop_frame.
  - apply pinModeLoop_frame.
Qed.

(** ** [selectRowLow] *)

Lemma selectLoop_frame row (l : list nat) g :
  levels (foldl (λ g r, if (r =? row)%nat then g
                        else pinMode (rowPins !!! r) INPUT g) g l) = levels g
  ∧ reads (foldl (λ g r, if (r =? row)%nat then g
                         else pinMode (rowPins !!! r) INPUT g) g l) = reads g.
Proof.
  revert g. induction l as [|i l IH]; intros g; [done|]. cbn [foldl].
  destruct (i =? row)%nat; [apply IH|].
  exact (IH (pinMode (rowPins !!! i) INPUT g)).
Qed.

Lemma selectLoop_other row (l : list nat) g p :
  (∀ r, r ∈ l → r ≠ row → rowPins !!! r ≠ p) →
  modes (foldl (λ g r, if (r =? row)%nat then g
                       else pinMode (rowPins !!! r) INPUT g) g l) !! p
  = modes g !! p.
Proof.
  revert g. induction l as [|i l IH]; intros g Hl; [done|]. cbn [foldl].
  rewrite IH by (intros j Hj; apply Hl; by right).
  destruct (Nat.eqb_spec i row) as [->|Hne]; [done|].
  cbn [pinMode modes]. apply lookup_insert_ne, Hl; [by left | done].
Qed.

Lemma selectLoop_this row (l : list nat) g r :
  (∀ i, i ∈ l → (i < NUM_ROWS)%nat) → NoDup l →
  r ∈ l → r ≠ row →
  modes (foldl (λ g r, if (r =? row)%nat then g
                       else pinMode (rowPins !!! r) INPUT g) g l) !! (rowPins !!! r)
  = Some INPUT.
Proof.
  revert g. induction l as [|j l IH]; intros g Hl Hnd Hr Hne;
    [by apply elem_of_nil in Hr|].
  apply NoDup_cons in Hnd as [Hj Hnd]. cbn [foldl].
  apply elem_of_cons in Hr as [->|Hr].
  - rewrite selectLoop_other.
    + destruct (Nat.eqb_spec j row) as [->|_]; [done|].
      cbn [pinMode modes]. apply lookup_insert_eq.
    + intros i Hi _ E. apply rowPins_inj in E; [by subst | |].
      * apply Hl. by right.
      * apply Hl. by left.
  - apply IH; try done. intros i Hi. apply Hl. by right.
Qed.

Lemma selectRowLow_spec row g :
  (row < NUM_ROWS)%nat →
  rowSelected row (modes (selectRowLow row g)) (levels (selectRowLow row g))
  ∧ (∀ p, p ∉ rowPins →
          modes (selectRowLow row g) !! p = modes g !! p
          ∧ levels (selectRowLow row g) !! p = levels g !! p)
  ∧ reads (selectRowLow row g) = reads g.
Proof.
  intros Hrow. unfold selectRowLow. cbv zeta. cbn [pinMode digitalWrite modes levels reads].
  destruct (selectLoop_frame row (seq 0 NUM_ROWS) g) as [-> ->].
  unfold rowSelected. split_and!.
  - apply lookup_insert_eq.
  - apply lookup_insert_eq.
  - intros r Hr Hne. rewrite lookup_insert_ne.
    + apply selectLoop_this; try done.
      * intros i. apply index_lt_seq.
      * apply NoDup_seq.
      * by apply index_lt_seq.
    + intros E. apply rowPins_inj in E; done.
  - intros p Hp.
    assert (Hne : rowPins !!! row ≠ p).
    { intros <-. by apply Hp, rowPins_elem. }
    rewrite !lookup_insert_ne by done. split; [|done].
    apply selectLoop_other. intros r Hr%index_lt_seq _ <-. by apply Hp, rowPins_elem.
  - done.
Qed.

(** X10: [selectRowLow] leaves exactly the selected row driven: its pin
    is an output at level LOW and the pins of the nine other rows are
    inputs, whatever the configuration was before; the column pins, the LED
    pin and every other pin keep their mode and level. *)
Theorem X10_select_row_drives_one_row row g :
  (row < NUM_ROWS)%nat →
  rowSelected row (modes (selectRowLow row g)) (levels (selectRowLow row g))
  ∧ (∀ p, p ∉ rowPins →
          modes (selectRowLow row g) !! p = modes g !! p
          ∧ levels (selectRowLow row g) !! p = levels g !! p).
Proof.
  intros Hrow. destruct (selectRowLow_spec row g Hrow) as (H1 & H2 & _). by split.
Qed.

Lemma X10_select_row_witness :
  rowSelected 3 (modes (selectRowLow 3 (selectRowLow 2 (mkGpio ∅ ∅ []))))
                (levels (selectRowLow 3 (selectRowLow 2 (mkGpio ∅ ∅ [])))).
Proof.
  apply (X10_select_row_drives_one_row 3 (selectRowLow 2 (mkGpio ∅ ∅ []))).
  unfold NUM_ROWS. lia.
Defined.

(** ** The reads of a scan cycle *)

Lemma readLoop_eq r (l : list nat) g :
  foldl (λ g c, digitalRead r c (colPins !!! c) g) g l
  = mkGpio (modes g) (levels g)
      (reads g ++ map (λ c, mkPinRead r c (colPins !!! c) (modes g) (levels g)) l).
Proof.
  revert g. induction l as [|c l IH]; intros g; cbn [foldl map].
  - rewrite app_nil_r. by destruct g.
  - rewrite IH. cbn [digitalRead modes levels reads]. by rewrite <- app_assoc.
Qed.

Lemma goodRead_frame ms ms' rd :
  (∀ p, p ∉ rowPins → ms' !! p = ms !! p) → goodRead ms' rd → goodRead ms rd.
Proof.
  intros Hms (H1 & H2 & H3). split_and!; try done.
  intros p Hp. by rewrite H3, Hms.
Qed.

Lemma scanLoop_spec (l : list nat) g :
  (∀ r, r ∈ l → (r < NUM_ROWS)%nat) →
  ∃ R,
    reads (foldl (λ g r,
             foldl (λ g c, digitalRead r c (colPins !!! c) g)
                   (selectRowLow r g) (seq 0 NUM_COLS))
           g l) = reads g ++ R
    ∧ map readPos R = list_prod l (seq 0 NUM_COLS)
    ∧ Forall (goodRead (modes g)) R
    ∧ ∀ p, p ∉ rowPins →
        modes (foldl (λ g r,
             foldl (λ g c, digitalRead r c (colPins !!! c) g)
                   (selectRowLow r g) (seq 0 NUM_COLS))
           g l) !! p = modes g !! p
        ∧ levels (foldl (λ g r,
             foldl (λ g c, digitalRead r c (colPins !!! c) g)
                   (selectRowLow r g) (seq 0 NUM_COLS))
           g l) !! p = levels g !! p.
Proof.
  revert g. induction l as [|r l IH]; intros g Hl.
  - exists []. cbn [foldl list_prod map]. rewrite app_nil_r. split_and!; done.
  - cbn [foldl]. cbv zeta. rewrite readLoop_eq.
    destruct (selectRowLow_spec r g) as (Hsel & Hframe & Hreads);
      [apply Hl; by left|].
    set (gs := selectRowLow r g) in *.
    set (Rr := map (λ c, mkPinRead r c (colPins !!! c) (modes gs) (levels gs))
                   (seq 0 NUM_COLS)).
    destruct (IH (mkGpio (modes gs) (levels gs) (reads gs ++ Rr)))
      as (R & HR & Hpos & Hgood & Hfr); [intros i Hi; apply Hl; by right|].
    cbn [modes levels reads] in HR, Hgood, Hfr.
    exists (Rr ++ R). split_and!.
    + by rewrite HR, Hreads, <- app_assoc.
    + rewrite map_app, Hpos. cbn [list_prod]. f_equal.
    + apply Forall_app. split.
      * unfold Rr. apply Forall_forall. intros rd Hrd.
        apply list_elem_of_fmap in Hrd as (c & -> & Hc).
        split_and!; cbn [rdPin rdCol rdRow rdModes rdLevels]; try done.
        intros p Hp. by apply Hframe.
      * eapply Forall_impl; [exact Hgood|]. intros rd. apply goodRead_frame.
        intros p Hp. by apply Hframe.
    + intros p Hp. destruct (Hfr p Hp) as [-> ->]. by apply Hframe.
Qed.

Lemma keyboardScan_pins_spec g :
  ∃ R, reads (keyboardScan_pins g) = reads g ++ R
       ∧ map readPos R = cells
       ∧ Forall (goodRead (modes g)) R
       ∧ rowsHiZ (modes (keyboardScan_pins g))
       ∧ ∀ p, p ∉ rowPins →
              modes (keyboardScan_pins g) !! p = modes g !! p
              ∧ levels (keyboardScan_pins g) !! p = levels g !! p.
Proof.
  unfold keyboardScan_pins. cbv zeta.
  destruct (scanLoop_spec (seq 0 NUM_ROWS) g) as (R & HR & Hpos & Hgood & Hfr).
  { intros r. apply index_lt_seq. }
  revert HR Hfr.
  generalize (foldl (λ g r,
             foldl (λ g c, digitalRead r c (colPins !!! c) g)
                   (selectRowLow r g) (seq 0 NUM_COLS))
           g (seq 0 NUM_ROWS)).
  intros g1 HR Hfr.
  destruct (unselectAllRows_spec g1) as (Hz & Hm & Hl & Hrd).
  exists R. split_and!; try done.
  intros p Hp. rewrite Hm, Hl by done. by apply Hfr.
Qed.

(** X11: one scan cycle reads each of the 140 matrix positions once, row by
    row and column by column; it reads a position on the pin of its column,
    at a moment when the pin of its row is driven LOW and the pins of all
    other rows are Hi-Z; it leaves all rows Hi-Z, and it changes neither mode
    nor level of a pin that is not a row pin. *)
Theorem X11_scan_reads_with_one_row_driven g :
  ∃ R, reads (keyboardScan_pins g) = reads g ++ R
       ∧ map readPos R = cells
       ∧ Forall (goodRead (modes g)) R
       ∧ rowsHiZ (modes (keyboardScan_pins g))
       ∧ ∀ p, p ∉ rowPins →
              modes (keyboardScan_pins g) !! p = modes g !! p
              ∧ levels (keyboardScan_pins g) !! p = levels g !! p.
Proof. exact (keyboardScan_pins_spec g). Qed.

(** ** Initialisation of the pins *)

Lemma keyboardInit_pins_spec g :
  pinsReady (keyboardInit_pins g)
  ∧ levels (keyboardInit_pins g) !! LED_PIN = Some LOW
  ∧ reads (keyboardInit_pins g) = reads g.
Proof.
  unfold keyboardInit_pins. cbv zeta.
  set (g1 := foldl (λ g c, pinMode (colPins !!! c) INPUT_PULLUP g) g (seq 0 NUM_COLS)).
  assert (Hcols : colsPulledUp (modes g1)).
  { intros c Hc. apply pinModeLoop_this. by apply index_lt_seq. }
  assert (Hreads : reads g1 = reads g) by apply pinModeLoop_frame.
  clearbody g1.
  destruct (unselectAllRows_spec g1) as (Hz & Hm & Hl & Hrd).
  revert Hz Hm Hl Hrd. generalize (unselectAllRows g1). intros g2 Hz Hm Hl Hrd.
  unfold pinsReady, colsPulledUp, rowsHiZ.
  cbn [pinMode digitalWrite modes levels reads]. split_and!.
  - intros c Hc.
    rewrite lookup_insert_ne, Hm.
    + by apply Hcols.
    + by apply colPins_not_rowPins, colPins_elem.
    + intros E. apply LED_PIN_not_colPins. rewrite E. by apply colPins_elem.
  - intros r Hr. rewrite lookup_insert_ne; [by apply Hz|].
    intros E. apply LED_PIN_not_rowPins. rewrite E. by apply rowPins_elem.
  - apply lookup_insert_eq.
  - apply lookup_insert_eq.
  - by rewrite Hrd.
Qed.

Lemma keyboardScan_pins_ready g :
  pinsReady g →
  pinsReady (keyboardScan_pins g)
  ∧ ∃ R, reads (keyboardScan_pins g) = reads g ++ R
         ∧ length R = (NUM_ROWS * NUM_COLS)%nat ∧ Forall soundRead R.
Proof.
  intros (Hcols & Hrows & Hled).
  destruct (keyboardScan_pins_spec g) as (R & HR & Hpos & Hgood & Hz & Hfr).
  revert HR Hz Hfr. generalize (keyboardScan_pins g). intros g' HR Hz Hfr.
  split.
  - split_and!; [|done|].
    + intros c Hc.
      destruct (Hfr (colPins !!! c)) as [-> _]; [|by apply Hcols].
      by apply colPins_not_rowPins, colPins_elem.
    + destruct (Hfr LED_PIN LED_PIN_not_rowPins) as [-> _]. done.
  - exists R. split_and!; [done | |].
    + rewrite <- (length_map readPos), Hpos. apply length_cells.
    + assert (Hin : Forall (λ rd, readPos rd ∈ cells) R).
      { apply Forall_forall. intros rd Hrd. rewrite <- Hpos.
        by apply list_elem_of_fmap_2. }
      clear Hpos HR. induction Hgood as [|rd R (H1 & H2 & H3) _ IH];
        [constructor|].
      apply Forall_cons in Hin as [Hrd Hin]. constructor; [|by apply IH].
      apply elem_of_cells in Hrd as [_ Hc]. cbn [readPos fst snd] in Hc.
      split_and!; try done. rewrite H1, H3.
      * by apply Hcols.
      * by apply colPins_not_rowPins, colPins_elem.
Qed.

Lemma scanPinsTimes_spec n g :
  pinsReady g →
  pinsReady (scanPinsTimes n g)
  ∧ ∃ R, reads (scanPinsTimes n g) = reads g ++ R
         ∧ length R = (n * (NUM_ROWS * NUM_COLS))%nat ∧ Forall soundRead R.
Proof.
  intros Hg. induction n as [|n (IH & R & HR & Hlen & Hsound)].
  - split; [done|]. exists []. by rewrite app_nil_r.
  - change (scanPinsTimes (S n) g) with (keyboardScan_pins (scanPinsTimes n g)).
    destruct (keyboardScan_pins_ready _ IH) as (Hready & R' & HR' & Hlen' & Hsound').
    split; [done|]. exists (R ++ R'). split_and!.
    + by rewrite HR', HR, <- app_assoc.
    + rewrite length_app, Hlen, Hlen'. lia.
    + by apply Forall_app.
Qed.

(** X12: after the initialisation of the pins, whatever their configuration
    was before, the column pins are inputs with pull-up, the rows are Hi-Z
    and the LED pin is an output at level LOW; and any number [n] of scan
    cycles later this still holds of the modes, the cycles have made
    [140 * n] reads, and each of them read a pulled-up column pin while the
    row of the position, and no other row, was driven LOW. *)
Theorem X12_pins_ready_after_init n g :
  pinsReady (keyboardInit_pins g)
  ∧ levels (keyboardInit_pins g) !! LED_PIN = Some LOW
  ∧ pinsReady (scanPinsTimes n (keyboardInit_pins g))
  ∧ ∃ R, reads (scanPinsTimes n (keyboardInit_pins g)) = reads g ++ R
         ∧ length R = (n * (NUM_ROWS * NUM_COLS))%nat ∧ Forall soundRead R.
Proof.
  destruct (keyboardInit_pins_spec g) as (Hready & Hled & Hreads).
  destruct (scanPinsTimes_spec n _ Hready) as (H1 & R & HR & Hlen & Hsound).
  split_and!; try done. exists R. by rewrite HR, Hreads.
Qed.

(** ** X7: the whole of [keyboardInit] *)

(** X7: [keyboardInit] calls [Keyboard.begin()] once, sets up the pins
    (columns inputs with pull-up, rows Hi-Z, the LED pin an output at level
    LOW) without reading any, clears the four arrays and switches the LED
    off.  It sends no press, release or release-all call, and it leaves the
    three modifier counters and Pressed Count at the values they have: they
    are zero at start-up because static storage is zeroed, and an
    initialisation at a later time would neither reset them nor release what
    the host has been told is held. *)
Theorem X7_init_resets_arrays_and_pins_only d :
  wfState (keys d) →
  keys (keyboardInit_device d)
  = mkState (replicate NUM_ROWS (replicate NUM_COLS false))
            (replicate NUM_ROWS (replicate NUM_COLS false))
            (replicate NUM_ROWS (replicate NUM_COLS false))
            (replicate NUM_ROWS (replicate NUM_COLS 0))
            (refCtrl (keys d)) (refAlt (keys d)) (refShift (keys d))
            (pressedCount (keys d)) false
            (sent (keys d)) (events (keys d))
  ∧ begun (keyboardInit_device d) = S (begun d)
  ∧ gpio (keyboardInit_device d) = keyboardInit_pins (gpio d)
  ∧ pinsReady (gpio (keyboardInit_device d))
  ∧ levels (gpio (keyboardInit_device d)) !! LED_PIN = Some LOW
  ∧ reads (gpio (keyboardInit_device d)) = reads (gpio d).
Proof.
  intros Hwf. unfold keyboardInit_device. cbv zeta. cbn [keys gpio begun].
  destruct (keyboardInit_pins_spec (gpio d)) as (H1 & H2 & H3).
  split; [by apply keyboardInit_eq|]. by split_and!.
Qed.

(** An initialisation while the chord Alt+f is held. *)
Lemma X7_init_witness :
  begun (keyboardInit_device
           (mkDevice (runScans [(0, pinsAt 1 0); (5, pinsAt 1 0)] initial)
                     (mkGpio ∅ ∅ []) 0)) = 1%nat
  ∧ pinsReady (gpio (keyboardInit_device
           (mkDevice (runScans [(0, pinsAt 1 0); (5, pinsAt 1 0)] initial)
                     (mkGpio ∅ ∅ []) 0)))
  ∧ refAlt (keys (keyboardInit_device
           (mkDevice (runScans [(0, pinsAt 1 0); (5, pinsAt 1 0)] initial)
                     (mkGpio ∅ ∅ []) 0)))
    = refAlt (runScans [(0, pinsAt 1 0); (5, pinsAt 1 0)] initial)
  ∧ sent (keys (keyboardInit_device
           (mkDevice (runScans [(0, pinsAt 1 0); (5, pinsAt 1 0)] initial)
                     (mkGpio ∅ ∅ []) 0)))
    = sent (runScans [(0, pinsAt 1 0); (5, pinsAt 1 0)] initial).
Proof.
  pose proof (X7_init_resets_arrays_and_pins_only
                (mkDevice (runScans [(0, pinsAt 1 0); (5, pinsAt 1 0)] initial)
                          (mkGpio ∅ ∅ []) 0)
                (runScans_wf _ _ wfState_initial)) as H.
  revert H. generalize (runScans [(0, pinsAt 1 0); (5, pinsAt 1 0)] initial).
  intros s (Hk & Hb & _ & Hp & _).
  split; [exact Hb|]. split; [exact Hp|]. rewrite Hk.
  cbn [refAlt sent keys]. split; reflexivity.
Defined.

(** * The serial commands *)

(** ** One call of [checkSerialForReboot] *)

Lemma set_commandBuffer_id s : set_commandBuffer (commandBuffer s) s = s.
Proof. by destruct s. Qed.

Lemma checkSerialForReboot_oneLine rx s :
  oneLine rx →
  checkSerialForReboot rx s = ([], set_commandBuffer (commandBuffer s ++ rx) s).
Proof.
  revert s. induction rx as [|c rx IH]; intros s Hrx.
  - cbn [checkSerialForReboot]. by rewrite app_nil_r, set_commandBuffer_id.
  - apply Forall_cons in Hrx as [Hc Hrx]. cbn [checkSerialForReboot].
    rewrite Hc, IH by done. cbn [set_commandBuffer commandBuffer tx reboot].
    unfold set_commandBuffer. by rewrite <- app_assoc.
Qed.

Lemma checkSerialForReboot_line l t rest s :
  oneLine l → isLineEnd t = true →
  checkSerialForReboot (l ++ t :: rest) s = (rest, endOfLine (commandBuffer s ++ l) s).
Proof.
  revert s. induction l as [|c l IH]; intros s Hl Ht.
  - cbn [app checkSerialForReboot]. rewrite Ht, app_nil_r. cbv zeta.
    unfold endOfLine. by destruct (trim (commandBuffer s)).
  - apply Forall_cons in Hl as [Hc Hl]. cbn [app checkSerialForReboot].
    rewrite Hc, IH by done. cbn [set_commandBuffer commandBuffer].
    rewrite <- app_assoc. unfold endOfLine, set_commandBuffer.
    cbn [tx reboot commandBuffer]. done.
Qed.

(** The input up to its first line end. *)
Lemma first_line_end rx :
  oneLine rx ∨ ∃ l t rest, rx = l ++ t :: rest ∧ oneLine l ∧ isLineEnd t = true.
Proof.
  induction rx as [|c rx [IH|(l & t & rest & -> & Hl & Ht)]].
  - left. constructor.
  - destruct (isLineEnd c) eqn:E.
    + right. exists [], c, rx. split_and!; [done | constructor | done].
    + left. by constructor.
  - destruct (isLineEnd c) eqn:E.
    + right. exists [], c, (l ++ t :: rest). split_and!; [done | constructor | done].
    + right. exists (c :: l), t, rest. split_and!; [done | by constructor | done].
Qed.

(** X13: one call of [checkSerialForReboot] reads up to the first line end
    and no further.  Input without a line end is appended to the buffer,
    and nothing is printed or requested; at a line end the buffered line,
    trimmed, is processed as a command unless it is empty, the buffer is
    emptied, and what follows the line end is left unread for the next
    call: a call processes at most one command. *)
Theorem X13_poll_reads_one_line s :
  (∀ rx, isText rx → oneLine rx →
         checkSerialForReboot rx s
         = ([], mkSerial (tx s) (commandBuffer s ++ rx) (reboot s)))
  ∧ (∀ l t rest, isText l → oneLine l → isLineEnd t = true →
         checkSerialForReboot (l ++ t :: rest) s
         = (rest, endOfLine (commandBuffer s ++ l) s)).
Proof.
  split.
  - intros rx _ Hrx. by apply checkSerialForReboot_oneLine.
  - intros l t rest _ Hl Ht. by apply checkSerialForReboot_line.
Qed.

Lemma X13_poll_witness :
  checkSerialForReboot (str "IDENTIFY" ++ "010"%char :: str "REBOOT_NORMAL")
    (mkSerial [] [] None)
  = (str "REBOOT_NORMAL",
     endOfLine ([] ++ str "IDENTIFY") (mkSerial [] [] None)).
Proof.
  apply (proj2 (X13_poll_reads_one_line (mkSerial [] [] None))
           (str "IDENTIFY") "010"%char (str "REBOOT_NORMAL")).
  - unfold isText. repeat constructor; discriminate.
  - unfold oneLine. repeat constructor.
  - reflexivity.
Defined.

(** ** Repeated calls *)

Lemma serialStep_rebooted s rx :
  reboot s ≠ None → foldl serialStep s rx = s.
Proof.
  intros Hs. induction rx as [|c rx IH]; [done|]. cbn [foldl].
  unfold serialStep at 2. destruct (reboot s); [exact IH | done].
Qed.

Lemma serialStep_oneLine rx s :
  reboot s = None → oneLine rx →
  foldl serialStep s rx = set_commandBuffer (commandBuffer s ++ rx) s.
Proof.
  revert s. induction rx as [|c rx IH]; intros s Hs Hrx.
  - cbn [foldl]. by rewrite app_nil_r, set_commandBuffer_id.
  - apply Forall_cons in Hrx as [Hc Hrx]. cbn [foldl].
    unfold serialStep at 2. rewrite Hs, Hc, IH by done.
    unfold set_commandBuffer. cbn [tx reboot commandBuffer]. by rewrite <- app_assoc.
Qed.

Lemma serialStep_lineEnd s t :
  reboot s = None → isLineEnd t = true →
  serialStep s t = endOfLine (commandBuffer s) s.
Proof. intros Hs Ht. unfold serialStep. by rewrite Hs, Ht. Qed.

Lemma pollSerial_idle fuel s : pollSerial fuel [] s = s.
Proof. destruct fuel; [done|]. cbn [pollSerial]. by destruct (reboot s). Qed.

(** X14: nothing is lost between calls.  Calling [checkSerialForReboot]
    until the input is read, one command per call, has the effect of
    reading the input character by character in one pass, up to the first
    restart request: the lines are processed in the order they arrive,
    and the characters of an unfinished line wait in the buffer. *)
Theorem X14_repeated_polls_read_every_line fuel rx s :
  isText rx → (length rx ≤ fuel)%nat →
  pollSerial fuel rx s = foldl serialStep s rx.
Proof.
  intros _. revert rx s. induction fuel as [|fuel IH]; intros rx s Hlen.
  - destruct rx; [done | cbn in Hlen; lia].
  - cbn [pollSerial]. destruct (reboot s) eqn:Hs.
    { symmetry. apply serialStep_rebooted. by rewrite Hs. }
    destruct rx as [|c rx]; [done|].
    destruct (first_line_end (c :: rx)) as [Hrx|(l & t & rest & E & Hl & Ht)].
    + rewrite checkSerialForReboot_oneLine, pollSerial_idle by done.
      by rewrite serialStep_oneLine.
    + rewrite E in Hlen |- *. rewrite checkSerialForReboot_line by done.
      rewrite IH by (rewrite length_app in Hlen; cbn in Hlen; lia).
      rewrite foldl_app. cbn [foldl]. rewrite (serialStep_oneLine l s Hs Hl).
      by rewrite (serialStep_lineEnd (set_commandBuffer (commandBuffer s ++ l) s) t Hs Ht).
Qed.

Lemma X14_repeated_polls_witness :
  pollSerial 40 (str "IDENTIFY" ++ "010"%char :: str "REBOOT_NORMAL" ++ ["013"%char])
    (mkSerial [] [] None)
  = foldl serialStep (mkSerial [] [] None)
      (str "IDENTIFY" ++ "010"%char :: str "REBOOT_NORMAL" ++ ["013"%char]).
Proof.
  apply (X14_repeated_polls_read_every_line 40).
  - unfold isText. repeat constructor; discriminate.
  - cbn. lia.
Defined.

(** ** Blanks around a command *)

Lemma dropSpaces_blanks ws l :
  Forall (λ c, isspace c = true) ws → dropSpaces (ws ++ l) = dropSpaces l.
Proof.
  induction 1 as [|c ws Hc _ IH]; [done|]. cbn [app dropSpaces]. by rewrite Hc.
Qed.

Lemma dropSpaces_nil l :
  dropSpaces l = [] → Forall (λ c, isspace c = true) l.
Proof.
  induction l as [|c l IH]; [constructor|]. cbn [dropSpaces].
  destruct (isspace c) eqn:E; [|done]. intros H. constructor; [done | by apply IH].
Qed.

Lemma dropSpaces_app l ws :
  dropSpaces l ≠ [] → dropSpaces (l ++ ws) = dropSpaces l ++ ws.
Proof.
  induction l as [|c l IH]; [done|]. cbn [app dropSpaces].
  destruct (isspace c); [exact IH | done].
Qed.

Lemma trim_pad ws1 l ws2 :
  Forall (λ c, isspace c = true) ws1 → Forall (λ c, isspace c = true) ws2 →
  trim (ws1 ++ l ++ ws2) = trim l.
Proof.
  intros H1 H2. unfold trim. rewrite dropSpaces_blanks by done.
  destruct (dropSpaces l) as [|c d] eqn:E.
  - apply dropSpaces_nil in E.
    rewrite <- (app_nil_r (l ++ ws2)), dropSpaces_blanks; [done|].
    by apply Forall_app.
  - rewrite dropSpaces_app by (by rewrite E). rewrite E, rev_app_distr.
    rewrite dropSpaces_blanks; [done|]. by apply Forall_rev.
Qed.

Lemma blanks_spaces ws : blanks ws → Forall (λ c, isspace c = true) ws.
Proof. intros H. eapply Forall_impl; [exact H|]. by intros c [? _]. Qed.

Lemma blanks_oneLine ws : blanks ws → oneLine ws.
Proof. intros H. eapply Forall_impl; [exact H|]. by intros c [_ ?]. Qed.

(** X15: blanks around a command and blank lines are ignored.  With an
    empty buffer, a line that carries blanks before and after its text has
    the effect of the text alone, and a line of blanks only, or an empty
    line, has no effect at all: nothing is printed for it.  So a line ended
    by carriage return and line feed is one command, not two. *)
Theorem X15_blanks_are_ignored s :
  commandBuffer s = [] →
  (∀ ws1 l ws2 t rest,
     isText (ws1 ++ l ++ ws2) → blanks ws1 → blanks ws2 → oneLine l →
     isLineEnd t = true →
     checkSerialForReboot (ws1 ++ l ++ ws2 ++ t :: rest) s
     = checkSerialForReboot (l ++ t :: rest) s)
  ∧ (∀ ws t rest,
       isText ws → blanks ws → isLineEnd t = true →
       checkSerialForReboot (ws ++ t :: rest) s = (rest, s)).
Proof.
  intros Hbuf. split.
  - intros ws1 l ws2 t rest _ H1 H2 Hl Ht.
    replace (ws1 ++ l ++ ws2 ++ t :: rest) with ((ws1 ++ l ++ ws2) ++ t :: rest)
      by (by rewrite <- !app_assoc).
    rewrite !checkSerialForReboot_line; try done.
    + rewrite Hbuf. cbn [app]. unfold endOfLine.
      by rewrite trim_pad by (by apply blanks_spaces).
    + unfold oneLine. rewrite !Forall_app. split_and!; try done;
        by apply blanks_oneLine.
  - intros ws t rest _ Hws Ht.
    rewrite checkSerialForReboot_line by (done || by apply blanks_oneLine).
    rewrite Hbuf. cbn [app]. unfold endOfLine.
    pose proof (trim_pad ws [] [] (blanks_spaces ws Hws) (Forall_nil_2 _)) as E.
    cbn [app] in E. rewrite app_nil_r in E. rewrite E.
    change (trim []) with (@nil ascii). cbv iota.
    rewrite <- Hbuf at 1. by rewrite set_commandBuffer_id.
Qed.

Lemma X15_blanks_witness :
  checkSerialForReboot
    ([" "; "009"]%char ++ str "IDENTIFY" ++ [" "]%char ++ "013"%char :: ["010"%char])
    (mkSerial [] [] None)
  = checkSerialForReboot (str "IDENTIFY" ++ "013"%char :: ["010"%char])
      (mkSerial [] [] None).
Proof.
  apply (proj1 (X15_blanks_are_ignored (mkSerial [] [] None) eq_refl)).
  - unfold isText. repeat constructor; discriminate.
  - unfold blanks. repeat constructor.
  - unfold blanks. repeat constructor.
  - unfold oneLine. repeat constructor.
  - reflexivity.
Defined.

(** ** No restart without a restart command *)

Lemma dropSpaces_suffix l : ∃ k, l = k ++ dropSpaces l.
Proof.
  induction l as [|c l [k IH]]; [by exists []|]. cbn [dropSpaces].
  destruct (isspace c).
  - exists (c :: k). cbn [app]. by rewrite <- IH.
  - by exists [].
Qed.

Lemma trim_occurs l : occursIn (trim l) l.
Proof.
  unfold trim. destruct (dropSpaces_suffix l) as [k Hk].
  destruct (dropSpaces_suffix (rev (dropSpaces l))) as [k' Hk'].
  exists k, (rev k').
  rewrite <- rev_app_distr, <- Hk', rev_involutive. exact Hk.
Qed.

Lemma occursIn_trans a l m : occursIn a l → occursIn l m → occursIn a m.
Proof.
  intros (k1 & k2 & ->) (j1 & j2 & ->). exists (j1 ++ k1), (k2 ++ j2).
  by rewrite <- !app_assoc.
Qed.

Lemma noRestartCommand_part l m :
  occursIn l m → noRestartCommand m → noRestartCommand l.
Proof.
  intros Hl [H1 H2]. split; intros H; [apply H1 | apply H2];
    by apply (occursIn_trans _ l).
Qed.

Lemma occursIn_refl l : occursIn l l.
Proof. exists [], []. by rewrite app_nil_r. Qed.

Lemma processSerialCommand_frame cmd s :
  commandBuffer (processSerialCommand cmd s) = commandBuffer s
  ∧ (cmd ≠ str "REBOOT_BOOTLOADER" → cmd ≠ str "REBOOT_NORMAL" →
     reboot (processSerialCommand cmd s) = reboot s).
Proof.
  unfold processSerialCommand, strEq.
  repeat case_bool_decide; cbv zeta; split; try done; intros; congruence.
Qed.

Lemma endOfLine_quiet line s :
  noRestartCommand line →
  commandBuffer (endOfLine line s) = [] ∧ reboot (endOfLine line s) = reboot s.
Proof.
  intros Hline.
  destruct (noRestartCommand_part _ _ (trim_occurs line) Hline) as [H1 H2].
  unfold endOfLine. cbv zeta. destruct (trim line) as [|c cmd] eqn:E; [done|].
  destruct (processSerialCommand_frame (c :: cmd) (set_commandBuffer [] s))
    as [-> ->]; [done | |].
  - intros E'. apply H1. rewrite E'. apply occursIn_refl.
  - intros E'. apply H2. rewrite E'. apply occursIn_refl.
Qed.

Lemma checkSerialForReboot_quiet rx s :
  reboot s = None → noRestartCommand (commandBuffer s ++ rx) →
  reboot (checkSerialForReboot rx s).2 = None
  ∧ noRestartCommand (commandBuffer (checkSerialForReboot rx s).2
                      ++ (checkSerialForReboot rx s).1).
Proof.
  intros Hs Hno.
  destruct (first_line_end rx) as [Hrx|(l & t & rest & -> & Hl & Ht)].
  - rewrite checkSerialForReboot_oneLine by done. cbn [fst snd].
    unfold set_commandBuffer. cbn [reboot commandBuffer]. by rewrite app_nil_r.
  - rewrite checkSerialForReboot_line by done. cbn [fst snd].
    destruct (endOfLine_quiet (commandBuffer s ++ l) s) as [-> ->].
    + apply (noRestartCommand_part _ (commandBuffer s ++ l ++ t :: rest));
        [|done].
      exists [], (t :: rest). by rewrite <- app_assoc.
    + split; [done|]. cbn [app].
      apply (noRestartCommand_part _ (commandBuffer s ++ l ++ t :: rest));
        [|done].
      exists (commandBuffer s ++ l ++ [t]), []. rewrite app_nil_r.
      by rewrite <- !app_assoc.
Qed.

(** X16: a restart is requested only on a restart command.  From a state
    in which none is requested, input in which, together with what the
    buffer holds, neither [REBOOT_BOOTLOADER] nor [REBOOT_NORMAL] occurs
    leaves the program without a restart request, however many calls read
    it. *)
Theorem X16_no_restart_without_command fuel rx s :
  reboot s = None → isText rx → noRestartCommand (commandBuffer s ++ rx) →
  reboot (pollSerial fuel rx s) = None.
Proof.
  intros Hs _. revert rx s Hs. induction fuel as [|fuel IH]; intros rx s Hs Hno;
    [done|].
  cbn [pollSerial]. rewrite Hs. destruct rx as [|c rx]; [done|].
  destruct (checkSerialForReboot_quiet (c :: rx) s Hs Hno) as [H1 H2].
  destruct (checkSerialForReboot (c :: rx) s) as [rx' s']. by apply IH.
Qed.

Lemma X16_no_restart_witness :
  reboot (pollSerial 9 (str "reboot" ++ ["010"%char]) (mkSerial [] (str "  ") None))
  = None.
Proof.
  apply X16_no_restart_without_command.
  - reflexivity.
  - unfold isText. repeat constructor; discriminate.
  - split; intros (k1 & k2 & E); apply (f_equal length) in E;
      rewrite !length_app in E; cbn in E; lia.
Defined.

(** ** The replies *)

Lemma oneLine_part l m : occursIn l m → oneLine m → oneLine l.
Proof.
  intros (k1 & k2 & ->) H. unfold oneLine in *.
  rewrite !Forall_app in H. tauto.
Qed.

Lemma oneLine_str_app (a l : list ascii) :
  oneLine a → oneLine l → oneLine (a ++ l).
Proof. intros Ha Hl. by apply Forall_app. Qed.

(** X18: the replies are framed by lines.  A command without a line end in
    it is answered by exactly one line, ended by carriage return and line
    feed: the identity of the firmware for [IDENTIFY], and a line that
    starts with the tag of the restart commands for every other command,
    known or not; so is every line that one call of [checkSerialForReboot]
    processes. *)
Theorem X18_each_command_prints_one_line :
  (∀ cmd s, isText cmd → oneLine cmd →
     ∃ line, tx (processSerialCommand cmd s) = tx s ++ line ++ ["013"; "010"]%char
             ∧ oneLine line
             ∧ (cmd = str "IDENTIFY" → line = str "[IDENT] EvoCmdWingKeyboard v0.3")
             ∧ (cmd ≠ str "IDENTIFY" → ∃ text, line = str "[REBOOT] " ++ text))
  ∧ (∀ l t rest s, isText l → oneLine (commandBuffer s ++ l) → isLineEnd t = true →
       tx (checkSerialForReboot (l ++ t :: rest) s).2 = tx s
       ∨ ∃ line, tx (checkSerialForReboot (l ++ t :: rest) s).2
                 = tx s ++ line ++ ["013"; "010"]%char
                 ∧ oneLine line).
Proof.
  assert (Hcmd : ∀ cmd s, oneLine cmd →
     ∃ line, tx (processSerialCommand cmd s) = tx s ++ line ++ ["013"; "010"]%char
             ∧ oneLine line
             ∧ (cmd = str "IDENTIFY" → line = str "[IDENT] EvoCmdWingKeyboard v0.3")
             ∧ (cmd ≠ str "IDENTIFY" → ∃ text, line = str "[REBOOT] " ++ text)).
  { intros cmd s Hcmd. unfold processSerialCommand, strEq.
    repeat case_bool_decide; cbv zeta;
      cbn [println print set_reboot tx commandBuffer reboot];
      rewrite <- ?app_assoc.
    - exists (str "[IDENT] EvoCmdWingKeyboard v0.3").
      split_and!; [done | unfold oneLine; repeat constructor | done | done].
    - exists (str "[REBOOT] EvoCmdWingKeyboard v0.3 entering bootloader...").
      split_and!; [done | unfold oneLine; repeat constructor | done |].
      intros _. by eexists.
    - exists (str "[REBOOT] EvoCmdWingKeyboard v0.3 normal reboot requested...").
      split_and!; [done | unfold oneLine; repeat constructor | done |].
      intros _. by eexists.
    - exists (str "[REBOOT] Unknown command: " ++ cmd).
      split_and!; [by rewrite <- app_assoc | | done |].
      + apply oneLine_str_app; [unfold oneLine; repeat constructor | done].
      + intros _. exists (str "Unknown command: " ++ cmd). done. }
  split.
  - intros cmd s _. apply Hcmd.
  - intros l t rest s _ Hl Ht.
    rewrite checkSerialForReboot_line;
      [| unfold oneLine in *; rewrite Forall_app in Hl; tauto | done].
    cbn [snd]. unfold endOfLine. cbv zeta.
    pose proof (oneLine_part _ _ (trim_occurs (commandBuffer s ++ l)) Hl) as Htrim.
    destruct (trim (commandBuffer s ++ l)) as [|c cmd]; [by left|]. right.
    destruct (Hcmd (c :: cmd) (set_commandBuffer [] s) Htrim) as (line & E & H & _).
    exists line. by split.
Qed.

Lemma X18_each_command_witness :
  ∃ line, tx (processSerialCommand (str "hello") (mkSerial [] [] None))
          = [] ++ line ++ ["013"; "010"]%char
          ∧ oneLine line.
Proof.
  destruct (proj1 X18_each_command_prints_one_line (str "hello")
              (mkSerial [] [] None)) as (line & E & H & _).
  - unfold isText. repeat constructor; discriminate.
  - unfold oneLine. repeat constructor.
  - exists line. by split.
Defined.
